(** * Gemini-OCR-Example: batch extraction pipeline

    A shallow embedding of the batch pipeline of the repository
    (src/clients/llm_client.py, src/handlers/input_handler.py,
    src/managers/output_manager.py, src/extractors/base_extractor.py,
    src/reports/report_generator.py, src/app.py) and the properties of its
    validator, cost accounting, file discovery, checkpointing, scheduler,
    usage report and entry point.

    Conventions.
    - A Python [str] is a list of Unicode code points ([N]).
    - A Python exception is a value of [exn]; code that may raise returns a
      [result].  State that was mutated before an exception is raised stays
      mutated, as in Python.
    - Python floats (costs, rates) are modelled by exact rationals ([Q]); the
      rounding of binary floating point is outside the model, and nothing is
      stated that depends on the order in which costs are added up.
    - The decoder of [json.loads] runs under the limits of the interpreter
      ([Limits]): the longest integer literal it converts and the nesting it
      can still enter.
    - The workers of a pool with more than one process race on the
      checkpoint file; what the file holds after such a run is given by the
      environment ([racy_checkpoint]).
    - Logging calls have no effect on the modelled state and are left out. *)

From Stdlib Require Import ZArith NArith QArith Lia Permutation.
From stdpp Require Import base strings gmap sets list.

#[local] Set Warnings "-register-all,-clear-no-such-hyp".
#[local] Open Scope N_scope.

(** ** Python strings *)

Definition str : Type := list N.

(** An ASCII literal as a Python string. *)
Definition py (s : string) : str :=
  (fun a => Ascii.N_of_ascii a) <$> String.list_ascii_of_string s.

(** The same, with every apostrophe of the literal standing for a double
    quote (for JSON texts). *)
Definition pyq (s : string) : str :=
  (fun c => if c =? 39 then 34 else c) <$> py s.

Module Ch.
Definition tab : N := 9.
Definition newline : N := 10.
Definition cr : N := 13.
Definition space : N := 32.
Definition quote : N := 34.
Definition plus : N := 43.
Definition comma : N := 44.
Definition minus : N := 45.
Definition dot : N := 46.
Definition slash : N := 47.
Definition zero : N := 48.
Definition nine : N := 57.
Definition colon : N := 58.
Definition lbracket : N := 91.
Definition backslash : N := 92.
Definition rbracket : N := 93.
Definition lbrace : N := 123.
Definition rbrace : N := 125.
End Ch.

(** [str.isspace] on one character: the code points CPython treats as
    whitespace. *)
Definition isspace (c : N) : bool :=
  ((9 <=? c) && (c <=? 13)) || ((28 <=? c) && (c <=? 32))
  || (c =? 133) || (c =? 160) || (c =? 5760)
  || ((8192 <=? c) && (c <=? 8202))
  || (c =? 8232) || (c =? 8233) || (c =? 8239) || (c =? 8287) || (c =? 12288).

(** [s.startswith(prefix)] *)
Fixpoint startswith (prefix s : str) : bool :=
  match prefix, s with
  | [], _ => true
  | _ :: _, [] => false
  | a :: p, b :: r => (a =? b) && startswith p r
  end.

(** [s.endswith(suffix)] *)
Definition endswith (suffix s : str) : bool :=
  startswith (reverse suffix) (reverse s).

(** [s.lstrip()], [s.rstrip()], [s.strip()] *)
Fixpoint lstrip (s : str) : str :=
  match s with
  | [] => []
  | c :: r => if isspace c then lstrip r else s
  end.

Definition rstrip (s : str) : str := reverse (lstrip (reverse s)).

Definition strip (s : str) : str := rstrip (lstrip s).

(** [s.find(c)] for a one-character needle; [None] stands for Python's -1. *)
Fixpoint find (c : N) (s : str) : option nat :=
  match s with
  | [] => None
  | a :: r => if a =? c then Some O else S <$> find c r
  end.

(** [s.rfind(c)] for a one-character needle; [None] stands for -1. *)
Definition rfind (c : N) (s : str) : option nat :=
  (fun i => (length s - 1 - i)%nat) <$> find c (reverse s).

(** [s.lower()] on the ASCII letters; other code points are kept (none of
    them lowers to an ASCII letter of a supported extension). *)
Definition lower_char (c : N) : N :=
  if (65 <=? c) && (c <=? 90) then c + 32 else c.

Definition lower (s : str) : str := lower_char <$> s.

(** Equality test on strings ([==]). *)
Definition str_eqb (a b : str) : bool := bool_decide (a = b).

(** ** Exceptions and results *)

Inductive exn : Type :=
| FileNotFoundError
| NotADirectoryError
| OSError
| ValueError
| JSONDecodeError
| TypeError
| KeyError
| AttributeError
| UnicodeDecodeError
| BrokenProcessPool
| RecursionError
| SystemExit.

(** [isinstance(e, cls)] for the classes named in [except] clauses:
    [JSONDecodeError] and [UnicodeDecodeError] are subclasses of
    [ValueError]; [FileNotFoundError] and [NotADirectoryError] are subclasses
    of [OSError]; [RecursionError] is a [RuntimeError], none of the classes
    named.  [SystemExit] is raised by argparse only, before any [try] block
    is entered. *)
Definition is_instance (e cls : exn) : bool :=
  match cls, e with
  | ValueError, (ValueError | JSONDecodeError | UnicodeDecodeError) => true
  | OSError, (OSError | FileNotFoundError | NotADirectoryError) => true
  | FileNotFoundError, FileNotFoundError => true
  | NotADirectoryError, NotADirectoryError => true
  | JSONDecodeError, JSONDecodeError => true
  | TypeError, TypeError => true
  | KeyError, KeyError => true
  | AttributeError, AttributeError => true
  | UnicodeDecodeError, UnicodeDecodeError => true
  | BrokenProcessPool, BrokenProcessPool => true
  | RecursionError, RecursionError => true
  | SystemExit, SystemExit => true
  | _, _ => false
  end.

Inductive result (A : Type) : Type :=
| Ok (a : A)
| Raise (e : exn).
Arguments Ok {A} a.
Arguments Raise {A} e.

#[global] Instance result_ret : MRet result := fun A a => Ok a.

#[global] Instance result_bind : MBind result := fun A B k m =>
  match m with
  | Ok a => k a
  | Raise e => Raise e
  end.

(** ** JSON values and [json.loads] *)

(** A decoded JSON value.  A Python [dict] keeps its keys in insertion order;
    a float is kept as the literal it was read from. *)
Inductive json : Type :=
| JNull
| JBool (b : bool)
| JInt (n : Z)
| JFloat (literal : str)
| JStr (s : str)
| JList (l : list json)
| JDict (d : list (str * json)).

(** [d[k] = v] on an insertion-ordered dict. *)
Fixpoint dict_set (k : str) (v : json) (d : list (str * json)) : list (str * json) :=
  match d with
  | [] => [(k, v)]
  | (k', v') :: r => if str_eqb k' k then (k, v) :: r else (k', v') :: dict_set k v r
  end.

(** [dict(pairs)] *)
Definition dict_of_pairs (pairs : list (str * json)) : list (str * json) :=
  foldl (fun d kv => dict_set kv.1 kv.2 d) [] pairs.

(** The limits of the interpreter under which the decoder runs. *)
Record Limits : Type := {
  (* sys.get_int_max_str_digits(); 0: no limit *)
  int_max_str_digits : nat;
  (* the arrays and objects inside one another that the scanner can still
     enter when json.loads is called: what the recursion limit leaves at
     that point of the call stack *)
  recursion_limit : nat;
}.

(** The limits CPython starts with: 4300 digits, and a recursion limit of
    1000 less the frames of a short call stack. *)
Definition default_limits : Limits :=
  {| int_max_str_digits := 4300; recursion_limit := 990 |}.

(** Outcome of one scanning step: a value and the unread rest of the text,
    a decoding error, an exception other than the decoding error, or
    exhausted fuel of the model. *)
Inductive scan (A : Type) : Type :=
| Scanned (a : A) (rest : str)
| Malformed
| Failed (e : exn)
| NoFuel.
Arguments Scanned {A} a rest.
Arguments Malformed {A}.
Arguments Failed {A} e.
Arguments NoFuel {A}.

Definition scan_map {A B} (f : A -> B) (r : scan A) : scan B :=
  match r with
  | Scanned a rest => Scanned (f a) rest
  | Malformed => Malformed
  | Failed e => Failed e
  | NoFuel => NoFuel
  end.

(** JSON whitespace: space, tab, line feed, carriage return. *)
Definition json_ws (c : N) : bool :=
  (c =? Ch.space) || (c =? Ch.tab) || (c =? Ch.newline) || (c =? Ch.cr).

Fixpoint skip_ws (s : str) : str :=
  match s with
  | [] => []
  | c :: r => if json_ws c then skip_ws r else s
  end.

Definition is_digit (c : N) : bool := (Ch.zero <=? c) && (c <=? Ch.nine).

Definition hex_value (c : N) : option N :=
  if is_digit c then Some (c - 48)
  else if (97 <=? c) && (c <=? 102) then Some (c - 87)
  else if (65 <=? c) && (c <=? 70) then Some (c - 55)
  else None.

(** The four hex digits of a [\uXXXX] escape. *)
Definition decode_uXXXX (h1 h2 h3 h4 : N) : option N :=
  a ← hex_value h1; b ← hex_value h2; c ← hex_value h3; d ← hex_value h4;
  Some (((a * 16 + b) * 16 + c) * 16 + d).

(** The one-character escapes of the decoder's BACKSLASH table. *)
Definition backslash_escape (c : N) : option N :=
  if c =? Ch.quote then Some Ch.quote
  else if c =? Ch.backslash then Some Ch.backslash
  else if c =? Ch.slash then Some Ch.slash
  else if c =? 98 then Some 8
  else if c =? 102 then Some 12
  else if c =? 110 then Some 10
  else if c =? 114 then Some 13
  else if c =? 116 then Some 9
  else None.

Definition is_high_surrogate (u : N) : bool := (55296 <=? u) && (u <=? 56319).
Definition is_low_surrogate (u : N) : bool := (56320 <=? u) && (u <=? 57343).

(** [scanstring] in strict mode: the text after an opening quote, up to the
    closing quote.  [acc] holds the characters read so far, last first. *)
Fixpoint scanstring (s : str) (acc : str) : scan str :=
  match s with
  | [] => Malformed
  | c :: r =>
    if c =? Ch.quote then Scanned (reverse acc) r
    else if c =? Ch.backslash then
      match r with
      | [] => Malformed
      | e :: r1 =>
        if e =? 117 then
          match r1 with
          | h1 :: h2 :: h3 :: h4 :: r2 =>
            match decode_uXXXX h1 h2 h3 h4 with
            | None => Malformed
            | Some uni =>
              if is_high_surrogate uni then
                match r2 with
                | b :: u :: g1 :: g2 :: g3 :: g4 :: r3 =>
                  if (b =? Ch.backslash) && (u =? 117) then
                    match decode_uXXXX g1 g2 g3 g4 with
                    | None => Malformed
                    | Some uni2 =>
                      if is_low_surrogate uni2
                      then scanstring r3
                             (65536 + ((uni - 55296) * 1024 + (uni2 - 56320)) :: acc)
                      else scanstring r2 (uni :: acc)
                    end
                  else scanstring r2 (uni :: acc)
                | _ => scanstring r2 (uni :: acc)
                end
              else scanstring r2 (uni :: acc)
            end
          | _ => Malformed
          end
        else
          match backslash_escape e with
          | Some ch => scanstring r1 (ch :: acc)
          | None => Malformed
          end
      end
    else if c <? 32 then Malformed
    else scanstring r (c :: acc)
  end.

(** The longest run of ASCII digits at the start of [s], and the rest. *)
Fixpoint span_digits (s : str) : str * str :=
  match s with
  | [] => ([], [])
  | c :: r =>
    if is_digit c then let '(ds, rest) := span_digits r in (c :: ds, rest)
    else ([], s)
  end.

(** Value of a run of decimal digits. *)
Definition digits_value (ds : str) : Z :=
  foldl (fun acc d => (acc * 10 + Z.of_N (d - 48))%Z) 0%Z ds.

(** The integer part of a number: a single 0, or a digit 1-9 and the digits
    that follow it. *)
Definition scan_integer (s : str) : option (str * str) :=
  match s with
  | [] => None
  | d :: r =>
    if is_digit d then
      if d =? Ch.zero then Some ([d], r)
      else let '(ds, rest) := span_digits r in Some (d :: ds, rest)
    else None
  end.

(** The optional fraction: a dot and at least one digit; otherwise nothing
    is read. *)
Definition scan_fraction (s : str) : str * str :=
  match s with
  | [] => ([], s)
  | c :: r =>
    if c =? Ch.dot then
      match span_digits r with
      | ([], _) => ([], s)
      | (ds, rest) => (c :: ds, rest)
      end
    else ([], s)
  end.

(** The optional exponent: e or E, an optional sign, at least one digit;
    otherwise nothing is read. *)
Definition scan_exponent (s : str) : str * str :=
  match s with
  | [] => ([], s)
  | c :: r =>
    if (c =? 101) || (c =? 69) then
      let '(sign, r') :=
        match r with
        | g :: t => if (g =? Ch.plus) || (g =? Ch.minus) then ([g], t) else ([], r)
        | [] => ([], r)
        end in
      match span_digits r' with
      | ([], _) => ([], s)
      | (ds, rest) => (c :: sign ++ ds, rest)
      end
    else ([], s)
  end.

(** [int(numstr)] refuses a literal of more than 640 digits when a limit is
    set and the literal has more digits than the limit allows. *)
Definition exceeds_int_max_str_digits (lim : Limits) (int_digits : str) : bool :=
  Nat.ltb 640 (length int_digits)
  && Nat.ltb 0 (int_max_str_digits lim)
  && Nat.ltb (int_max_str_digits lim) (length int_digits).

(** The number grammar of the scanner: an optional minus sign, the integer
    part, an optional fraction, an optional exponent.  A number without
    fraction and exponent is an integer, converted by [int], which raises
    [ValueError] for a literal over the limit; any other number is a
    float. *)
Definition match_number (lim : Limits) (s : str) : scan json :=
  let '(neg, s1) :=
    match s with
    | c :: r => if c =? Ch.minus then (true, r) else (false, s)
    | [] => (false, s)
    end in
  match scan_integer s1 with
  | None => Malformed
  | Some (int_digits, r1) =>
    let '(frac, r2) := scan_fraction r1 in
    let '(expo, r3) := scan_exponent r2 in
    let sign := if neg then [Ch.minus] else [] in
    match frac, expo with
    | [], [] =>
      if exceeds_int_max_str_digits lim int_digits then Failed ValueError
      else
        Scanned (JInt (if neg then - digits_value int_digits
                       else digits_value int_digits)%Z) r3
    | _, _ => Scanned (JFloat (sign ++ int_digits ++ frac ++ expo)) r3
    end
  end.

(** [s[idx:idx+len(word)] == word]: the rest after [word], if [s] starts
    with it. *)
Definition after_word (word : string) (s : str) : option str :=
  if startswith (py word) s then Some (drop (length (py word)) s) else None.

(** The scanner of the decoder: [scan_once] with [JSONArray] and
    [JSONObject].  Entering an array or an object takes one level of the
    recursion the interpreter still allows ([depth]); with none left the
    scanner raises [RecursionError].  [fuel] bounds the number of nested
    calls of the model and never runs out (see [json_loads_fuel]). *)
Fixpoint scan_once (lim : Limits) (fuel depth : nat) (s : str) : scan json :=
  match fuel with
  | O => NoFuel
  | S fuel =>
    match s with
    | [] => Malformed
    | c :: r =>
      if c =? Ch.quote then scan_map JStr (scanstring r [])
      else if c =? Ch.lbrace then
        match depth with
        | O => Failed RecursionError
        | S depth =>
          match skip_ws r with
          | c' :: r' =>
            if c' =? Ch.rbrace then Scanned (JDict []) r'
            else scan_map (fun pairs => JDict (dict_of_pairs pairs))
                          (object_items lim fuel depth (skip_ws r) [])
          | [] => Malformed
          end
        end
      else if c =? Ch.lbracket then
        match depth with
        | O => Failed RecursionError
        | S depth =>
          match skip_ws r with
          | c' :: r' =>
            if c' =? Ch.rbracket then Scanned (JList []) r'
            else scan_map JList (array_items lim fuel depth (skip_ws r) [])
          | [] => Malformed
          end
        end
      else
        match after_word "null" s, after_word "true" s, after_word "false" s with
        | Some rest, _, _ => Scanned JNull rest
        | _, Some rest, _ => Scanned (JBool true) rest
        | _, _, Some rest => Scanned (JBool false) rest
        | None, None, None =>
          match after_word "NaN" s, after_word "Infinity" s, after_word "-Infinity" s with
          | Some rest, _, _ => Scanned (JFloat (py "NaN")) rest
          | _, Some rest, _ => Scanned (JFloat (py "Infinity")) rest
          | _, _, Some rest => Scanned (JFloat (py "-Infinity")) rest
          | None, None, None => match_number lim s
          end
        end
    end
  end
with array_items (lim : Limits) (fuel depth : nat) (s : str) (acc : list json)
    : scan (list json) :=
  match fuel with
  | O => NoFuel
  | S fuel =>
    match scan_once lim fuel depth s with
    | Scanned v r =>
      match skip_ws r with
      | c :: r' =>
        if c =? Ch.comma then array_items lim fuel depth (skip_ws r') (v :: acc)
        else if c =? Ch.rbracket then Scanned (reverse (v :: acc)) r'
        else Malformed
      | [] => Malformed
      end
    | Malformed => Malformed
    | Failed e => Failed e
    | NoFuel => NoFuel
    end
  end
with object_items (lim : Limits) (fuel depth : nat) (s : str) (acc : list (str * json))
    : scan (list (str * json)) :=
  match fuel with
  | O => NoFuel
  | S fuel =>
    match s with
    | [] => Malformed
    | q :: r =>
      if q =? Ch.quote then
        match scanstring r [] with
        | Scanned key r1 =>
          match skip_ws r1 with
          | c :: r2 =>
            if c =? Ch.colon then
              match scan_once lim fuel depth (skip_ws r2) with
              | Scanned v r3 =>
                match skip_ws r3 with
                | c' :: r4 =>
                  if c' =? Ch.comma
                  then object_items lim fuel depth (skip_ws r4) ((key, v) :: acc)
                  else if c' =? Ch.rbrace then Scanned (reverse ((key, v) :: acc)) r4
                  else Malformed
                | [] => Malformed
                end
              | Malformed => Malformed
              | Failed e => Failed e
              | NoFuel => NoFuel
              end
            else Malformed
          | [] => Malformed
          end
        | Malformed => Malformed
        | Failed e => Failed e
        | NoFuel => NoFuel
        end
      else Malformed
    end
  end.

(** Fuel that always suffices for a text (see [json_loads_fuel]). *)
Definition fuel_for (s : str) : nat := S (2 * length s).

(** [json.loads(s)] for a [str] argument: one value, surrounded by optional
    whitespace; anything else raises [JSONDecodeError].  An integer literal
    over the limit raises [ValueError] and nesting deeper than the
    interpreter allows raises [RecursionError], as soon as the scanner
    meets them. *)
Definition json_loads (lim : Limits) (s : str) : result json :=
  if startswith [65279] s then Raise JSONDecodeError
  else
    match scan_once lim (fuel_for s) (recursion_limit lim) (skip_ws s) with
    | Scanned v rest =>
      match skip_ws rest with
      | [] => Ok v
      | _ :: _ => Raise JSONDecodeError
      end
    | Failed e => Raise e
    | Malformed | NoFuel => Raise JSONDecodeError
    end.

(** ** ResponseValidator: [LLMClient.validate_json_output] *)

Definition fence_json : str := py "```json".
Definition fence : str := py "```".

(** The repair of the start: the text from its first opening bracket on. *)
Definition from_first_bracket (json_str : str) : result str :=
  if negb (startswith [Ch.lbracket] json_str) then
    match find Ch.lbracket json_str with
    | Some start_index => Ok (drop start_index json_str)
    | None => Raise JSONDecodeError
    end
  else Ok json_str.

(** The repair of the end: the text up to its last closing bracket. *)
Definition to_last_bracket (json_str : str) : result str :=
  if negb (endswith [Ch.rbracket] json_str) then
    match rfind Ch.rbracket json_str with
    | Some end_index => Ok (take (end_index + 1) json_str)
    | None => Raise JSONDecodeError
    end
  else Ok json_str.

(** The test of the decoded value: a dictionary is wrapped in a list, a list
    is returned, anything else raises [TypeError]. *)
Definition check_shape (data : json) : result (list json) :=
  match data with
  | JDict _ => Ok [data]
  | JList l => Ok l
  | _ => Raise TypeError
  end.

(** [LLMClient.validate_json_output], run under the limits [lim]; a
    [JSONDecodeError] of [json.loads] is logged and raised again, any other
    exception of [json.loads] passes through. *)
Definition validate_json_output (lim : Limits) (json_str : str) : result (list json) :=
  if bool_decide (json_str = []) then Ok []
  else
    let json_str :=
      if startswith fence_json json_str then strip (drop (length fence_json) json_str)
      else if startswith fence json_str then strip (drop (length fence) json_str)
      else json_str in
    let json_str :=
      if endswith fence json_str
      then strip (take (length json_str - length fence) json_str)
      else json_str in
    json_str ← from_first_bracket json_str;
    json_str ← to_last_bracket json_str;
    data ← json_loads lim json_str;
    check_shape data.

(** ** The outside world: file system and recognizer API

    What the program reads from its environment is collected in [Env]; a run
    is a function of it.  Each field stands for one external call made by the
    source. *)

(** The token counts of [response.usage_metadata]. *)
Record ApiUsage : Type := {
  api_prompt_token_count : Z;
  api_candidates_token_count : Z;
  api_total_token_count : Z;
}.

(** The parts of a [generate_content] response that the client inspects. *)
Record ApiResponse : Type := {
  block_reason : option str;      (* response.prompt_feedback.block_reason *)
  has_content_parts : bool;       (* candidates and candidates[0].content.parts *)
  response_text : option str;     (* response.text; None: the value None *)
  api_usage_metadata : option ApiUsage;
}.

(** What is sent to the model after the prompt parts. *)
Inductive content : Type :=
| ImageContent (image_data : str)
| TextContent (text_data : str).

Record Env : Type := {
  (* the interpreter *)
  limits : Limits;
  (* pathlib / open *)
  is_dir : str -> bool;
  glob : str -> str -> list str;          (* directory.glob(pattern), in enumeration order *)
  is_file : str -> bool;
  exists_ : str -> result bool;           (* Path.exists(); raises an OSError that it
                                             does not take for a missing path *)
  read_bytes : str -> result str;         (* open(p, 'rb').read() *)
  read_text : str -> str -> result str;   (* open(p, 'r', encoding=...).read() *)
  guess_type : str -> option str;         (* mimetypes.guess_type(p)[0] *)
  (* PIL and the generative-AI client *)
  image_open : str -> result unit;        (* Image.open(BytesIO(image_data)) *)
  count_tokens : content -> result Z;     (* client.models.count_tokens(...).total_tokens *)
  count_text_tokens : str -> result Z;    (* count_tokens(contents=[response_text]) *)
  generate_content : content -> result ApiResponse;
  (* pandas / openpyxl *)
  make_dataframe : list json -> result unit;   (* pd.DataFrame(data) *)
  to_excel : list json -> str -> result unit;  (* df.to_excel(output_path, ...) *)
  (* the checkpoint file *)
  checkpoint_writable : bool;             (* open(CHECKPOINT_FILE, "w") and the dump succeed *)
  (* the process pool *)
  cpu_count : positive;                   (* multiprocessing.cpu_count() *)
  worker_exit : str -> result unit;       (* Raise: the worker given this file dies *)
  (* the checkpoint file after racing workers: given what it held before
     and the paths of the workers that update it, in submission order *)
  racy_checkpoint : option (list str) -> list str -> option (list str);
}.

(** ** pathlib *)

(** [Path.name]: the final path component. *)
Definition name (p : str) : str :=
  match rfind Ch.slash p with
  | Some i => drop (i + 1) p
  | None => p
  end.

(** [Path.suffix]: the last dot-separated part of the name, with its dot;
    empty when the only dot is the first or the last character. *)
Definition suffix (p : str) : str :=
  let name := name p in
  match rfind Ch.dot name with
  | Some i => if bool_decide (0 < i < length name - 1)%nat then drop i name else []
  | None => []
  end.

(** ** config.py *)

(** One entry of [MODEL_PRICING]; a rate that is not listed is [None]. *)
Record Pricing : Type := {
  input_cost_per_million_tokens : option Q;
  output_cost_per_million_tokens : option Q;
  thinking_cost_per_million_tokens : option Q;
}.

(** [MODEL_PRICING]: the entry under the key DEFAULT, which config.py always
    defines, and the entries of the listed models. *)
Record PricingTable : Type := {
  default_pricing : Pricing;
  listed_pricing : gmap str Pricing;
}.

Record Config : Type := {
  CALCULATE_COST : bool;
  LOG_LLM_THINKING : bool;
  ENABLE_CHECKPOINTING : bool;
  RESUME_FROM_CHECKPOINT : bool;
  THINKING_BUDGET : Z;
  MODEL_PRICING : PricingTable;
  GOOGLE_MODEL : str;                     (* LLMClient.model_name *)
}.

(** ** InputHandler *)

Record FileData : Type := {
  fd_type : str;
  fd_content : str;
  fd_filename : str;
  fd_mime_type : str;
}.

Definition supported_image_extensions : list str :=
  py <$> [".jpg"; ".jpeg"; ".png"; ".gif"; ".bmp"; ".tiff"; ".webp"]%string.

Definition supported_extensions : list str :=
  py <$> [".jpg"; ".jpeg"; ".png"; ".gif"; ".bmp"; ".tiff"; ".webp"; ".txt"]%string.

(** [x in l] on a list of strings. *)
Definition str_in (x : str) (l : list str) : bool := bool_decide (x ∈ l).

(** [InputHandler.read_file] *)
Definition read_file (env : Env) (file_path : str) : result FileData :=
  found ← exists_ env file_path;
  if negb found then Raise FileNotFoundError
  else
    let ext := lower (suffix file_path) in
    if str_in ext supported_image_extensions then
      let mime_type :=
        match guess_type env file_path with
        | Some m => if startswith (py "image/") m then m else py "image/jpeg"
        | None => py "image/jpeg"
        end in
      image_data ← read_bytes env file_path;
      Ok {| fd_type := py "image"; fd_content := image_data;
            fd_filename := name file_path; fd_mime_type := mime_type |}
    else if str_eqb ext (py ".txt") then
      match read_text env file_path (py "utf-8") with
      | Ok text_content =>
        Ok {| fd_type := py "text"; fd_content := text_content;
              fd_filename := name file_path; fd_mime_type := py "text/plain" |}
      | Raise UnicodeDecodeError =>
        match read_text env file_path (py "cp1251") with
        | Ok text_content =>
          Ok {| fd_type := py "text"; fd_content := text_content;
                fd_filename := name file_path; fd_mime_type := py "text/plain" |}
        | Raise _ => Raise ValueError
        end
      | Raise e => Raise e
      end
    else Raise ValueError.

(** [InputHandler.get_files_from_directory] *)
Definition get_files_from_directory (env : Env) (directory_path : str) (recursive : bool)
    : result (list str) :=
  if negb (is_dir env directory_path) then Raise NotADirectoryError
  else
    let pattern := if recursive then py "**/*" else py "*" in
    Ok (List.filter
          (fun f => is_file env f && str_in (lower (suffix f)) supported_extensions)
          (glob env directory_path pattern)).

(** ** LLMClient *)

(** The usage dictionary built by [_generate_content].  The three keys that
    only one of its two branches sets are optional. *)
Record UsageMetadata : Type := {
  prompt_token_count : Z;
  candidates_token_count : Z;
  total_token_count : Z;
  thinking_enabled : bool;
  thinking_budget : Z;
  thinking_tokens_used : option Z;
  thinking_budget_exceeded : option bool;
  is_estimated : option bool;
}.

(** The dictionary returned by [process_image] and [process_text].  An
    error message is never empty, so [error] is truthy exactly when it is
    [Some]. *)
Record LLMResponse : Type := {
  text : str;
  usage_metadata : option UsageMetadata;
  error : option str;
}.

(** [MODEL_PRICING.get(k)] *)
Definition pricing_lookup (t : PricingTable) (k : str) : option Pricing :=
  if str_eqb k (py "DEFAULT") then Some (default_pricing t) else listed_pricing t !! k.

(** [LLMClient.get_model_pricing] *)
Definition get_model_pricing (cfg : Config) : Pricing :=
  default (default_pricing (MODEL_PRICING cfg))
          (pricing_lookup (MODEL_PRICING cfg) (GOOGLE_MODEL cfg)).

(** The usage dictionary of a response: taken from the usage metadata the
    API reports, or, without it, estimated by counting the tokens of the
    response text ([prompt_token_count] is the count taken before the call). *)
Definition response_usage (cfg : Config) (env : Env) (log_thinking : bool)
    (prompt_token_count : Z) (response : ApiResponse) (response_text : str)
    : option UsageMetadata :=
  let thinking_budget := if log_thinking then THINKING_BUDGET cfg else 0%Z in
  match api_usage_metadata response with
  | Some u =>
    let prompt_token_count := api_prompt_token_count u in
    let candidates_token_count := api_candidates_token_count u in
    let total_token_count := api_total_token_count u in
    let thinking_tokens_used :=
      (0 `max` (total_token_count - prompt_token_count - candidates_token_count))%Z in
    Some {| prompt_token_count := prompt_token_count;
            candidates_token_count := candidates_token_count;
            total_token_count := total_token_count;
            thinking_enabled := log_thinking;
            thinking_budget := if log_thinking then thinking_budget else 0%Z;
            thinking_tokens_used := Some (if log_thinking then thinking_tokens_used else 0%Z);
            thinking_budget_exceeded :=
              Some (if log_thinking
                    then bool_decide (thinking_tokens_used > thinking_budget)%Z
                    else false);
            is_estimated := None |}
  | None =>
    match count_text_tokens env response_text with
    | Ok response_tokens =>
      Some {| prompt_token_count := prompt_token_count;
              candidates_token_count := response_tokens;
              total_token_count := (prompt_token_count + response_tokens)%Z;
              thinking_enabled := log_thinking;
              thinking_budget := if log_thinking then thinking_budget else 0%Z;
              thinking_tokens_used := None;
              thinking_budget_exceeded := None;
              is_estimated := Some true |}
    | Raise _ => None
    end
  end.

(** The body of the outer [try] of [LLMClient._generate_content].  The
    response type of the SDK always has the attributes the code tests for
    with [hasattr]; calling [strip] on a text that is None raises
    [AttributeError]. *)
Definition generate_content_body (cfg : Config) (env : Env) (c : content)
    (log_thinking : bool) : result LLMResponse :=
  let prompt_token_count :=
    match count_tokens env c with
    | Ok n => n
    | Raise _ => 0%Z
    end in
  response ← generate_content env c;
  '(response_text, error_message) ←
    match block_reason response with
    | Some _ => Ok ([], Some (py "Content blocked."))
    | None =>
      if negb (has_content_parts response) then
        match response_text response with
        | Some t =>
          let response_text := strip t in
          if bool_decide (response_text = [])
          then Ok (response_text, Some (py "LLM response is empty or has no content parts."))
          else Ok (response_text, None)
        | None => Raise AttributeError
        end
      else
        match response_text response with
        | Some t => Ok (strip t, None)
        | None => Raise AttributeError
        end
    end;
  let usage_metadata :=
    response_usage cfg env log_thinking prompt_token_count response response_text in
  Ok {| text := response_text; usage_metadata := usage_metadata; error := error_message |}.

(** [LLMClient._generate_content]: any exception becomes an error response. *)
Definition _generate_content (cfg : Config) (env : Env) (c : content)
    (log_thinking : bool) : LLMResponse :=
  match generate_content_body cfg env c log_thinking with
  | Ok r => r
  | Raise _ =>
    {| text := []; usage_metadata := None; error := Some (py "API call failed") |}
  end.

(** [LLMClient.process_image]; building the prompt parts has no modelled
    effect. *)
Definition process_image (cfg : Config) (env : Env) (image_data mime_type : str)
    (log_thinking : bool) : LLMResponse :=
  match image_open env image_data with
  | Raise _ =>
    {| text := []; usage_metadata := None; error := Some (py "Image conversion failed") |}
  | Ok _ => _generate_content cfg env (ImageContent image_data) log_thinking
  end.

(** [LLMClient.process_text] *)
Definition process_text (cfg : Config) (env : Env) (text_data : str)
    (log_thinking : bool) : LLMResponse :=
  _generate_content cfg env (TextContent text_data) log_thinking.

(** ** BaseExtractor: state *)

(** The value stored under the key max_workers of the run metadata. *)
Inductive max_workers_entry : Type :=
| MaxWorkersNA                               (* the string N/A: not a parallel run *)
| MaxWorkers (n : option positive).          (* the argument; None: auto-detect *)

(** [run_metadata], without its time stamps.  The keys that only
    [process_directory] sets are optional. *)
Record RunMetadata : Type := {
  total_files : nat;
  successful_files : nat;
  failed_files : nat;
  model : str;
  recursive_processing : option bool;
  parallel_processing : option bool;
  max_workers : option max_workers_entry;
}.

Record FileStatus : Type := {
  successful : list str;
  failed : list str;
  skipped : list str;
  in_progress : gset str;
}.

(** The attributes of a [BaseExtractor] that change during a run;
    [all_data] is [output_manager.all_data]. *)
Record Extractor : Type := {
  total_cost : Q;
  usage_metadata_list : list UsageMetadata;
  run_metadata : RunMetadata;
  processed_files : gset str;
  file_status : FileStatus;
  all_data : list json;
}.

(** The extractor together with the checkpoint file on disk: the JSON
    array of paths it holds, or [None] when there is no file or none that
    holds a JSON array, which the code treats alike. *)
Record World : Type := {
  self : Extractor;
  checkpoint_file : option (list str);
}.

(** [BaseExtractor.__init__] *)
Definition new_extractor (cfg : Config) : Extractor :=
  {| total_cost := 0;
     usage_metadata_list := [];
     run_metadata :=
       {| total_files := 0; successful_files := 0; failed_files := 0;
          model := GOOGLE_MODEL cfg;
          recursive_processing := None; parallel_processing := None;
          max_workers := None |};
     processed_files := ∅;
     file_status := {| successful := []; failed := []; skipped := []; in_progress := ∅ |};
     all_data := [] |}.

(** *** Field updates *)

Definition set_total_cost (c : Q) (e : Extractor) : Extractor :=
  {| total_cost := c; usage_metadata_list := usage_metadata_list e;
     run_metadata := run_metadata e; processed_files := processed_files e;
     file_status := file_status e; all_data := all_data e |}.

Definition set_usage_metadata_list (l : list UsageMetadata) (e : Extractor) : Extractor :=
  {| total_cost := total_cost e; usage_metadata_list := l;
     run_metadata := run_metadata e; processed_files := processed_files e;
     file_status := file_status e; all_data := all_data e |}.

Definition set_run_metadata (m : RunMetadata) (e : Extractor) : Extractor :=
  {| total_cost := total_cost e; usage_metadata_list := usage_metadata_list e;
     run_metadata := m; processed_files := processed_files e;
     file_status := file_status e; all_data := all_data e |}.

Definition set_processed_files (s : gset str) (e : Extractor) : Extractor :=
  {| total_cost := total_cost e; usage_metadata_list := usage_metadata_list e;
     run_metadata := run_metadata e; processed_files := s;
     file_status := file_status e; all_data := all_data e |}.

Definition set_file_status (f : FileStatus) (e : Extractor) : Extractor :=
  {| total_cost := total_cost e; usage_metadata_list := usage_metadata_list e;
     run_metadata := run_metadata e; processed_files := processed_files e;
     file_status := f; all_data := all_data e |}.

Definition set_all_data (d : list json) (e : Extractor) : Extractor :=
  {| total_cost := total_cost e; usage_metadata_list := usage_metadata_list e;
     run_metadata := run_metadata e; processed_files := processed_files e;
     file_status := file_status e; all_data := d |}.

Definition add_total_files (m : RunMetadata) : RunMetadata :=
  {| total_files := total_files m + 1; successful_files := successful_files m;
     failed_files := failed_files m; model := model m;
     recursive_processing := recursive_processing m;
     parallel_processing := parallel_processing m; max_workers := max_workers m |}.

Definition add_successful_files (m : RunMetadata) : RunMetadata :=
  {| total_files := total_files m; successful_files := successful_files m + 1;
     failed_files := failed_files m; model := model m;
     recursive_processing := recursive_processing m;
     parallel_processing := parallel_processing m; max_workers := max_workers m |}.

Definition add_failed_files (m : RunMetadata) : RunMetadata :=
  {| total_files := total_files m; successful_files := successful_files m;
     failed_files := failed_files m + 1; model := model m;
     recursive_processing := recursive_processing m;
     parallel_processing := parallel_processing m; max_workers := max_workers m |}.

Definition append_successful (p : str) (f : FileStatus) : FileStatus :=
  {| successful := successful f ++ [p]; failed := failed f;
     skipped := skipped f; in_progress := in_progress f |}.

Definition append_failed (p : str) (f : FileStatus) : FileStatus :=
  {| successful := successful f; failed := failed f ++ [p];
     skipped := skipped f; in_progress := in_progress f |}.

Definition append_skipped (p : str) (f : FileStatus) : FileStatus :=
  {| successful := successful f; failed := failed f;
     skipped := skipped f ++ [p]; in_progress := in_progress f |}.

(** ** Computations on the world that may raise *)

Definition M (A : Type) : Type := World -> result A * World.

#[global] Instance M_ret : MRet M := fun A a w => (Ok a, w).

#[global] Instance M_bind : MBind M := fun A B k m w =>
  match m w with
  | (Ok a, w') => k a w'
  | (Raise e, w') => (Raise e, w')
  end.

(** A call of a function that returns or raises without touching the world. *)
Definition call {A} (r : result A) : M A := fun w => (r, w).

(** [try: body except Exception as e: handler(e)] *)
Definition try_except {A} (body : M A) (handler : exn -> M A) : M A := fun w =>
  match body w with
  | (Ok a, w') => (Ok a, w')
  | (Raise e, w') => handler e w'
  end.

Definition get_self : M Extractor := fun w => (Ok (self w), w).

Definition update_self (f : Extractor -> Extractor) : M unit := fun w =>
  (Ok tt, {| self := f (self w); checkpoint_file := checkpoint_file w |}).

Definition update_run_metadata (f : RunMetadata -> RunMetadata) : M unit :=
  update_self (fun e => set_run_metadata (f (run_metadata e)) e).

Definition update_file_status (f : FileStatus -> FileStatus) : M unit :=
  update_self (fun e => set_file_status (f (file_status e)) e).

(** [self.total_cost += call_cost] *)
Definition add_total_cost (call_cost : Q) : M unit :=
  update_self (fun e => set_total_cost (total_cost e + call_cost) e).

(** ** OutputManager *)

(** [OutputManager.save_to_excel]: [Some tt] stands for the path of the
    written file. *)
Definition save_to_excel (env : Env) (data : list json) (filename : str) : M (option unit) :=
  if bool_decide (data = []) then mret None
  else
    match make_dataframe env data with
    | Raise _ => mret None
    | Ok _ =>
      match to_excel env data filename with
      | Ok _ =>
        update_self (fun e => set_all_data (all_data e ++ data) e);;
        mret (Some tt)
      | Raise _ => mret None
      end
    end.

(** [OutputManager.get_combined_dataframe]: the records of the data frame
    built from [all_data]; empty when there is no data or the data frame
    cannot be built. *)
Definition get_combined_dataframe (env : Env) : M (list json) :=
  e ← get_self;
  if bool_decide (all_data e = []) then mret []
  else
    match make_dataframe env (all_data e) with
    | Ok _ => mret (all_data e)
    | Raise _ => mret []
    end.

(** ** BaseExtractor: cost and checkpoint *)

(** [a > b] on costs. *)
Definition Qgtb (a b : Q) : bool := negb (Qle_bool a b).

(** [(tokens / 1_000_000) * rate] *)
Definition token_cost (tokens : Z) (rate : Q) : Q :=
  (inject_Z tokens / 1000000) * rate.

(** [BaseExtractor._calculate_and_log_cost] *)
Definition _calculate_and_log_cost (cfg : Config) (usage_metadata : option UsageMetadata)
    : M Q :=
  match CALCULATE_COST cfg, usage_metadata with
  | true, Some usage_metadata =>
    try_except
      (let pricing := get_model_pricing cfg in
       let input_tokens := prompt_token_count usage_metadata in
       let output_tokens := candidates_token_count usage_metadata in
       let thinking_enabled := thinking_enabled usage_metadata in
       let thinking_tokens_used := default 0%Z (thinking_tokens_used usage_metadata) in
       let input_cost :=
         token_cost input_tokens (default 0%Q (input_cost_per_million_tokens pricing)) in
       let output_cost :=
         token_cost output_tokens (default 0%Q (output_cost_per_million_tokens pricing)) in
       let thinking_cost :=
         if thinking_enabled && bool_decide (thinking_tokens_used > 0)%Z
         then token_cost thinking_tokens_used
                (default 0%Q (thinking_cost_per_million_tokens pricing))
         else 0%Q in
       let total_call_cost := (input_cost + output_cost + thinking_cost)%Q in
       update_self (fun e =>
         set_usage_metadata_list (usage_metadata_list e ++ [usage_metadata]) e);;
       mret total_call_cost)
      (fun _ => mret 0%Q)
  | _, _ => mret 0%Q
  end.

(** [with open(CHECKPOINT_FILE, "w") as f: json.dump(paths, f)] *)
Definition write_checkpoint (env : Env) (paths : list str) : M unit := fun w =>
  if checkpoint_writable env
  then (Ok tt, {| self := self w; checkpoint_file := Some paths |})
  else (Raise OSError, w).

(** [BaseExtractor._save_checkpoint] *)
Definition _save_checkpoint (cfg : Config) (env : Env) : M unit :=
  if ENABLE_CHECKPOINTING cfg then
    try_except
      (e ← get_self; write_checkpoint env (elements (processed_files e)))
      (fun _ => mret tt)
  else mret tt.

(** [BaseExtractor._load_checkpoint] *)
Definition _load_checkpoint (cfg : Config) : M unit := fun w =>
  if RESUME_FROM_CHECKPOINT cfg then
    match checkpoint_file w with
    | Some paths =>
      (Ok tt, {| self := set_processed_files (list_to_set paths) (self w);
                 checkpoint_file := checkpoint_file w |})
    | None => (Ok tt, w)
    end
  else (Ok tt, w).

(** ** BaseExtractor: one file *)

(** [raise e] *)
Definition raise {A} (e : exn) : M A := fun w => (Raise e, w).

(** The two statements every failure path of [process_file] runs. *)
Definition mark_failed (file_path : str) : M unit :=
  update_run_metadata add_failed_files;;
  update_file_status (append_failed file_path).

(** The recognizer call chosen by the type of the file; [None] is the
    branch for any other type. *)
Definition recognize (cfg : Config) (env : Env) (file_data : FileData) : option LLMResponse :=
  if str_eqb (fd_type file_data) (py "image") then
    Some (process_image cfg env (fd_content file_data) (fd_mime_type file_data)
            (LOG_LLM_THINKING cfg))
  else if str_eqb (fd_type file_data) (py "text") then
    Some (process_text cfg env (fd_content file_data) (LOG_LLM_THINKING cfg))
  else None.

(** The [except] clauses of [process_file], first match first.  The last
    clause reads the local variable usage_metadata if it is bound:
    [bound_usage] is [None] while it is not, and its value afterwards. *)
Definition process_file_handlers (cfg : Config) (file_path : str)
    (bound_usage : option (option UsageMetadata)) (e : exn) : M (option (list json)) :=
  if is_instance e FileNotFoundError then mark_failed file_path;; mret None
  else if is_instance e ValueError then mark_failed file_path;; mret None
  else if is_instance e JSONDecodeError then mark_failed file_path;; mret None
  else if is_instance e TypeError then mark_failed file_path;; mret None
  else
    mark_failed file_path;;
    match bound_usage with
    | Some (Some usage_metadata) =>
      call_cost ← _calculate_and_log_cost cfg (Some usage_metadata);
      add_total_cost call_cost
    | _ => mret tt
    end;;
    mret None.

(** [BaseExtractor.process_file].  The [try] block is split where
    usage_metadata is bound, so that each part is given the handlers with the
    binding they would see; a file dictionary is never empty, so the test
    [if not file_data] is always false. *)
Definition process_file (cfg : Config) (env : Env) (file_path : str)
    : M (option (list json)) :=
  update_run_metadata add_total_files;;
  try_except
    (file_data ← call (read_file env file_path);
     match recognize cfg env file_data with
     | None => mark_failed file_path;; mret None
     | Some llm_response =>
       match error llm_response with
       | Some _ =>
         call_cost ← _calculate_and_log_cost cfg (usage_metadata llm_response);
         add_total_cost call_cost;;
         mark_failed file_path;;
         mret None
       | None =>
         let response_text := text llm_response in
         let usage_metadata := usage_metadata llm_response in
         try_except
           (call_cost ← _calculate_and_log_cost cfg usage_metadata;
            add_total_cost call_cost;;
            records ← call (validate_json_output (limits env) response_text);
            update_run_metadata add_successful_files;;
            update_file_status (append_successful file_path);;
            save_to_excel env records (fd_filename file_data);;
            update_self (fun e => set_processed_files ({[file_path]} ∪ processed_files e) e);;
            _save_checkpoint cfg env;;
            mret (Some records))
           (process_file_handlers cfg file_path (Some usage_metadata))
       end
     end)
    (process_file_handlers cfg file_path None).

(** ** BaseExtractor: the worker of the parallel mode *)

Inductive status : Type :=
| success
| failed_status.

(** The tuple (results, cost, status, usage_metadata) a worker returns. *)
Definition WorkerResult : Type :=
  option (list json) * Q * status * option UsageMetadata.

(** The cost computed by the worker for a response with usage metadata. *)
Definition worker_file_cost (cfg : Config) (usage_metadata : UsageMetadata) : Q :=
  let pricing := get_model_pricing cfg in
  let input_tokens := prompt_token_count usage_metadata in
  let output_tokens := candidates_token_count usage_metadata in
  let thinking_enabled := thinking_enabled usage_metadata in
  let thinking_tokens_used :=
    if thinking_enabled then default 0%Z (thinking_tokens_used usage_metadata) else 0%Z in
  let input_cost :=
    token_cost input_tokens (default 0%Q (input_cost_per_million_tokens pricing)) in
  let output_cost :=
    token_cost output_tokens (default 0%Q (output_cost_per_million_tokens pricing)) in
  let thinking_cost :=
    if thinking_enabled
    then token_cost thinking_tokens_used
           (default 0%Q (thinking_cost_per_million_tokens pricing))
    else 0%Q in
  (input_cost + output_cost + thinking_cost)%Q.

(** The checkpoint update of a worker: read the list on disk (empty if the
    file is missing), add the path if it is new, write the list back.  A
    failed write is logged and leaves the file as it was. *)
Definition worker_checkpoint_update (env : Env) (file_path : str)
    (on_disk : option (list str)) : option (list str) :=
  let processed_files := default [] on_disk in
  let processed_files :=
    if str_in file_path processed_files then processed_files
    else processed_files ++ [file_path] in
  if checkpoint_writable env then Some processed_files else on_disk.

(** [BaseExtractor._process_file_wrapper]: a static method run in a worker
    process.  It sees no extractor; its only effect is on the checkpoint
    file.  Both of its [except] clauses catch every exception and return a
    failed tuple built from the locals file_cost and usage_metadata. *)
Definition _process_file_wrapper (cfg : Config) (env : Env) (file_path : str)
    (on_disk : option (list str)) : WorkerResult * option (list str) :=
  match read_file env file_path with
  | Raise _ => ((None, 0%Q, failed_status, None), on_disk)
  | Ok file_data =>
    match recognize cfg env file_data with
    | None => ((None, 0%Q, failed_status, None), on_disk)
    | Some llm_response =>
      match error llm_response with
      | Some _ => ((None, 0%Q, failed_status, usage_metadata llm_response), on_disk)
      | None =>
        let usage_metadata := usage_metadata llm_response in
        let file_cost :=
          match usage_metadata with
          | Some u => worker_file_cost cfg u
          | None => 0%Q
          end in
        match validate_json_output (limits env) (text llm_response) with
        | Raise _ => ((None, file_cost, failed_status, usage_metadata), on_disk)
        | Ok records =>
          let on_disk :=
            if ENABLE_CHECKPOINTING cfg
            then worker_checkpoint_update env file_path on_disk
            else on_disk in
          ((Some records, file_cost, success, usage_metadata), on_disk)
        end
      end
    end
  end.

(** ** BaseExtractor: a directory run *)

(** [executor.submit(self._process_file_wrapper, file_path, ...)]: the future
    holds the tuple the worker returns, or the exception [future.result()]
    raises when the worker died.  The tuple does not depend on the
    checkpoint file; what the workers do to that file is settled when the
    pool is left ([join_workers]). *)
Definition submit (cfg : Config) (env : Env) (file_path : str)
    : M (result WorkerResult) := fun w =>
  match worker_exit env file_path with
  | Raise e => (Ok (Raise e), w)
  | Ok _ => (Ok (Ok (_process_file_wrapper cfg env file_path (checkpoint_file w)).1), w)
  end.

(** The submission loop of the parallel mode. *)
Fixpoint submit_all (cfg : Config) (env : Env) (files : list str)
    : M (list (str * result WorkerResult)) :=
  match files with
  | [] => mret []
  | file_path :: files =>
    e ← get_self;
    if bool_decide (file_path ∈ processed_files e) then
      update_file_status (append_skipped file_path);;
      submit_all cfg env files
    else
      future ← submit cfg env file_path;
      futures ← submit_all cfg env files;
      mret ((file_path, future) :: futures)
  end.

(** What the collection loop does with the tuple of one future. *)
Definition collect_result (env : Env) (file_path : str) (r : WorkerResult) : M unit :=
  let '(result, file_cost, status, usage_metadata) := r in
  match status with
  | success =>
    update_run_metadata add_successful_files;;
    update_file_status (append_successful file_path);;
    match result with
    | Some ((_ :: _) as records) =>
      save_to_excel env records (name file_path);; mret tt
    | _ => mret tt
    end
  | failed_status => mark_failed file_path
  end;;
  (if Qgtb file_cost 0 then add_total_cost file_cost else mret tt);;
  update_run_metadata add_total_files;;
  match usage_metadata with
  | Some u =>
    update_self (fun e => set_usage_metadata_list (usage_metadata_list e ++ [u]) e)
  | None => mret tt
  end.

(** The body of the collection loop for one future. *)
Definition collect (env : Env) (file_path : str) (future : result WorkerResult) : M unit :=
  try_except
    (r ← call future; collect_result env file_path r)
    (fun _ =>
       update_run_metadata add_failed_files;;
       update_run_metadata add_total_files;;
       update_file_status (append_failed file_path)).

Fixpoint collect_all (env : Env) (futures : list (str * result WorkerResult)) : M unit :=
  match futures with
  | [] => mret tt
  | (file_path, future) :: futures =>
    collect env file_path future;;
    collect_all env futures
  end.

(** The paths of the futures that hold a tuple: their workers ran. *)
Definition ran (futures : list (str * result WorkerResult)) : list str :=
  (List.filter (fun f => match f.2 with Ok _ => true | Raise _ => false end) futures).*1.

(** The paths of the futures that hold a success tuple: with checkpointing
    enabled, their workers update the checkpoint file. *)
Definition writers (futures : list (str * result WorkerResult)) : list str :=
  (List.filter (fun f => match f.2 with
                         | Ok (_, _, success, _) => true
                         | _ => false
                         end) futures).*1.

(** The checkpoint file after the workers of the given files have run on
    it one after the other. *)
Fixpoint run_workers (cfg : Config) (env : Env) (files : list str)
    (on_disk : option (list str)) : option (list str) :=
  match files with
  | [] => on_disk
  | file_path :: files =>
    run_workers cfg env files (_process_file_wrapper cfg env file_path on_disk).2
  end.

(** The checkpoint file when the pool is left.  A pool of one process runs
    its workers one after the other, in submission order, and a single
    worker that updates the file has nobody to race with.  Otherwise the
    workers race: a worker releases its lock between reading the file and
    writing it back, and opening the file for writing empties it before the
    lock is taken, so that updates can be lost; the outcome is the
    environment's. *)
Definition pool_checkpoint (cfg : Config) (env : Env) (pool_size : positive)
    (futures : list (str * result WorkerResult)) (on_disk : option (list str))
    : option (list str) :=
  if (pool_size =? 1)%positive || Nat.leb (length (writers futures)) 1
  then run_workers cfg env (ran futures) on_disk
  else if ENABLE_CHECKPOINTING cfg && checkpoint_writable env
       then racy_checkpoint env on_disk (writers futures)
       else on_disk.

(** Leaving the [with] block of the executor: every worker is done. *)
Definition join_workers (cfg : Config) (env : Env) (pool_size : positive)
    (futures : list (str * result WorkerResult)) : M unit := fun w =>
  (Ok tt, {| self := self w;
             checkpoint_file := pool_checkpoint cfg env pool_size futures
                                  (checkpoint_file w) |}).

(** The loop of the sequential mode. *)
Fixpoint sequential_loop (cfg : Config) (env : Env) (files : list str) : M unit :=
  match files with
  | [] => mret tt
  | file_path :: files =>
    e ← get_self;
    (if bool_decide (file_path ∈ processed_files e) then
       update_file_status (append_skipped file_path)
     else
       process_file cfg env file_path;; mret tt);;
    sequential_loop cfg env files
  end.

(** The resets at the start of [process_directory]. *)
Definition reset_run (cfg : Config) (recursive parallel : bool)
    (max_workers : option positive) : M unit :=
  update_self (set_total_cost 0%Q);;
  update_self (set_usage_metadata_list []);;
  update_self (set_run_metadata
    {| total_files := 0; successful_files := 0; failed_files := 0;
       model := GOOGLE_MODEL cfg;
       recursive_processing := Some recursive;
       parallel_processing := Some parallel;
       max_workers := Some (if parallel then MaxWorkers max_workers else MaxWorkersNA) |}).

(** [BaseExtractor.process_directory]; the value returned is the list of
    records of the combined data frame.  The size of the pool, given or
    min(cpu_count, len(files)), has no effect on what is collected, since
    the futures are collected in submission order; it decides whether the
    workers race on the checkpoint file.  Saving the combined data frame and
    generating the report catch their own errors and leave the extractor as
    it is. *)
Definition process_directory (cfg : Config) (env : Env) (directory_path : str)
    (recursive parallel : bool) (max_workers : option positive) : M (list json) :=
  reset_run cfg recursive parallel max_workers;;
  found ← try_except
    (files ← call (get_files_from_directory env directory_path recursive);
     mret (Some files))
    (fun e => if is_instance e NotADirectoryError then mret None else raise e);
  match found with
  | None => mret []
  | Some [] => mret []
  | Some files =>
    _load_checkpoint cfg;;
    (if parallel then
       let max_workers :=
         match max_workers with
         | Some n => n
         | None => Pos.min (cpu_count env) (Pos.of_nat (length files))
         end in
       futures ← submit_all cfg env files;
       collect_all env futures;;
       join_workers cfg env max_workers futures
     else sequential_loop cfg env files);;
    get_combined_dataframe env
  end.

(** ** ReportGenerator *)

(** The dictionary returned by [collect_usage_data]. *)
Record UsageData : Type := {
  total_input_tokens : Z;
  total_output_tokens : Z;
  total_thinking_tokens : Z;
  total_tokens : Z;
  total_cost_usd : Q;
  pricing_per_million : Q * Q * Q;        (* input, output, thinking *)
  usd_to_inr_rate : Q;
}.

(** The four running totals of the loop of [collect_usage_data]: input
    tokens, output tokens, thinking tokens, cost. *)
Definition UsageTotals : Type := Z * Z * Z * Q.

(** One turn of the loop.  A usage dictionary is never empty, so the test
    [if not metadata] is always false. *)
Definition add_usage (pricing : Pricing) (totals : UsageTotals) (metadata : UsageMetadata)
    : UsageTotals :=
  let '(total_input_tokens, total_output_tokens, total_thinking_tokens, total_cost_usd) :=
    totals in
  let input_tokens := prompt_token_count metadata in
  let output_tokens := candidates_token_count metadata in
  let thinking_enabled := thinking_enabled metadata in
  let thinking_tokens_used := default 0%Z (thinking_tokens_used metadata) in
  let counted := thinking_enabled && bool_decide (thinking_tokens_used > 0)%Z in
  let input_cost :=
    token_cost input_tokens (default 0%Q (input_cost_per_million_tokens pricing)) in
  let output_cost :=
    token_cost output_tokens (default 0%Q (output_cost_per_million_tokens pricing)) in
  let thinking_cost :=
    if counted
    then token_cost thinking_tokens_used
           (default 0%Q (thinking_cost_per_million_tokens pricing))
    else 0%Q in
  ((total_input_tokens + input_tokens)%Z,
   (total_output_tokens + output_tokens)%Z,
   (if counted then total_thinking_tokens + thinking_tokens_used
    else total_thinking_tokens)%Z,
   (total_cost_usd + (input_cost + output_cost + thinking_cost))%Q).

(** [ReportGenerator.collect_usage_data].  The pricing is looked up under
    DEFAULT_MODEL, which config.py reads from the environment variable that
    also names the model of the client; USD_TO_INR_RATE is a constant of
    config.py.  The cost is added up in the order of the list, here in
    exact rationals and in the code in floating point: what is stated of it
    below compares sums of the same terms in the same order. *)
Definition collect_usage_data (cfg : Config) (USD_TO_INR_RATE : Q)
    (usage_metadata_list : list UsageMetadata) : UsageData :=
  let model_pricing :=
    default (default_pricing (MODEL_PRICING cfg))
            (pricing_lookup (MODEL_PRICING cfg) (GOOGLE_MODEL cfg)) in
  let '(total_input_tokens, total_output_tokens, total_thinking_tokens, total_cost_usd) :=
    foldl (add_usage model_pricing) (0%Z, 0%Z, 0%Z, 0%Q) usage_metadata_list in
  {| total_input_tokens := total_input_tokens;
     total_output_tokens := total_output_tokens;
     total_thinking_tokens := total_thinking_tokens;
     total_tokens := total_input_tokens + total_output_tokens + total_thinking_tokens;
     total_cost_usd := total_cost_usd;
     pricing_per_million :=
       (default 0%Q (input_cost_per_million_tokens model_pricing),
        default 0%Q (output_cost_per_million_tokens model_pricing),
        default 0%Q (thinking_cost_per_million_tokens model_pricing));
     usd_to_inr_rate := USD_TO_INR_RATE |}.

(** ** app.py *)

(** What the construction of the extractor reads from and does to its
    surroundings. *)
Record Startup : Type := {
  GOOGLE_API_KEY : option str;            (* os.getenv("GOOGLE_API_KEY") *)
  make_client : result unit;              (* genai.Client(api_key=...) *)
  make_output_dir : str -> result unit;   (* output_dir.mkdir(parents=True, exist_ok=True) *)
  make_report_dir : str -> result unit;   (* (output_dir / "reports").mkdir(exist_ok=True) *)
}.

(** [LLMClient.__init__] *)
Definition new_llm_client (s : Startup) : result unit :=
  match GOOGLE_API_KEY s with
  | None | Some [] => Raise ValueError
  | Some _ => make_client s
  end.

(** [MilitaryRecordsExtractor.__init__]: the schema it hands to
    [BaseExtractor.__init__] is never None; the client, the output manager
    and the report generator are built in this order. *)
Definition new_military_records_extractor (cfg : Config) (s : Startup) (output_dir : str)
    : result Extractor :=
  new_llm_client s;;
  make_output_dir s output_dir;;
  make_output_dir s output_dir;;
  make_report_dir s output_dir;;
  Ok (new_extractor cfg).

Module App.

(** The parsed command line. *)
Record Args : Type := {
  input : str;
  output : str;
  recursive : bool;
  parallel : bool;
  workers : Z;
  enable_checkpoint : bool;
  checkpoint_file : str;
  resume : bool;
  log_thinking : bool;
  calculate_cost : bool;
}.

(** [main]: the exit code.  [parsed] is the outcome of
    [parse_arguments()]: the parsed command line, or the [SystemExit] of
    argparse for a command line it refuses or that asks for help; it is
    raised outside any [try] block, as is an error of the test whether the
    input path exists.  The world [main] starts in holds the checkpoint
    file; its extractor is the one built here.  The values of the arguments
    log_thinking, calculate_cost, enable_checkpoint, checkpoint_file and
    resume are only logged; the run metadata of the single-file mode is kept
    without its keys single_file_mode and filename, which nothing reads back;
    the report is written outside the modelled state and its generation
    catches its own errors. *)
Definition main (cfg : Config) (env : Env) (s : Startup) (parsed : result Args) : M Z :=
  args ← call parsed;
  let input_path := input args in
  let max_workers :=
    if bool_decide (workers args > 0)%Z then Some (Z.to_pos (workers args)) else None in
  match new_military_records_extractor cfg s (output args) with
  | Raise _ => mret 1%Z
  | Ok extractor =>
    update_self (fun _ => extractor);;
    found ← call (exists_ env input_path);
    if negb found then mret 1%Z
    else if is_file env input_path then
      update_self (set_run_metadata
        {| total_files := 1; successful_files := 0; failed_files := 0;
           model := GOOGLE_MODEL cfg;
           recursive_processing := None; parallel_processing := None;
           max_workers := None |});;
      process_file cfg env input_path;;
      get_combined_dataframe env;;
      mret 0%Z
    else if is_dir env input_path then
      process_directory cfg env input_path (recursive args) (parallel args) max_workers;;
      get_combined_dataframe env;;
      mret 0%Z
    else mret 1%Z
  end.

End App.

(** * Notions used in the statements *)

(** [s] holds the text [c m d] after a prefix without [c] and before a
    suffix without [d]. *)
Definition embedded (c d : N) (m s : str) : Prop :=
  exists p q, s = p ++ c :: m ++ d :: q ∧ (c ∉ p) ∧ (d ∉ q).

(** The files the catalog discovers: none when the root is not a
    directory. *)
Definition discovered (env : Env) (directory_path : str) (recursive : bool) : list str :=
  match get_files_from_directory env directory_path recursive with
  | Ok files => files
  | Raise _ => []
  end.

(** The processed-files set a run works with once [_load_checkpoint] has
    run. *)
Definition loaded_checkpoint (cfg : Config) (w : World) : gset str :=
  if RESUME_FROM_CHECKPOINT cfg then
    match checkpoint_file w with
    | Some paths => list_to_set paths
    | None => processed_files (self w)
    end
  else processed_files (self w).

(** A file passes the three stages that can fail it: it is read, the
    recognizer answers without an error, and the answer validates. *)
Definition file_ok (cfg : Config) (env : Env) (p : str) : bool :=
  match read_file env p with
  | Ok file_data =>
    match recognize cfg env file_data with
    | Some llm_response =>
      match error llm_response with
      | None =>
        match validate_json_output (limits env) (text llm_response) with
        | Ok _ => true
        | Raise _ => false
        end
      | Some _ => false
      end
    | None => false
    end
  | Raise _ => false
  end.

(** The same in a worker process, which in addition has to stay alive. *)
Definition worker_ok (cfg : Config) (env : Env) (p : str) : bool :=
  match worker_exit env p with
  | Ok _ => file_ok cfg env p
  | Raise _ => false
  end.

(** What the future of a file holds: the tuple of its worker, which does not
    depend on the checkpoint file, or the exception of a dead worker. *)
Definition future_of (cfg : Config) (env : Env) (p : str) : result WorkerResult :=
  match worker_exit env p with
  | Ok _ => Ok (_process_file_wrapper cfg env p None).1
  | Raise e => Raise e
  end.

(** The checkpoint file after the workers of the given files have updated
    it, one after the other. *)
Definition workers_checkpoint (env : Env) (on_disk : option (list str))
    (files : list str) : option (list str) :=
  foldl (fun on_disk p => worker_checkpoint_update env p on_disk) on_disk files.

(** Success of a file in the given mode. *)
Definition mode_ok (cfg : Config) (env : Env) (parallel : bool) (p : str) : bool :=
  if parallel then worker_ok cfg env p else file_ok cfg env p.

(** [p not in s], as a test. *)
Definition not_in (s : gset str) (p : str) : bool := negb (bool_decide (p ∈ s)).

(** A new extractor next to a given checkpoint file. *)
Definition fresh (cfg : Config) (on_disk : option (list str)) : World :=
  {| self := new_extractor cfg; checkpoint_file := on_disk |}.

(** The world after the resets of [process_directory]. *)
Definition reset_world (cfg : Config) (recursive parallel : bool)
    (max_workers : option positive) (w : World) : World :=
  {| self :=
       {| total_cost := 0;
          usage_metadata_list := [];
          run_metadata :=
            {| total_files := 0; successful_files := 0; failed_files := 0;
               model := GOOGLE_MODEL cfg;
               recursive_processing := Some recursive;
               parallel_processing := Some parallel;
               max_workers :=
                 Some (if parallel then MaxWorkers max_workers else MaxWorkersNA) |};
          processed_files := processed_files (self w);
          file_status := file_status (self w);
          all_data := all_data (self w) |};
     checkpoint_file := checkpoint_file w |}.

(** The size of the pool of a parallel run over the given files. *)
Definition pool_size (env : Env) (max_workers : option positive) (files : list str)
    : positive :=
  match max_workers with
  | Some n => n
  | None => Pos.min (cpu_count env) (Pos.of_nat (length files))
  end.

(** The checkpoint file a run leaves behind. *)
Definition checkpoint_after (cfg : Config) (env : Env) (parallel : bool)
    (max_workers : option positive) (loaded : gset str) (on_disk : option (list str))
    (files : list str) : option (list str) :=
  let succeeded :=
    List.filter (fun q => not_in loaded q && mode_ok cfg env parallel q) files in
  if parallel then
    if ENABLE_CHECKPOINTING cfg then
      if (pool_size env max_workers files =? 1)%positive || Nat.leb (length succeeded) 1
      then workers_checkpoint env on_disk succeeded
      else if checkpoint_writable env then racy_checkpoint env on_disk succeeded
           else on_disk
    else on_disk
  else
    if ENABLE_CHECKPOINTING cfg && checkpoint_writable env then
      match succeeded with
      | [] => on_disk
      | _ :: _ => Some (elements (loaded ∪ list_to_set succeeded))
      end
    else on_disk.

(** The workers of a parallel run update the checkpoint file one at a
    time: the pool has one process, or at most one worker succeeds. *)
Definition one_at_a_time (cfg : Config) (env : Env) (max_workers : option positive)
    (loaded : gset str) (files : list str) : Prop :=
  pool_size env max_workers files = 1%positive
  ∨ (length (List.filter (fun q => not_in loaded q && worker_ok cfg env q) files) <= 1)%nat.

(** An error at one of the stages of a file that can fail it: reading,
    recognition (a file type without recognizer, or an error response),
    validation. *)
Inductive stage_error (cfg : Config) (env : Env) (p : str) : Prop :=
| read_error (e : exn) :
    read_file env p = Raise e -> stage_error cfg env p
| unsupported_type (file_data : FileData) :
    read_file env p = Ok file_data ->
    recognize cfg env file_data = None -> stage_error cfg env p
| recognizer_error (file_data : FileData) (r : LLMResponse) (message : str) :
    read_file env p = Ok file_data ->
    recognize cfg env file_data = Some r ->
    error r = Some message -> stage_error cfg env p
| validation_error (file_data : FileData) (r : LLMResponse) (e : exn) :
    read_file env p = Ok file_data ->
    recognize cfg env file_data = Some r ->
    error r = None ->
    validate_json_output (limits env) (text r) = Raise e -> stage_error cfg env p.

(** ** A small run: three files, one refused by the recognizer *)

Definition example_pricing : Pricing :=
  {| input_cost_per_million_tokens := Some (15 # 100)%Q;
     output_cost_per_million_tokens := Some (60 # 100)%Q;
     thinking_cost_per_million_tokens := Some (350 # 100)%Q |}.

Definition example_config : Config :=
  {| CALCULATE_COST := true; LOG_LLM_THINKING := false;
     ENABLE_CHECKPOINTING := true; RESUME_FROM_CHECKPOINT := true;
     THINKING_BUDGET := 8192;
     MODEL_PRICING := {| default_pricing := example_pricing; listed_pricing := ∅ |};
     GOOGLE_MODEL := py "gemini-2.5-flash-preview-04-17" |}.

(** A usage record of a call with thinking enabled. *)
Definition example_usage : UsageMetadata :=
  {| prompt_token_count := 1000000;
     candidates_token_count := 500000;
     total_token_count := 1700000;
     thinking_enabled := true;
     thinking_budget := 8192;
     thinking_tokens_used := Some 200000%Z;
     thinking_budget_exceeded := Some true;
     is_estimated := None |}.

(** A response with the given text that reports one million prompt tokens;
    [blocked] makes it a refusal. *)
Definition example_response (t : str) (blocked : bool) : ApiResponse :=
  {| block_reason := if blocked then Some (py "SAFETY") else None;
     has_content_parts := negb blocked;
     response_text := Some t;
     api_usage_metadata :=
       Some {| api_prompt_token_count := 1000000;
               api_candidates_token_count := 0;
               api_total_token_count := 1000000 |} |}.

(** A directory with the given listing, on a machine with four processors.
    The content of a file is its own path; the recognizer answers an image
    as [reply] says and refuses every text file; [sink_ok] tells whether
    spreadsheets can be written.  When workers race on the checkpoint file,
    the update of the first of them is lost. *)
Definition example_env (listing : list str) (reply : str -> str) (sink_ok : bool) : Env :=
  {| limits := default_limits;
     is_dir := fun d => str_eqb d (py "scans");
     glob := fun _ _ => listing;
     is_file := fun _ => true;
     exists_ := fun _ => Ok true;
     read_bytes := fun p => Ok p;
     read_text := fun p _ => Ok p;
     guess_type := fun _ => None;
     image_open := fun _ => Ok tt;
     count_tokens := fun _ => Ok 0%Z;
     count_text_tokens := fun _ => Ok 0%Z;
     generate_content := fun c =>
       match c with
       | ImageContent p => Ok (example_response (reply p) false)
       | TextContent _ => Ok (example_response [] true)
       end;
     make_dataframe := fun _ => Ok tt;
     to_excel := fun _ _ => if sink_ok then Ok tt else Raise OSError;
     checkpoint_writable := true;
     cpu_count := 4;
     worker_exit := fun _ => Ok tt;
     racy_checkpoint := fun on_disk paths => Some (default [] on_disk ++ drop 1 paths) |}.

Definition example_files : list str :=
  [py "scans/a.png"; py "scans/b.txt"; py "scans/c.jpg"].

Definition example_reply (p : str) : str :=
  if str_eqb p (py "scans/a.png") then pyq "[{'n': 1}, {'n': 2}]"
  else py "```json" ++ [Ch.newline] ++ pyq "[{'n': 3}]" ++ [Ch.newline] ++ py "```".

(** A response of the API that reports more tokens in total than prompt and
    output tokens together: the rest were spent on thinking. *)
Definition thinking_response : ApiResponse :=
  {| block_reason := None;
     has_content_parts := true;
     response_text := Some (pyq "[{'n': 1}]");
     api_usage_metadata :=
       Some {| api_prompt_token_count := 1000000;
               api_candidates_token_count := 500000;
               api_total_token_count := 1700000 |} |}.

(** The example configuration without resume. *)
Definition fresh_start_config : Config :=
  {| CALCULATE_COST := true; LOG_LLM_THINKING := false;
     ENABLE_CHECKPOINTING := true; RESUME_FROM_CHECKPOINT := false;
     THINKING_BUDGET := 8192;
     MODEL_PRICING := {| default_pricing := example_pricing; listed_pricing := ∅ |};
     GOOGLE_MODEL := py "gemini-2.5-flash-preview-04-17" |}.

(** Resume without checkpointing: the checkpoint file is read when a run
    starts and never written. *)
Definition resume_only_config : Config :=
  {| CALCULATE_COST := true; LOG_LLM_THINKING := false;
     ENABLE_CHECKPOINTING := false; RESUME_FROM_CHECKPOINT := true;
     THINKING_BUDGET := 8192;
     MODEL_PRICING := {| default_pricing := example_pricing; listed_pricing := ∅ |};
     GOOGLE_MODEL := py "gemini-2.5-flash-preview-04-17" |}.

(** Surroundings in which the extractor can be built. *)
Definition example_startup : Startup :=
  {| GOOGLE_API_KEY := Some (py "key");
     make_client := Ok tt;
     make_output_dir := fun _ => Ok tt;
     make_report_dir := fun _ => Ok tt |}.

(** A command line for the given input path: sequential, not recursive. *)
Definition example_args (input_path : str) (resume calculate_cost : bool) : App.Args :=
  {| App.input := input_path; App.output := py "out";
     App.recursive := false; App.parallel := false; App.workers := 0;
     App.enable_checkpoint := true; App.checkpoint_file := py "processing_checkpoint.json";
     App.resume := resume; App.log_thinking := false;
     App.calculate_cost := calculate_cost |}.

(** Surroundings in which every path is an existing image file, answered
    with one record. *)
Definition single_image_env : Env :=
  {| limits := default_limits;
     is_dir := fun _ => false;
     glob := fun _ _ => [];
     is_file := fun _ => true;
     exists_ := fun _ => Ok true;
     read_bytes := fun p => Ok p;
     read_text := fun p _ => Ok p;
     guess_type := fun _ => Some (py "image/png");
     image_open := fun _ => Ok tt;
     count_tokens := fun _ => Ok 0%Z;
     count_text_tokens := fun _ => Ok 0%Z;
     generate_content := fun _ => Ok (example_response (pyq "[{'n': 1}]") false);
     make_dataframe := fun _ => Ok tt;
     to_excel := fun _ _ => Ok tt;
     checkpoint_writable := true;
     cpu_count := 4;
     worker_exit := fun _ => Ok tt;
     racy_checkpoint := fun on_disk _ => on_disk |}.

(** The same surroundings, with a recognizer that thinks. *)
Definition thinking_env : Env :=
  {| limits := default_limits;
     is_dir := fun _ => false;
     glob := fun _ _ => [];
     is_file := fun _ => true;
     exists_ := fun _ => Ok true;
     read_bytes := fun p => Ok p;
     read_text := fun p _ => Ok p;
     guess_type := fun _ => Some (py "image/png");
     image_open := fun _ => Ok tt;
     count_tokens := fun _ => Ok 0%Z;
     count_text_tokens := fun _ => Ok 0%Z;
     generate_content := fun _ => Ok thinking_response;
     make_dataframe := fun _ => Ok tt;
     to_excel := fun _ _ => Ok tt;
     checkpoint_writable := true;
     cpu_count := 4;
     worker_exit := fun _ => Ok tt;
     racy_checkpoint := fun on_disk _ => on_disk |}.

(** ** Notions of the further properties *)

(** What makes the scanner fail with an exception that is no decoding
    error: an integer literal over a limit that is set, or nesting deeper
    than the interpreter allows. *)
Definition scan_failure (lim : Limits) (e : exn) : Prop :=
  (e = ValueError ∧ int_max_str_digits lim ≠ 0%nat) ∨ e = RecursionError.

(** An interpreter with room for two levels of nesting only. *)
Definition shallow_limits : Limits :=
  {| int_max_str_digits := 4300; recursion_limit := 2 |}.

(** [t] is a contiguous part of [s]. *)
Definition slice_of (t s : str) : Prop := exists a b, s = a ++ t ++ b.

(** The answer of the recognizer for a file: none for a file that cannot be
    read. *)
Definition answer (cfg : Config) (env : Env) (p : str) : option LLMResponse :=
  match read_file env p with
  | Ok file_data => recognize cfg env file_data
  | Raise _ => None
  end.

(** The usage record that comes with the answer. *)
Definition call_usage (cfg : Config) (env : Env) (p : str) : option UsageMetadata :=
  match answer cfg env p with
  | Some llm_response => usage_metadata llm_response
  | None => None
  end.

(** The records the validator finds in the answer; none when a stage
    fails. *)
Definition records_of (cfg : Config) (env : Env) (p : str) : list json :=
  match answer cfg env p with
  | Some llm_response =>
    match error llm_response with
    | None =>
      match validate_json_output (limits env) (text llm_response) with
      | Ok records => records
      | Raise _ => []
      end
    | Some _ => []
    end
  | None => []
  end.

(** The price of one call: input, output and, for a call with thinking
    enabled that used thinking tokens, thinking. *)
Definition call_price (cfg : Config) (u : UsageMetadata) : Q :=
  let pricing := get_model_pricing cfg in
  (token_cost (prompt_token_count u) (default 0 (input_cost_per_million_tokens pricing))
   + token_cost (candidates_token_count u)
       (default 0 (output_cost_per_million_tokens pricing))
   + (if thinking_enabled u && bool_decide (default 0 (thinking_tokens_used u) > 0)%Z
      then token_cost (default 0%Z (thinking_tokens_used u))
             (default 0 (thinking_cost_per_million_tokens pricing))
      else 0))%Q.

(** The spreadsheet of a file is written: there are records, the data frame
    is built and the file is saved. *)
Definition written (env : Env) (records : list json) (filename : str) : bool :=
  negb (bool_decide (records = []))
  && match make_dataframe env records with Ok _ => true | Raise _ => false end
  && match to_excel env records filename with Ok _ => true | Raise _ => false end.

(** What a file adds to the collected data. *)
Definition saved (cfg : Config) (env : Env) (p : str) : list json :=
  if file_ok cfg env p && written env (records_of cfg env p) (name p)
  then records_of cfg env p else [].

(** The last [except] clause of [process_file] is reached with the usage
    record of the answer at hand: the answer has no error and its
    validation raises an exception of none of the classes that the clauses
    before it name.  The clause prices the call once more. *)
Definition priced_again (cfg : Config) (env : Env) (p : str) : bool :=
  match answer cfg env p with
  | Some llm_response =>
    match error llm_response with
    | None =>
      match validate_json_output (limits env) (text llm_response) with
      | Raise e =>
        negb (is_instance e FileNotFoundError || is_instance e ValueError
              || is_instance e JSONDecodeError || is_instance e TypeError)
      | Ok _ => false
      end
    | Some _ => false
    end
  | None => false
  end.

(** What a dispatched file adds to the total cost and to the usage list in
    the sequential mode. *)
Definition sequential_charge (cfg : Config) (env : Env) (p : str) : Q :=
  match CALCULATE_COST cfg, call_usage cfg env p with
  | true, Some u =>
    if priced_again cfg env p then call_price cfg u + call_price cfg u
    else call_price cfg u
  | _, _ => 0
  end.

Definition sequential_usage (cfg : Config) (env : Env) (p : str) : list UsageMetadata :=
  if CALCULATE_COST cfg then
    option_list (call_usage cfg env p)
    ++ (if priced_again cfg env p then option_list (call_usage cfg env p) else [])
  else [].

(** The cost a worker reports: that of an answer without error that comes
    with a usage record. *)
Definition worker_cost (cfg : Config) (env : Env) (p : str) : Q :=
  match answer cfg env p with
  | Some llm_response =>
    match error llm_response, usage_metadata llm_response with
    | None, Some u => worker_file_cost cfg u
    | _, _ => 0
    end
  | None => 0
  end.

(** What a dispatched file adds to the total cost and to the usage list in
    the parallel mode: the cost its worker reports, if the worker stays
    alive and the cost is more than zero; the usage record of the answer, if
    the worker stays alive. *)
Definition parallel_charge (cfg : Config) (env : Env) (p : str) : Q :=
  match worker_exit env p with
  | Ok _ => if Qgtb (worker_cost cfg env p) 0 then worker_cost cfg env p else 0
  | Raise _ => 0
  end.

Definition parallel_usage (cfg : Config) (env : Env) (p : str) : list UsageMetadata :=
  match worker_exit env p with
  | Ok _ => option_list (call_usage cfg env p)
  | Raise _ => []
  end.

Definition mode_charge (cfg : Config) (env : Env) (parallel : bool) (p : str) : Q :=
  if parallel then parallel_charge cfg env p else sequential_charge cfg env p.

Definition mode_usage (cfg : Config) (env : Env) (parallel : bool) (p : str)
    : list UsageMetadata :=
  if parallel then parallel_usage cfg env p else sequential_usage cfg env p.

Definition mode_saved (cfg : Config) (env : Env) (parallel : bool) (p : str) : list json :=
  if mode_ok cfg env parallel p then saved cfg env p else [].

(** The records of a data frame built from the collected data. *)
Definition combined (env : Env) (data : list json) : list json :=
  match make_dataframe env data with
  | Ok _ => data
  | Raise _ => []
  end.

Definition Qsum (l : list Q) : Q := foldr Qplus 0%Q l.

Definition Zsum (l : list Z) : Z := foldr Z.add 0%Z l.

(** The number of elements that pass a test. *)
Definition count_of (f : str -> bool) (l : list str) : nat := length (List.filter f l).

(** The change of the accounts of the extractor between two worlds: what
    was added to the total cost, the usage list, the two counters and the
    collected data. *)
Record accounted (w w' : World) (cost : Q) (usage : list UsageMetadata)
    (succeeded failures : nat) (data : list json) : Prop := {
  acc_cost : (total_cost (self w') == total_cost (self w) + cost)%Q;
  acc_usage : usage_metadata_list (self w') = usage_metadata_list (self w) ++ usage;
  acc_successful :
    successful_files (run_metadata (self w'))
    = (successful_files (run_metadata (self w)) + succeeded)%nat;
  acc_failed :
    failed_files (run_metadata (self w'))
    = (failed_files (run_metadata (self w)) + failures)%nat;
  acc_data : all_data (self w') = all_data (self w) ++ data;
}.

(** Thinking tokens of a usage record as the report counts them. *)
Definition counted_thinking (u : UsageMetadata) : Z :=
  if thinking_enabled u && bool_decide (default 0 (thinking_tokens_used u) > 0)%Z
  then default 0%Z (thinking_tokens_used u) else 0%Z.

(** The construction of the extractor succeeds. *)
Definition starts (cfg : Config) (s : Startup) (output_dir : str) : bool :=
  match new_military_records_extractor cfg s output_dir with
  | Ok _ => true
  | Raise _ => false
  end.

(** ** Proof steps *)

Ltac split_scan H :=
  repeat (match type of H with
          | context [match ?l with [] => _ | _ :: _ => _ end] => is_var l; destruct l
          | context [if ?b then _ else _] => destruct b eqn:?
          | context [match ?o with Some _ => _ | None => _ end] => destruct o eqn:?
          end; cbv beta iota in H).

Ltac unfold_monad :=
  unfold mark_failed, add_total_cost, update_run_metadata, update_file_status,
    update_self, get_self, try_except, call, raise, mbind, mret, M_bind, M_ret in *.

Ltac finish_effect Hn :=
  do 2 eexists; (split; [reflexivity|]); cbn; repeat split; rewrite ?Hn;
  try done; try (by intros [? ?]); eauto.

Ltac finish_accounts :=
  (split; [split|]); cbn; rewrite ?app_nil_r, ?Nat.add_0_r, <- ?app_assoc; cbn;
  try done; unfold call_price; cbv zeta; try ring.

(** * Properties *)

(** ** Strings *)

Lemma startswith_spec (f s : str) :
  startswith f s = true <-> exists r, s = f ++ r.
Proof.
  revert s. induction f as [|a f IH]; intros s; simpl.
  - split; [eauto | done].
  - destruct s as [|b s].
    + split; [done | intros [r Hr]; discriminate].
    + rewrite andb_true_iff, N.eqb_eq, IH. split.
      * intros [-> [r ->]]. eauto.
      * intros [r Hr]. injection Hr as -> ->. eauto.
Qed.

Lemma endswith_spec (f s : str) :
  endswith f s = true <-> exists r, s = r ++ f.
Proof.
  unfold endswith. rewrite startswith_spec. split.
  - intros [r Hr]. exists (reverse r).
    rewrite <- (reverse_involutive s), Hr, reverse_app.
    by rewrite reverse_involutive.
  - intros [r ->]. exists (reverse r). by rewrite reverse_app.
Qed.

Lemma find_not_elem (c : N) (s : str) : c ∉ s -> find c s = None.
Proof.
  induction s as [|a s IH]; intros Hc; simpl; [done|].
  apply not_elem_of_cons in Hc as [Hne Hc].
  destruct (N.eqb_spec a c) as [->|_]; [done|]. by rewrite IH.
Qed.

Lemma find_first (c : N) (p t : str) :
  c ∉ p -> find c (p ++ c :: t) = Some (length p).
Proof.
  induction p as [|a p IH]; intros Hc; simpl.
  - by rewrite N.eqb_refl.
  - apply not_elem_of_cons in Hc as [Hne Hc].
    destruct (N.eqb_spec a c) as [->|_]; [done|]. by rewrite IH.
Qed.

(** ** The decoder never runs out of fuel *)

Lemma skip_ws_length (s : str) : (length (skip_ws s) <= length s)%nat.
Proof.
  induction s as [|c s IH]; simpl; [done|]. destruct (json_ws c); simpl; lia.
Qed.

Lemma scanstring_length (n : nat) :
  forall s acc v r, (length s <= n)%nat ->
    scanstring s acc = Scanned v r -> (length r < length s)%nat.
Proof.
  induction n as [|n IH]; intros s acc v r Hn H.
  - destruct s; [done|]. simpl in Hn. lia.
  - destruct s as [|c s]; [done|]. cbn [scanstring] in H. cbn [length] in Hn.
    split_scan H;
      first [ discriminate H
            | injection H as <- <-; cbn [length]; lia
            | apply IH in H; cbn [length] in *; lia ].
Qed.

Lemma scanstring_fuel s acc : scanstring s acc ≠ NoFuel.
Proof.
  remember (length s) as n eqn:Hn. assert (length s <= n)%nat as Hle by lia. clear Hn.
  revert s acc Hle. induction n as [|n IH]; intros s acc Hn H.
  - destruct s; [done|]. simpl in Hn. lia.
  - destruct s as [|c s]; [done|]. cbn [scanstring] in H. cbn [length] in Hn.
    split_scan H;
      first [ discriminate H | apply IH in H; [done|]; cbn [length] in *; lia ].
Qed.

Lemma span_digits_length (s : str) : (length (span_digits s).2 <= length s)%nat.
Proof.
  induction s as [|c s IH]; cbn [span_digits]; [done|].
  destruct (is_digit c); [|done].
  destruct (span_digits s) as [ds rest]. cbn in *. lia.
Qed.

Lemma scan_integer_length s ds r :
  scan_integer s = Some (ds, r) -> (length r < length s)%nat.
Proof.
  unfold scan_integer. destruct s as [|d s]; [done|].
  destruct (is_digit d); [|done]. destruct (d =? Ch.zero).
  - intros [= <- <-]. cbn. lia.
  - pose proof (span_digits_length s) as Hs.
    destruct (span_digits s) as [ds' rest]. intros [= <- <-]. cbn in *. lia.
Qed.

Lemma scan_fraction_length s : (length (scan_fraction s).2 <= length s)%nat.
Proof.
  unfold scan_fraction. destruct s as [|c s]; [done|].
  destruct (c =? Ch.dot); [|done].
  pose proof (span_digits_length s) as Hs.
  destruct (span_digits s) as [[|d ds] rest]; cbn in *; lia.
Qed.

Lemma scan_exponent_length s : (length (scan_exponent s).2 <= length s)%nat.
Proof.
  unfold scan_exponent. destruct s as [|c s]; [done|].
  destruct ((c =? 101) || (c =? 69)); [|done].
  destruct s as [|g t].
  - cbn. lia.
  - destruct ((g =? Ch.plus) || (g =? Ch.minus)).
    + pose proof (span_digits_length t) as Hs.
      destruct (span_digits t) as [[|d ds] rest]; cbn in *; lia.
    + pose proof (span_digits_length (g :: t)) as Hs.
      destruct (span_digits (g :: t)) as [[|d ds] rest]; cbn in *; lia.
Qed.

Lemma match_number_length lim s v r :
  match_number lim s = Scanned v r -> (length r < length s)%nat.
Proof.
  unfold match_number.
  set (p := match s with
            | [] => (false, s)
            | c :: r0 => if c =? Ch.minus then (true, r0) else (false, s)
            end).
  assert (length p.2 <= length s)%nat as Hp.
  { subst p. destruct s as [|c r0]; [done|]. destruct (c =? Ch.minus); cbn; lia. }
  destruct p as [neg s1]. cbn in Hp.
  destruct (scan_integer s1) as [[int_digits r1]|] eqn:Hi; [|done].
  apply scan_integer_length in Hi.
  pose proof (scan_fraction_length r1) as Hf.
  destruct (scan_fraction r1) as [frac r2].
  pose proof (scan_exponent_length r2) as He.
  destruct (scan_exponent r2) as [expo r3]. cbn in Hf, He.
  destruct frac, expo; try destruct (exceeds_int_max_str_digits lim int_digits);
    intros [= <- <-]; lia.
Qed.

Lemma match_number_fuel lim s : match_number lim s ≠ NoFuel.
Proof.
  unfold match_number.
  destruct (match s with
            | [] => (false, s)
            | c :: r0 => if c =? Ch.minus then (true, r0) else (false, s)
            end) as [neg s1].
  destruct (scan_integer s1) as [[int_digits r1]|]; [|done].
  destruct (scan_fraction r1) as [frac r2].
  destruct (scan_exponent r2) as [expo r3].
  by destruct frac, expo; try destruct (exceeds_int_max_str_digits lim int_digits).
Qed.

Lemma after_word_length word s r :
  word ≠ ""%string -> after_word word s = Some r -> (length r < length s)%nat.
Proof.
  unfold after_word. intros Hw. destruct (startswith _ _) eqn:E; [|done].
  apply startswith_spec in E as [t ->]. intros [= <-].
  rewrite drop_app_length, length_app.
  destruct word; [done|]. cbn. lia.
Qed.

Lemma scan_map_fuel {A B} (f : A -> B) (x : scan A) : x ≠ NoFuel -> scan_map f x ≠ NoFuel.
Proof. by destruct x. Qed.

Lemma scan_map_length {A B} (f : A -> B) (x : scan A) (n : nat) :
  (forall v r, x = Scanned v r -> (length r < n)%nat) ->
  forall v r, scan_map f x = Scanned v r -> (length r < n)%nat.
Proof. destruct x; intros H v r [= <- <-]. eauto. Qed.

(** With fuel above twice the length of the text, the scanner, and with one
    more the two loops, never run out of fuel; and a scanned value has used
    up at least one character. *)
Lemma scanner_fuel (lim : Limits) (fuel : nat) :
  (forall depth s, (2 * length s < fuel)%nat ->
     scan_once lim fuel depth s ≠ NoFuel
     ∧ forall v r, scan_once lim fuel depth s = Scanned v r -> (length r < length s)%nat)
  ∧ (forall depth s acc, (2 * length s + 1 < fuel)%nat ->
       array_items lim fuel depth s acc ≠ NoFuel
       ∧ forall v r, array_items lim fuel depth s acc = Scanned v r ->
           (length r < length s)%nat)
  ∧ (forall depth s acc, (2 * length s + 1 < fuel)%nat ->
       object_items lim fuel depth s acc ≠ NoFuel
       ∧ forall v r, object_items lim fuel depth s acc = Scanned v r ->
           (length r < length s)%nat).
Proof.
  induction fuel as [|fuel (IHscan & IHarray & IHobject)].
  { repeat split; intros; lia. }
  split; [|split].
  - intros depth [|c s] Hlen; [done|]. cbn [length] in Hlen. cbn [scan_once].
    pose proof (skip_ws_length s) as Hws.
    destruct (c =? Ch.quote).
    { split; [apply scan_map_fuel, scanstring_fuel|].
      apply scan_map_length. intros v r H.
      apply (scanstring_length (length s)) in H; [cbn [length]; lia | done]. }
    destruct (c =? Ch.lbrace).
    { destruct depth as [|depth]; [done|].
      destruct (skip_ws s) as [|c' r'] eqn:E; [done|].
      destruct (c' =? Ch.rbrace).
      - split; [done|]. intros v r [= <- <-]. cbn [length] in *. lia.
      - destruct (IHobject depth (c' :: r') []) as [H1 H2]; [cbn [length] in *; lia|].
        split; [by apply scan_map_fuel|].
        apply scan_map_length. intros v r H. apply H2 in H. cbn [length] in *. lia. }
    destruct (c =? Ch.lbracket).
    { destruct depth as [|depth]; [done|].
      destruct (skip_ws s) as [|c' r'] eqn:E; [done|].
      destruct (c' =? Ch.rbracket).
      - split; [done|]. intros v r [= <- <-]. cbn [length] in *. lia.
      - destruct (IHarray depth (c' :: r') []) as [H1 H2]; [cbn [length] in *; lia|].
        split; [by apply scan_map_fuel|].
        apply scan_map_length. intros v r H. apply H2 in H. cbn [length] in *. lia. }
    repeat match goal with
           | |- context [after_word ?w (c :: s)] =>
             let E := fresh "E" in
             destruct (after_word w (c :: s)) eqn:E;
             [apply after_word_length in E; [|done];
              split; [done|]; intros v r [= <- <-]; done |]
           end.
    split; [apply match_number_fuel|]. apply match_number_length.
  - intros depth s acc Hlen. cbn [array_items].
    destruct (IHscan depth s) as [H1 H2]; [lia|].
    destruct (scan_once lim fuel depth s) as [v r| | |]; [|done..].
    specialize (H2 v r eq_refl). pose proof (skip_ws_length r) as Hws.
    destruct (skip_ws r) as [|c r'] eqn:E; [done|]. cbn [length] in Hws.
    destruct (c =? Ch.comma).
    + pose proof (skip_ws_length r') as Hws'.
      destruct (IHarray depth (skip_ws r') (v :: acc)) as [H3 H4]; [lia|].
      split; [done|]. intros v' r'' H. apply H4 in H. lia.
    + destruct (c =? Ch.rbracket); [|done].
      split; [done|]. intros v' r'' [= <- <-]. lia.
  - intros depth [|q s] acc Hlen; [done|]. cbn [length] in Hlen. cbn [object_items].
    destruct (q =? Ch.quote); [|done].
    pose proof (scanstring_fuel s []) as Hsf.
    destruct (scanstring s []) as [key r1| | |] eqn:Hkey; [|done..].
    apply (scanstring_length (length s)) in Hkey; [|done].
    pose proof (skip_ws_length r1) as Hws1.
    destruct (skip_ws r1) as [|c r2] eqn:E1; [done|]. cbn [length] in Hws1.
    destruct (c =? Ch.colon); [|done].
    pose proof (skip_ws_length r2) as Hws2.
    destruct (IHscan depth (skip_ws r2)) as [H1 H2]; [lia|].
    destruct (scan_once lim fuel depth (skip_ws r2)) as [v r3| | |]; [|done..].
    specialize (H2 v r3 eq_refl). pose proof (skip_ws_length r3) as Hws3.
    destruct (skip_ws r3) as [|c' r4] eqn:E3; [done|]. cbn [length] in Hws3.
    destruct (c' =? Ch.comma).
    + pose proof (skip_ws_length r4) as Hws4.
      destruct (IHobject depth (skip_ws r4) ((key, v) :: acc)) as [H3 H4]; [lia|].
      split; [done|]. intros v' r'' H. apply H4 in H. cbn [length]. lia.
    + destruct (c' =? Ch.rbrace); [|done].
      split; [done|]. intros v' r'' [= <- <-]. cbn [length]. lia.
Qed.

(** The fuel [json.loads] gives the scanner always suffices: the decoder
    raises only what the text and the limits of the interpreter make it
    raise. *)
Lemma json_loads_fuel (lim : Limits) (s : str) :
  scan_once lim (fuel_for s) (recursion_limit lim) (skip_ws s) ≠ NoFuel.
Proof.
  apply scanner_fuel. unfold fuel_for. pose proof (skip_ws_length s). lia.
Qed.

(** ** The validator on a bracketed text inside other text *)

Lemma embedded_reverse (c d : N) (m s : str) :
  embedded c d m s -> embedded d c (reverse m) (reverse s).
Proof.
  intros (p & q & -> & Hp & Hq). exists (reverse q), (reverse p).
  split; [|by rewrite !elem_of_reverse].
  rewrite reverse_app, reverse_cons, reverse_app, reverse_cons.
  by rewrite <- !(assoc_L (++)).
Qed.

Lemma embedded_lstrip (c d : N) (m s : str) :
  isspace c = false -> embedded c d m s -> embedded c d m (lstrip s).
Proof.
  intros Hc (p & q & -> & Hp & Hq). induction p as [|a p IH]; simpl.
  - rewrite Hc. by exists [], q.
  - apply not_elem_of_cons in Hp as [Hne Hp]. destruct (isspace a).
    + by apply IH.
    + exists (a :: p), q. split; [done|]. split; [|done].
      apply not_elem_of_cons. done.
Qed.

Lemma embedded_rstrip (c d : N) (m s : str) :
  isspace d = false -> embedded c d m s -> embedded c d m (rstrip s).
Proof.
  intros Hd H. unfold rstrip.
  rewrite <- (reverse_involutive m).
  by apply embedded_reverse, embedded_lstrip, embedded_reverse.
Qed.

Lemma embedded_strip (c d : N) (m s : str) :
  isspace c = false -> isspace d = false ->
  embedded c d m s -> embedded c d m (strip s).
Proof. intros. by apply embedded_rstrip, embedded_lstrip. Qed.

Lemma embedded_drop_prefix (c d : N) (m f s : str) :
  c ∉ f -> startswith f s = true ->
  embedded c d m s -> embedded c d m (drop (length f) s).
Proof.
  intros Hf Hs (p & q & -> & Hp & Hq).
  revert p Hp Hs. induction f as [|a f IH]; intros p Hp Hs.
  - by exists p, q.
  - apply not_elem_of_cons in Hf as [Hne Hf].
    destruct p as [|b p]; simpl in Hs.
    + apply andb_true_iff in Hs as [Hs _]. apply N.eqb_eq in Hs. congruence.
    + apply andb_true_iff in Hs as [_ Hs].
      apply not_elem_of_cons in Hp as [_ Hp]. simpl. by apply IH.
Qed.

Lemma embedded_drop_suffix (c d : N) (m f s : str) :
  d ∉ f -> endswith f s = true ->
  embedded c d m s -> embedded c d m (take (length s - length f) s).
Proof.
  intros Hf Hs H.
  assert (take (length s - length f) s
          = reverse (drop (length (reverse f)) (reverse s))) as ->.
  { apply endswith_spec in Hs as [r ->].
    rewrite length_app, Nat.add_sub, take_app_length.
    rewrite reverse_app, length_reverse, <- (length_reverse f), drop_app_length.
    by rewrite reverse_involutive. }
  rewrite <- (reverse_involutive m).
  apply embedded_reverse, embedded_drop_prefix, embedded_reverse; try done.
  by rewrite elem_of_reverse.
Qed.

(** The two bracket repairs of the validator cut an embedded text out. *)
Lemma embedded_from_first (d : N) (m s : str) :
  embedded Ch.lbracket d m s ->
  exists q, (d ∉ q) ∧ from_first_bracket s = Ok (Ch.lbracket :: m ++ d :: q).
Proof.
  intros (p & q & -> & Hp & Hq). exists q. split; [done|].
  unfold from_first_bracket.
  destruct (startswith _ _) eqn:Hs; simpl negb; cbv iota.
  - destruct p as [|a p]; [done|]. cbn [app startswith] in Hs.
    apply andb_true_iff in Hs as [Hs _]. apply N.eqb_eq in Hs. subst a.
    exfalso. apply Hp. left.
  - rewrite find_first by done. by rewrite drop_app_length.
Qed.

Lemma embedded_to_last (u q : str) :
  Ch.rbracket ∉ q ->
  to_last_bracket (u ++ Ch.rbracket :: q) = Ok (u ++ [Ch.rbracket]).
Proof.
  intros Hq. unfold to_last_bracket.
  destruct (endswith _ _) eqn:He; simpl negb; cbv iota.
  - destruct (decide (q = [])) as [->|Hne]; [done|].
    exfalso. apply Hq. unfold endswith in He.
    rewrite reverse_app, (reverse_cons q) in He.
    destruct (reverse q) as [|x q'] eqn:Hq'.
    + apply (f_equal reverse) in Hq'. by rewrite reverse_involutive in Hq'.
    + cbn [app reverse rev_append startswith] in He.
      apply andb_true_iff in He as [He _]. apply N.eqb_eq in He.
      subst x. apply elem_of_reverse. rewrite Hq'. left.
  - unfold rfind. rewrite reverse_app, (reverse_cons q), <- (assoc_L (++)). simpl.
    rewrite find_first by (by rewrite elem_of_reverse).
    simpl. f_equal.
    replace (length (u ++ Ch.rbracket :: q) - 1 - length (reverse q) + 1)%nat
      with (length (u ++ [Ch.rbracket])).
    + by rewrite (cons_middle Ch.rbracket u q), (assoc_L (++)), take_app_length.
    + rewrite !length_app, length_reverse. simpl. lia.
Qed.

Lemma fence_json_no_bracket : Ch.lbracket ∉ fence_json.
Proof. apply (bool_decide_unpack _). by vm_compute. Qed.

Lemma fence_no_bracket (c : N) : c = Ch.lbracket ∨ c = Ch.rbracket -> c ∉ fence.
Proof. intros [->| ->]; apply (bool_decide_unpack _); by vm_compute. Qed.

(** On a text that embeds a bracketed text, the validator decodes exactly
    that bracketed text. *)
Lemma validate_embedded (lim : Limits) (m s : str) :
  embedded Ch.lbracket Ch.rbracket m s ->
  validate_json_output lim s
  = json_loads lim (Ch.lbracket :: m ++ [Ch.rbracket]) ≫= check_shape.
Proof.
  intros H. unfold validate_json_output.
  rewrite bool_decide_eq_false_2.
  2:{ destruct H as (p & q & -> & _). by destruct p. }
  cbv zeta.
  set (s1 := if startswith fence_json s then _ else _).
  assert (embedded Ch.lbracket Ch.rbracket m s1) as H1.
  { subst s1. destruct (startswith fence_json s) eqn:E1.
    - apply embedded_strip; [done..|].
      apply embedded_drop_prefix; auto using fence_json_no_bracket.
    - destruct (startswith fence s) eqn:E2; [|done].
      apply embedded_strip; [done..|].
      apply embedded_drop_prefix; auto using fence_no_bracket. }
  clearbody s1. clear H.
  set (s2 := if endswith fence s1 then _ else _).
  assert (embedded Ch.lbracket Ch.rbracket m s2) as H2.
  { subst s2. destruct (endswith fence s1) eqn:E; [|done].
    apply embedded_strip; [done..|].
    apply embedded_drop_suffix; auto using fence_no_bracket. }
  clearbody s2. clear H1.
  destruct (embedded_from_first _ _ _ H2) as (q & Hq & ->).
  simpl mbind at 1. unfold mbind at 1, result_bind at 1.
  pose proof (embedded_to_last (Ch.lbracket :: m) q Hq) as E.
  cbn [app] in E. rewrite E. reflexivity.
Qed.

Lemma elem_of_lstrip (c : N) (s : str) : c ∈ lstrip s -> c ∈ s.
Proof.
  induction s as [|a s IH]; simpl; [done|].
  destruct (isspace a); [|done]. intros H. right. by apply IH.
Qed.

Lemma elem_of_strip (c : N) (s : str) : c ∈ strip s -> c ∈ s.
Proof.
  unfold strip, rstrip. rewrite elem_of_reverse. intros H.
  apply elem_of_lstrip in H. rewrite elem_of_reverse in H.
  by apply elem_of_lstrip.
Qed.

(** A text without an opening bracket is rejected before it is decoded. *)
Lemma validate_no_bracket (lim : Limits) (s : str) :
  s ≠ [] -> Ch.lbracket ∉ s -> validate_json_output lim s = Raise JSONDecodeError.
Proof.
  intros Hne Hs. unfold validate_json_output.
  rewrite bool_decide_eq_false_2 by done. cbv zeta.
  set (s1 := if startswith fence_json s then _ else _).
  assert (Ch.lbracket ∉ s1) as H1.
  { subst s1. intros Hin. apply Hs.
    destruct (startswith fence_json s).
    - apply elem_of_strip in Hin. by eapply subseteq_drop.
    - destruct (startswith fence s); [|done].
      apply elem_of_strip in Hin. by eapply subseteq_drop. }
  clearbody s1.
  set (s2 := if endswith fence s1 then _ else _).
  assert (Ch.lbracket ∉ s2) as H2.
  { subst s2. intros Hin. apply H1.
    destruct (endswith fence s1); [|done].
    apply elem_of_strip in Hin. by eapply subseteq_take. }
  clearbody s2. unfold from_first_bracket.
  destruct (startswith [Ch.lbracket] s2) eqn:E.
  - apply startswith_spec in E as [r ->]. exfalso. apply H2. left.
  - simpl. by rewrite find_not_elem.
Qed.

Lemma find_Some (c : N) (s : str) (i : nat) :
  find c s = Some i -> exists r, drop i s = c :: r.
Proof.
  revert i. induction s as [|a s IH]; intros i; cbn [find]; [done|].
  destruct (N.eqb_spec a c) as [->|_].
  - intros [= <-]. by exists s.
  - destruct (find c s) as [j|]; [|done]. intros [= <-]. cbn. by apply IH.
Qed.

Lemma from_first_bracket_starts (s t : str) :
  from_first_bracket s = Ok t -> startswith [Ch.lbracket] t = true.
Proof.
  unfold from_first_bracket. destruct (startswith [Ch.lbracket] s) eqn:E; cbn [negb].
  - by intros [= <-].
  - destruct (find Ch.lbracket s) as [i|] eqn:Hi; [|done]. intros [= <-].
    apply find_Some in Hi as [r ->]. cbn [startswith]. by rewrite N.eqb_refl.
Qed.

Lemma to_last_bracket_starts (t u : str) :
  startswith [Ch.lbracket] t = true -> to_last_bracket t = Ok u ->
  startswith [Ch.lbracket] u = true.
Proof.
  intros [r ->]%startswith_spec. unfold to_last_bracket.
  destruct (endswith _ _); cbn [negb].
  - by intros [= <-].
  - destruct (rfind _ _) as [i|]; [|done]. intros [= <-].
    rewrite Nat.add_1_r. cbn [app take startswith]. by rewrite N.eqb_refl.
Qed.

(** A text that starts with an opening bracket decodes to a list or not at
    all. *)
Lemma json_loads_bracket (lim : Limits) (t : str) (v : json) :
  startswith [Ch.lbracket] t = true -> json_loads lim t = Ok v -> exists l, v = JList l.
Proof.
  intros [r ->]%startswith_spec. unfold json_loads, fuel_for.
  cbn [app startswith skip_ws].
  change (65279 =? Ch.lbracket) with false. change (json_ws Ch.lbracket) with false.
  cbn [andb scan_once].
  change (Ch.lbracket =? Ch.quote) with false.
  change (Ch.lbracket =? Ch.lbrace) with false.
  change (Ch.lbracket =? Ch.lbracket) with true. cbv iota.
  destruct (recursion_limit lim) as [|depth]; [done|].
  destruct (skip_ws r) as [|c' r']; [done|].
  destruct (c' =? Ch.rbracket).
  - destruct (skip_ws r'); [|done]. intros [= <-]. eauto.
  - destruct (array_items _ _ _ _ _) as [l rest| | |]; cbn; [|done..].
    destruct (skip_ws rest); [|done]. intros [= <-]. eauto.
Qed.

(** Whatever the validator returns for a text that is not empty is a list
    that [json.loads] decoded: the branch that wraps a dictionary is never
    taken. *)
Lemma validate_returns_decoded_list (lim : Limits) (s : str) (l : list json) :
  validate_json_output lim s = Ok l ->
  (s = [] ∧ l = [])
  ∨ exists t, startswith [Ch.lbracket] t = true ∧ json_loads lim t = Ok (JList l).
Proof.
  unfold validate_json_output. case_bool_decide as Hs.
  - intros [= <-]. by left.
  - cbv zeta. intros H. right.
    destruct (from_first_bracket _) as [t1|] eqn:H1; [|done].
    apply from_first_bracket_starts in H1. cbn in H.
    destruct (to_last_bracket t1) as [t2|] eqn:H2; [|done].
    apply (to_last_bracket_starts _ _ H1) in H2. cbn in H.
    destruct (json_loads lim t2) as [v|] eqn:H3; [|done]. cbn in H.
    destruct (json_loads_bracket _ _ _ H2 H3) as [l' ->].
    injection H as <-. eauto.
Qed.

(** ** Claims about the validator *)

(** C3 (as amended).  A text that [json.loads] decodes to the array [A], that
    starts with an opening and ends with a closing bracket, is recovered by
    the validator from any surrounding text, with or without code fences,
    provided the text before it holds no opening bracket and the text after
    it no closing bracket: the validator returns exactly the records of
    [A], under whatever limits the interpreter runs. *)
Theorem validate_recovers_embedded_array (lim : Limits) (p b q : str) (A : list json) :
  startswith [Ch.lbracket] b = true ->
  endswith [Ch.rbracket] b = true ->
  json_loads lim b = Ok (JList A) ->
  Ch.lbracket ∉ p ->
  Ch.rbracket ∉ q ->
  validate_json_output lim (p ++ b ++ q) = Ok A.
Proof.
  intros Hstart Hend Hloads Hp Hq.
  apply startswith_spec in Hstart as [t ->].
  apply endswith_spec in Hend as [u Hu].
  destruct u as [|c m].
  { exfalso. cbn [app] in Hu. injection Hu as Hc _. by vm_compute in Hc. }
  cbn [app] in Hu. injection Hu as <- ->.
  rewrite (validate_embedded lim m).
  - cbn [app] in Hloads. by rewrite Hloads.
  - exists p, q. split; [|done]. cbn [app]. by rewrite <- (assoc_L (++)).
Qed.

Lemma validate_recovers_embedded_array_witness :
  validate_json_output default_limits
    ((py "Here is the result: ```json" ++ [Ch.newline])
     ++ pyq "[{'name': 'Ivanov', 'rank': null}, {'name': 'Petrov', 'rank': 2}]"
     ++ (Ch.newline :: py "``` (2 records)"))
  = Ok [JDict [(py "name", JStr (py "Ivanov")); (py "rank", JNull)];
        JDict [(py "name", JStr (py "Petrov")); (py "rank", JInt 2)]].
Proof.
  apply validate_recovers_embedded_array.
  - vm_compute. reflexivity.
  - vm_compute. reflexivity.
  - vm_compute. reflexivity.
  - apply (bool_decide_unpack _). vm_compute. exact I.
  - apply (bool_decide_unpack _). vm_compute. exact I.
Defined.

(** C3 (as stated) fails: a bracket in the surrounding text moves the cut.
    The array [[2]] after the text [see [1]: ] is not recovered. *)
Lemma validate_arbitrary_surrounding_text_fails :
  ~ (forall (lim : Limits) (p b q : str) (A : list json),
       startswith [Ch.lbracket] b = true ->
       endswith [Ch.rbracket] b = true ->
       json_loads lim b = Ok (JList A) ->
       validate_json_output lim (p ++ b ++ q) = Ok A).
Proof.
  intros H.
  specialize (H default_limits (py "see [1]: ") (py "[2]") [] [JInt 2]
                eq_refl eq_refl eq_refl).
  vm_compute in H. discriminate H.
Qed.

(** C4.  A lone JSON object is not wrapped: the text of an object without
    brackets is rejected with [JSONDecodeError] before it is decoded, and of
    an object that holds an array only that array is returned, although
    [json.loads] decodes both texts to a dictionary.  This holds under any
    limits of the interpreter that leave room for two levels of nesting. *)
Theorem lone_object_is_not_wrapped (lim : Limits) :
  (2 <= recursion_limit lim)%nat ->
  json_loads lim (pyq "{'name': 'Ivanov'}") = Ok (JDict [(py "name", JStr (py "Ivanov"))])
  ∧ validate_json_output lim (pyq "{'name': 'Ivanov'}") = Raise JSONDecodeError
  ∧ json_loads lim (pyq "{'ids': [1, 2]}")
    = Ok (JDict [(py "ids", JList [JInt 1; JInt 2])])
  ∧ validate_json_output lim (pyq "{'ids': [1, 2]}") = Ok [JInt 1; JInt 2].
Proof.
  destruct lim as [digits [|[|depth]]]; cbn [recursion_limit]; [lia..|]. intros _.
  repeat split; vm_compute; reflexivity.
Qed.

Lemma lone_object_is_not_wrapped_witness :
  json_loads default_limits (pyq "{'name': 'Ivanov'}")
  = Ok (JDict [(py "name", JStr (py "Ivanov"))])
  ∧ validate_json_output default_limits (pyq "{'name': 'Ivanov'}") = Raise JSONDecodeError
  ∧ json_loads default_limits (pyq "{'ids': [1, 2]}")
    = Ok (JDict [(py "ids", JList [JInt 1; JInt 2])])
  ∧ validate_json_output default_limits (pyq "{'ids': [1, 2]}") = Ok [JInt 1; JInt 2].
Proof.
  apply (lone_object_is_not_wrapped default_limits). vm_compute. lia.
Defined.

(** ** Cost of a call *)

Lemma token_cost_zero (rate : Q) : (token_cost 0 rate == 0)%Q.
Proof. unfold token_cost. change (inject_Z 0) with 0%Q. field. Qed.

(** The usage dictionary the client builds from the counts the API reports:
    the three counts are taken over, and the thinking tokens used are the
    part of the reported total that is neither prompt nor output, never less
    than zero, when thinking is enabled, and zero otherwise. *)
Lemma client_usage_reported cfg env c log_thinking response reported r :
  generate_content env c = Ok response ->
  api_usage_metadata response = Some reported ->
  generate_content_body cfg env c log_thinking = Ok r ->
  let derived :=
    (0 `max` (api_total_token_count reported - api_prompt_token_count reported
              - api_candidates_token_count reported))%Z in
  usage_metadata r
  = Some {| prompt_token_count := api_prompt_token_count reported;
            candidates_token_count := api_candidates_token_count reported;
            total_token_count := api_total_token_count reported;
            thinking_enabled := log_thinking;
            thinking_budget := if log_thinking then THINKING_BUDGET cfg else 0%Z;
            thinking_tokens_used := Some (if log_thinking then derived else 0%Z);
            thinking_budget_exceeded :=
              Some (if log_thinking
                    then bool_decide (derived > THINKING_BUDGET cfg)%Z
                    else false);
            is_estimated := None |}.
Proof.
  intros Hgen Hrep Hr derived. subst derived.
  unfold generate_content_body in Hr. rewrite Hgen in Hr. cbn in Hr.
  assert (forall n t, response_usage cfg env log_thinking n response t
                      = Some {| prompt_token_count := api_prompt_token_count reported;
                                candidates_token_count := api_candidates_token_count reported;
                                total_token_count := api_total_token_count reported;
                                thinking_enabled := log_thinking;
                                thinking_budget :=
                                  if log_thinking then THINKING_BUDGET cfg else 0%Z;
                                thinking_tokens_used :=
                                  Some (if log_thinking
                                        then (0 `max` (api_total_token_count reported
                                                       - api_prompt_token_count reported
                                                       - api_candidates_token_count reported))%Z
                                        else 0%Z);
                                thinking_budget_exceeded :=
                                  Some (if log_thinking
                                        then bool_decide
                                               ((0 `max` (api_total_token_count reported
                                                          - api_prompt_token_count reported
                                                          - api_candidates_token_count reported))
                                                > THINKING_BUDGET cfg)%Z
                                        else false);
                                is_estimated := None |}) as Hu.
  { intros n t. unfold response_usage. rewrite Hrep. by destruct log_thinking. }
  destruct (block_reason response).
  - cbn in Hr. injection Hr as <-. apply Hu.
  - destruct (has_content_parts response); cbn in Hr.
    + destruct (response_text response); [|done]. cbn in Hr. injection Hr as <-. apply Hu.
    + destruct (response_text response); [|done].
      destruct (bool_decide _); cbn in Hr; injection Hr as <-; apply Hu.
Qed.

(** The cost computed for a usage record whose thinking-token count is not
    negative. *)
Lemma calculated_cost cfg u w :
  CALCULATE_COST cfg = true ->
  (0 <= default 0 (thinking_tokens_used u))%Z ->
  let pricing := get_model_pricing cfg in
  exists cost,
    (_calculate_and_log_cost cfg (Some u) w).1 = Ok cost
    ∧ (cost == inject_Z (prompt_token_count u) / 1000000
               * default 0 (input_cost_per_million_tokens pricing)
               + inject_Z (candidates_token_count u) / 1000000
                 * default 0 (output_cost_per_million_tokens pricing)
               + (if thinking_enabled u
                  then inject_Z (default 0%Z (thinking_tokens_used u)) / 1000000
                       * default 0 (thinking_cost_per_million_tokens pricing)
                  else 0))%Q.
Proof.
  intros Hcalc Hused pricing.
  unfold _calculate_and_log_cost. rewrite Hcalc. cbn.
  eexists. split; [reflexivity|]. subst pricing. fold (token_cost).
  apply Qplus_comp; [reflexivity|].
  destruct (thinking_enabled u); [|reflexivity]. cbn.
  case_bool_decide; [reflexivity|].
  replace (default 0%Z (thinking_tokens_used u)) with 0%Z by lia.
  symmetry. apply token_cost_zero.
Qed.

(** C7.  With cost calculation enabled, the cost computed for a usage record
    (with a thinking-token count that is not negative) under the pricing of
    the model is input tokens / 1e6 times the input rate, plus output tokens
    / 1e6 times the output rate, plus, when thinking is enabled, thinking
    tokens used / 1e6 times the thinking rate; the worker of the parallel
    mode computes the same amount.  The usage record the client builds for a
    response takes over the prompt, output and total counts the API reports
    and stores as thinking tokens used max(0, total - prompt - output) of
    these reported counts when thinking is enabled, and zero otherwise; so
    the cost of a call is input / 1e6 times the input rate plus output / 1e6
    times the output rate plus, with thinking enabled, max(0, total - prompt
    - output) / 1e6 times the thinking rate, all of the counts reported. *)
Theorem call_cost_formula (cfg : Config) (env : Env) (c : content) (log_thinking : bool)
    (response : ApiResponse) (reported : ApiUsage) (r : LLMResponse)
    (u : UsageMetadata) (w : World) :
  CALCULATE_COST cfg = true ->
  (0 <= default 0 (thinking_tokens_used u))%Z ->
  generate_content env c = Ok response ->
  api_usage_metadata response = Some reported ->
  generate_content_body cfg env c log_thinking = Ok r ->
  let pricing := get_model_pricing cfg in
  let formula :=
    (inject_Z (prompt_token_count u) / 1000000
       * default 0 (input_cost_per_million_tokens pricing)
     + inject_Z (candidates_token_count u) / 1000000
       * default 0 (output_cost_per_million_tokens pricing)
     + (if thinking_enabled u
        then inject_Z (default 0%Z (thinking_tokens_used u)) / 1000000
             * default 0 (thinking_cost_per_million_tokens pricing)
        else 0))%Q in
  let derived :=
    (0 `max` (api_total_token_count reported - api_prompt_token_count reported
              - api_candidates_token_count reported))%Z in
  (exists cost, (_calculate_and_log_cost cfg (Some u) w).1 = Ok cost ∧ (cost == formula)%Q)
  ∧ (worker_file_cost cfg u == formula)%Q
  ∧ exists built,
      usage_metadata r = Some built
      ∧ prompt_token_count built = api_prompt_token_count reported
      ∧ candidates_token_count built = api_candidates_token_count reported
      ∧ total_token_count built = api_total_token_count reported
      ∧ thinking_enabled built = log_thinking
      ∧ thinking_tokens_used built = Some (if log_thinking then derived else 0%Z)
      ∧ exists cost,
          (_calculate_and_log_cost cfg (Some built) w).1 = Ok cost
          ∧ (cost == inject_Z (api_prompt_token_count reported) / 1000000
                     * default 0 (input_cost_per_million_tokens pricing)
                     + inject_Z (api_candidates_token_count reported) / 1000000
                       * default 0 (output_cost_per_million_tokens pricing)
                     + (if log_thinking
                        then inject_Z derived / 1000000
                             * default 0 (thinking_cost_per_million_tokens pricing)
                        else 0))%Q.
Proof.
  intros Hcalc Hused Hgen Hrep Hr pricing formula derived. split; [|split].
  - by apply calculated_cost.
  - unfold worker_file_cost. subst formula pricing.
    apply Qplus_comp; [reflexivity|].
    destruct (thinking_enabled u); reflexivity.
  - pose proof (client_usage_reported cfg env c log_thinking response reported r
                  Hgen Hrep Hr) as Hbuilt.
    cbv zeta in Hbuilt. fold derived in Hbuilt.
    eexists. split; [exact Hbuilt|]. cbn. split_and!; try done.
    match goal with
    | |- context [_calculate_and_log_cost cfg (Some ?b) w] =>
      destruct (calculated_cost cfg b w Hcalc) as (cost & Hcost & Heq)
    end.
    { cbn. subst derived. destruct log_thinking; lia. }
    exists cost. split; [exact Hcost|]. rewrite Heq. cbn. subst pricing.
    by destruct log_thinking.
Qed.

Lemma call_cost_formula_witness :
  let reported :=
    {| api_prompt_token_count := 1000000; api_candidates_token_count := 500000;
       api_total_token_count := 1700000 |} in
  (exists cost,
     (_calculate_and_log_cost example_config (Some example_usage)
        (fresh example_config None)).1 = Ok cost
     ∧ (cost == 115 # 100)%Q)
  ∧ exists built,
      usage_metadata (_generate_content example_config thinking_env
                        (ImageContent (py "scans/a.png")) true) = Some built
      ∧ prompt_token_count built = 1000000%Z
      ∧ candidates_token_count built = 500000%Z
      ∧ total_token_count built = 1700000%Z
      ∧ thinking_enabled built = true
      ∧ thinking_tokens_used built = Some 200000%Z
      ∧ exists cost,
          (_calculate_and_log_cost example_config (Some built)
             (fresh example_config None)).1 = Ok cost
          ∧ (cost == 115 # 100)%Q.
Proof.
  intros reported.
  destruct (call_cost_formula example_config thinking_env
              (ImageContent (py "scans/a.png")) true
              thinking_response reported _ example_usage (fresh example_config None)
              eq_refl ltac:(vm_compute; discriminate) eq_refl eq_refl eq_refl)
    as ((cost & Hcost & Hformula) & _ & (built & Hbuilt & Hp & Hc & Ht & He & Hu
                                            & cost' & Hcost' & Hformula')).
  split.
  - exists cost. split; [exact Hcost|]. rewrite Hformula. vm_compute. reflexivity.
  - exists built. split_and!; try done.
    exists cost'. split; [exact Hcost'|]. rewrite Hformula'. vm_compute. reflexivity.
Defined.

(** ** File discovery *)

Lemma filter_sublist {A} (f : A -> bool) (l : list A) : List.filter f l `sublist_of` l.
Proof.
  induction l as [|x l IH]; simpl; [constructor|].
  destruct (f x); by constructor.
Qed.

Lemma elem_of_filter {A} (f : A -> bool) (l : list A) (x : A) :
  x ∈ List.filter f l <-> x ∈ l ∧ f x = true.
Proof. rewrite !list_elem_of_In. apply filter_In. Qed.

(** C8 (as amended).  File discovery raises [NotADirectoryError] when the
    root is not a directory; otherwise it returns the files of the directory
    enumeration that are regular files with a supported extension, compared
    without regard to case: exactly those, each as often as the enumeration
    yields it, and in the order of the enumeration. *)
Theorem discovery_filters_the_enumeration (env : Env) (directory_path : str)
    (recursive : bool) :
  match get_files_from_directory env directory_path recursive with
  | Raise e => e = NotADirectoryError ∧ is_dir env directory_path = false
  | Ok files =>
    let listing := glob env directory_path (if recursive then py "**/*" else py "*") in
    is_dir env directory_path = true
    ∧ files `sublist_of` listing
    ∧ forall f, f ∈ files <->
        f ∈ listing ∧ is_file env f = true ∧ lower (suffix f) ∈ supported_extensions
  end.
Proof.
  unfold get_files_from_directory.
  destruct (is_dir env directory_path); cbn; [|done].
  split; [done|]. split; [apply filter_sublist|].
  intros f. rewrite elem_of_filter, andb_true_iff. unfold str_in.
  rewrite bool_decide_eq_true. tauto.
Qed.

(** C8 (as stated) fails: the order of the result is the order in which the
    directory is enumerated.  Two enumerations of the same two files give two
    different sequences, and the first is not in lexicographic order. *)
Lemma discovery_order_follows_enumeration :
  ~ (forall (env1 env2 : Env) (directory_path : str) (recursive : bool),
       is_dir env1 directory_path = true ->
       is_dir env2 directory_path = true ->
       (forall f, is_file env1 f = is_file env2 f) ->
       (forall pattern, glob env1 directory_path pattern
                        ≡ₚ glob env2 directory_path pattern) ->
       get_files_from_directory env1 directory_path recursive
       = get_files_from_directory env2 directory_path recursive).
Proof.
  intros H.
  specialize (H (example_env [py "scans/b.txt"; py "scans/a.png"] example_reply true)
                (example_env [py "scans/a.png"; py "scans/b.txt"] example_reply true)
                (py "scans") false eq_refl eq_refl (fun _ => eq_refl)
                (fun _ => Permutation_swap _ _ [])).
  vm_compute in H. discriminate H.
Qed.

(** ** One file *)

(** The cost calculation never raises and touches only the usage list. *)
Lemma calculate_cost_effect cfg u w :
  exists cost w', _calculate_and_log_cost cfg u w = (Ok cost, w')
    ∧ checkpoint_file w' = checkpoint_file w
    ∧ total_cost (self w') = total_cost (self w)
    ∧ run_metadata (self w') = run_metadata (self w)
    ∧ processed_files (self w') = processed_files (self w)
    ∧ file_status (self w') = file_status (self w)
    ∧ all_data (self w') = all_data (self w).
Proof.
  unfold _calculate_and_log_cost. unfold_monad.
  destruct (CALCULATE_COST cfg), u; cbn; eauto 10.
Qed.

(** What [process_file] does to the ledger, the counters, the processed-files
    set and the checkpoint file; it never raises. *)
Lemma process_file_effect cfg env p w :
  exists res w', process_file cfg env p w = (Ok res, w')
    ∧ (is_Some res <-> file_ok cfg env p = true)
    ∧ file_status (self w')
      = (if file_ok cfg env p then append_successful p else append_failed p)
          (file_status (self w))
    ∧ processed_files (self w')
      = (if file_ok cfg env p then {[p]} ∪ processed_files (self w)
         else processed_files (self w))
    ∧ checkpoint_file w'
      = (if file_ok cfg env p && ENABLE_CHECKPOINTING cfg && checkpoint_writable env
         then Some (elements ({[p]} ∪ processed_files (self w)))
         else checkpoint_file w)
    ∧ total_files (run_metadata (self w')) = S (total_files (run_metadata (self w))).
Proof.
  destruct w as [[tc ul rm pf fs ad] ck].
  unfold file_ok, process_file, process_file_handlers, _calculate_and_log_cost,
    save_to_excel, _save_checkpoint, write_checkpoint.
  unfold_monad. cbn.
  assert (forall n, (n + 1 = S n)%nat) as Hn by lia.
  destruct (read_file env p) as [fd|e]; cbn.
  2:{ destruct e; cbn; finish_effect Hn. }
  destruct (recognize cfg env fd) as [r|]; cbn.
  2:{ finish_effect Hn. }
  destruct (error r); cbn.
  { destruct (CALCULATE_COST cfg), (usage_metadata r); cbn; finish_effect Hn. }
  destruct (validate_json_output (limits env) (text r)) as [records|e].
  2:{ destruct (CALCULATE_COST cfg), (usage_metadata r), e; cbn; finish_effect Hn. }
  destruct (CALCULATE_COST cfg), (usage_metadata r),
    (bool_decide (records = [])), (make_dataframe env records),
    (to_excel env records (fd_filename fd)),
    (ENABLE_CHECKPOINTING cfg), (checkpoint_writable env); cbn; finish_effect Hn.
Qed.

(** ** The two loops *)

Lemma filter_not_in_ext (f : str -> bool) (pf : gset str) (q : str) (l : list str) (b : bool) :
  q ∉ l ->
  List.filter (fun x => not_in (if b then {[q]} ∪ pf else pf) x && f x) l
  = List.filter (fun x => not_in pf x && f x) l.
Proof.
  intros Hq. apply filter_ext_in. intros x Hx. apply list_elem_of_In in Hx.
  f_equal. unfold not_in. f_equal. destruct b; [|done].
  apply bool_decide_ext. set_solver.
Qed.

Lemma filter_in_ext (pf : gset str) (q : str) (l : list str) (b : bool) :
  q ∉ l ->
  List.filter (fun x => negb (not_in (if b then {[q]} ∪ pf else pf) x)) l
  = List.filter (fun x => negb (not_in pf x)) l.
Proof.
  intros Hq. apply filter_ext_in. intros x Hx. apply list_elem_of_In in Hx.
  unfold not_in. do 2 f_equal. destruct b; [|done].
  apply bool_decide_ext. set_solver.
Qed.

Lemma filter_dispatch_ext (pf : gset str) (q : str) (l : list str) (b : bool) :
  q ∉ l ->
  List.filter (not_in (if b then {[q]} ∪ pf else pf)) l = List.filter (not_in pf) l.
Proof.
  intros Hq. apply filter_ext_in. intros x Hx. apply list_elem_of_In in Hx.
  unfold not_in. f_equal. destruct b; [|done].
  apply bool_decide_ext. set_solver.
Qed.

(** The sequential loop over distinct files: which file lands in which
    list, what is added to the processed-files set and written to the
    checkpoint file, and how many files are counted.  It never raises. *)
Lemma sequential_loop_effect cfg env files :
  NoDup files ->
  forall w, exists w', sequential_loop cfg env files w = (Ok tt, w')
    ∧ successful (file_status (self w'))
      = successful (file_status (self w))
        ++ List.filter (fun q => not_in (processed_files (self w)) q && file_ok cfg env q) files
    ∧ failed (file_status (self w'))
      = failed (file_status (self w))
        ++ List.filter (fun q => not_in (processed_files (self w)) q
                                 && negb (file_ok cfg env q)) files
    ∧ skipped (file_status (self w'))
      = skipped (file_status (self w))
        ++ List.filter (fun q => negb (not_in (processed_files (self w)) q)) files
    ∧ processed_files (self w')
      = processed_files (self w)
        ∪ list_to_set (List.filter (fun q => not_in (processed_files (self w)) q
                                             && file_ok cfg env q) files)
    ∧ checkpoint_file w'
      = (if ENABLE_CHECKPOINTING cfg && checkpoint_writable env
         then match List.filter (fun q => not_in (processed_files (self w)) q
                                          && file_ok cfg env q) files with
              | [] => checkpoint_file w
              | _ :: _ => Some (elements (processed_files (self w')))
              end
         else checkpoint_file w)
    ∧ total_files (run_metadata (self w'))
      = (total_files (run_metadata (self w))
         + length (List.filter (not_in (processed_files (self w))) files))%nat.
Proof.
  induction 1 as [|q rest Hq Hnd IH]; intros w.
  - exists w. cbn. rewrite !app_nil_r, union_empty_r_L, Nat.add_0_r.
    repeat split; try done. by destruct (_ && _).
  - cbn [sequential_loop List.filter]. unfold_monad.
    change (not_in (processed_files (self w)) q)
      with (negb (bool_decide (q ∈ processed_files (self w)))).
    destruct (bool_decide (q ∈ processed_files (self w))) eqn:Hin; cbn [negb andb].
    + destruct (IH {| self := set_file_status (append_skipped q (file_status (self w)))
                                (self w);
                      checkpoint_file := checkpoint_file w |})
        as (w' & -> & Hs & Hf & Hk & Hp & Hc & Ht).
      exists w'. destruct w as [[tc ul rm pf fs ad] ck]. cbn in *.
      rewrite Hs, Hf, Hk, Hc, Hp, Ht, <- (assoc_L (++)). done.
    + destruct (process_file_effect cfg env q w)
        as (res & w1 & -> & _ & Hs1 & Hp1 & Hc1 & Ht1). cbn.
      destruct (IH w1) as (w' & -> & Hs & Hf & Hk & Hp & Hc & Ht).
      exists w'. rewrite Hp1 in *. rewrite Hs1 in *.
      rewrite (filter_not_in_ext (file_ok cfg env)) in * by done.
      rewrite (filter_not_in_ext (fun x => negb (file_ok cfg env x))) in Hf by done.
      rewrite filter_in_ext in Hk by done.
      rewrite filter_dispatch_ext in Ht by done.
      rewrite Hs, Hf, Hk, Hc, Ht, Ht1, Hc1. clear Hs Hf Hk Hc Ht Ht1 Hc1 Hs1 Hp1.
      destruct (file_ok cfg env q); cbn;
        rewrite <- ?(assoc_L (++)); (split; [done|]); repeat split; try done; try lia.
      * rewrite Hp. set_solver.
      * destruct (ENABLE_CHECKPOINTING cfg && checkpoint_writable env); [|done].
        destruct (List.filter _ rest); [|done].
        rewrite Hp. cbn. by rewrite union_empty_r_L.
Qed.

(** The tuple a worker returns does not depend on the checkpoint file; its
    status is success exactly for a file that passes the three stages, and
    only then is the checkpoint file updated. *)
Lemma wrapper_effect cfg env p on_disk :
  (_process_file_wrapper cfg env p on_disk).1 = (_process_file_wrapper cfg env p None).1
  ∧ (_process_file_wrapper cfg env p on_disk).1.1.2
    = (if file_ok cfg env p then success else failed_status)
  ∧ (_process_file_wrapper cfg env p on_disk).2
    = (if file_ok cfg env p && ENABLE_CHECKPOINTING cfg
       then worker_checkpoint_update env p on_disk else on_disk).
Proof.
  unfold _process_file_wrapper, file_ok.
  destruct (read_file env p) as [fd|]; [|done].
  destruct (recognize cfg env fd) as [r|]; [|done].
  destruct (error r); [done|].
  destruct (validate_json_output (limits env) (text r)); [|done].
  by destruct (ENABLE_CHECKPOINTING cfg).
Qed.

Lemma submit_effect cfg env p w :
  submit cfg env p w = (Ok (future_of cfg env p), w).
Proof.
  unfold submit, future_of.
  destruct (worker_exit env p); [|done].
  by rewrite (proj1 (wrapper_effect cfg env p (checkpoint_file w))).
Qed.

Lemma future_of_status cfg env p :
  match future_of cfg env p with
  | Ok (_, _, success, _) => worker_ok cfg env p = true
  | _ => worker_ok cfg env p = false
  end.
Proof.
  unfold future_of, worker_ok. destruct (worker_exit env p); [|done].
  destruct (wrapper_effect cfg env p None) as (_ & H & _).
  destruct (_process_file_wrapper cfg env p None) as [[[[res cost] st] u] ck'].
  cbn in *. subst st. by destruct (file_ok cfg env p).
Qed.

(** The submission loop: the files already processed are skipped, every
    other file gets a future. *)
Lemma submit_all_effect cfg env files :
  forall w, exists w',
    submit_all cfg env files w
    = (Ok ((fun q => (q, future_of cfg env q))
             <$> List.filter (not_in (processed_files (self w))) files), w')
    ∧ successful (file_status (self w')) = successful (file_status (self w))
    ∧ failed (file_status (self w')) = failed (file_status (self w))
    ∧ skipped (file_status (self w'))
      = skipped (file_status (self w))
        ++ List.filter (fun q => negb (not_in (processed_files (self w)) q)) files
    ∧ processed_files (self w') = processed_files (self w)
    ∧ run_metadata (self w') = run_metadata (self w)
    ∧ checkpoint_file w' = checkpoint_file w.
Proof.
  induction files as [|q rest IH]; intros w.
  - exists w. cbn. rewrite app_nil_r. done.
  - cbn [submit_all List.filter]. unfold_monad.
    change (not_in (processed_files (self w)) q)
      with (negb (bool_decide (q ∈ processed_files (self w)))).
    destruct (bool_decide (q ∈ processed_files (self w))) eqn:Hin; cbn [negb andb].
    + destruct (IH {| self := set_file_status (append_skipped q (file_status (self w)))
                                (self w);
                      checkpoint_file := checkpoint_file w |})
        as (w' & -> & Hs & Hf & Hk & Hp & Hr & Hc).
      exists w'. destruct w as [[tc ul rm pf fs ad] ck]. cbn in *.
      rewrite Hs, Hf, Hk, Hc, Hp, Hr, <- (assoc_L (++)). done.
    + rewrite submit_effect.
      destruct (IH w) as (w' & -> & Hs & Hf & Hk & Hp & Hr & Hc).
      exists w'. cbn in *. by rewrite Hs, Hf, Hk, Hc, Hp, Hr.
Qed.

(** Collecting one future never raises; the file is listed as successful
    for a success tuple and as failed for anything else. *)
Lemma collect_effect env p (future : result WorkerResult) w :
  exists w', collect env p future w = (Ok tt, w')
    ∧ file_status (self w')
      = (match future with
         | Ok (_, _, success, _) => append_successful p
         | _ => append_failed p
         end) (file_status (self w))
    ∧ processed_files (self w') = processed_files (self w)
    ∧ checkpoint_file w' = checkpoint_file w
    ∧ total_files (run_metadata (self w')) = S (total_files (run_metadata (self w))).
Proof.
  destruct w as [[tc ul rm pf fs ad] ck].
  assert (forall n, (n + 1 = S n)%nat) as Hn by lia.
  unfold collect, collect_result, save_to_excel. unfold_monad.
  destruct future as [[[[res cost] st] u]|e]; cbn.
  2:{ eexists. split; [reflexivity|]. cbn. by rewrite Hn. }
  destruct st; cbn.
  - destruct res as [[|r records]|]; cbn;
      repeat match goal with
             | |- context [make_dataframe env ?d] => destruct (make_dataframe env d); cbn
             | |- context [to_excel env ?d ?f] => destruct (to_excel env d f); cbn
             end;
      destruct (Qgtb cost 0), u; cbn;
      (eexists; split; [reflexivity|]; cbn; by rewrite ?Hn).
  - destruct (Qgtb cost 0), u; cbn;
      (eexists; split; [reflexivity|]; cbn; by rewrite ?Hn).
Qed.

Lemma collect_all_effect cfg env files :
  forall w, exists w',
    collect_all env ((fun q => (q, future_of cfg env q)) <$> files) w = (Ok tt, w')
    ∧ successful (file_status (self w'))
      = successful (file_status (self w)) ++ List.filter (worker_ok cfg env) files
    ∧ failed (file_status (self w'))
      = failed (file_status (self w))
        ++ List.filter (fun q => negb (worker_ok cfg env q)) files
    ∧ skipped (file_status (self w')) = skipped (file_status (self w))
    ∧ processed_files (self w') = processed_files (self w)
    ∧ checkpoint_file w' = checkpoint_file w
    ∧ total_files (run_metadata (self w'))
      = (total_files (run_metadata (self w)) + length files)%nat.
Proof.
  induction files as [|q rest IH]; intros w.
  - exists w. cbn. rewrite !app_nil_r, Nat.add_0_r. done.
  - cbn [collect_all fmap list_fmap List.filter length]. unfold mbind, M_bind.
    destruct (collect_effect env q (future_of cfg env q) w) as (w1 & -> & Hs1 & Hp1 & Hc1 & Ht1).
    destruct (IH w1) as (w' & -> & Hs & Hf & Hk & Hp & Hc & Ht).
    exists w'. rewrite Hs, Hf, Hk, Hp, Hc, Ht, Hs1, Hp1, Hc1, Ht1.
    pose proof (future_of_status cfg env q) as Hst.
    destruct (future_of cfg env q) as [[[[res cost] []] u]|e]; rewrite Hst; cbn;
      rewrite <- ?(assoc_L (++)); repeat split; try done; lia.
Qed.

(** ** The checkpoint file when the pool is left *)

Lemma filter_filter {A} (f g : A -> bool) (l : list A) :
  List.filter f (List.filter g l) = List.filter (fun x => g x && f x) l.
Proof.
  induction l as [|x l IH]; [done|]. cbn.
  destruct (g x); cbn; [|done]. destruct (f x); by rewrite IH.
Qed.

Lemma writers_futures cfg env (l : list str) :
  writers ((fun q => (q, future_of cfg env q)) <$> l) = List.filter (worker_ok cfg env) l.
Proof.
  unfold writers. induction l as [|q l IH]; [done|].
  cbn [fmap list_fmap List.filter snd].
  pose proof (future_of_status cfg env q) as Hst.
  destruct (future_of cfg env q) as [[[[res cost] []] u]|e]; rewrite Hst; cbn;
    by rewrite <- IH.
Qed.

Lemma ran_futures cfg env (l : list str) :
  List.filter (file_ok cfg env) (ran ((fun q => (q, future_of cfg env q)) <$> l))
  = List.filter (worker_ok cfg env) l.
Proof.
  unfold ran. induction l as [|q l IH]; [done|].
  cbn [fmap list_fmap List.filter snd]. unfold future_of at 1.
  assert (worker_ok cfg env q
          = match worker_exit env q with
            | Ok _ => file_ok cfg env q
            | Raise _ => false
            end) as -> by reflexivity.
  destruct (worker_exit env q); [|done].
  cbn [fmap list_fmap fst List.filter].
  destruct (file_ok cfg env q); by rewrite IH.
Qed.

(** Workers that run one after the other: those that succeed update the
    file in turn, the others leave it alone. *)
Lemma run_workers_eq cfg env (l : list str) :
  forall on_disk,
    run_workers cfg env l on_disk
    = (if ENABLE_CHECKPOINTING cfg
       then workers_checkpoint env on_disk (List.filter (file_ok cfg env) l)
       else on_disk).
Proof.
  unfold workers_checkpoint. induction l as [|q l IH]; intros on_disk.
  - by destruct (ENABLE_CHECKPOINTING cfg).
  - cbn [run_workers List.filter]. rewrite IH.
    rewrite (proj2 (proj2 (wrapper_effect cfg env q on_disk))).
    destruct (file_ok cfg env q), (ENABLE_CHECKPOINTING cfg); done.
Qed.

Lemma pool_checkpoint_eq cfg env pool (l : list str) on_disk :
  pool_checkpoint cfg env pool ((fun q => (q, future_of cfg env q)) <$> l) on_disk
  = (if ENABLE_CHECKPOINTING cfg then
       if (pool =? 1)%positive || Nat.leb (length (List.filter (worker_ok cfg env) l)) 1
       then workers_checkpoint env on_disk (List.filter (worker_ok cfg env) l)
       else if checkpoint_writable env
            then racy_checkpoint env on_disk (List.filter (worker_ok cfg env) l)
            else on_disk
     else on_disk).
Proof.
  unfold pool_checkpoint. rewrite writers_futures, run_workers_eq, ran_futures.
  destruct (ENABLE_CHECKPOINTING cfg); [done|]. by destruct (_ || _).
Qed.

(** ** A directory run *)

Lemma get_combined_dataframe_effect env w :
  exists records, get_combined_dataframe env w = (Ok records, w).
Proof.
  unfold get_combined_dataframe. unfold_monad.
  destruct (bool_decide _); [by eauto|].
  destruct (make_dataframe env _); by eauto.
Qed.

Lemma reset_run_eq cfg recursive parallel max_workers w :
  reset_run cfg recursive parallel max_workers w
  = (Ok tt, reset_world cfg recursive parallel max_workers w).
Proof. reflexivity. Qed.

Lemma load_checkpoint_effect cfg w :
  exists w', _load_checkpoint cfg w = (Ok tt, w')
    ∧ processed_files (self w') = loaded_checkpoint cfg w
    ∧ file_status (self w') = file_status (self w)
    ∧ run_metadata (self w') = run_metadata (self w)
    ∧ checkpoint_file w' = checkpoint_file w.
Proof.
  unfold _load_checkpoint, loaded_checkpoint.
  destruct (RESUME_FROM_CHECKPOINT cfg); [|by eauto 10].
  destruct (checkpoint_file w) eqn:E; eexists; (split; [reflexivity|]); cbn; eauto.
Qed.

(** A directory run over distinct files never raises.  Of the discovered
    files, those in the loaded checkpoint are skipped; each of the others is
    counted and lands in the successful or in the failed list, by its own
    outcome alone. *)
Lemma process_directory_effect cfg env directory_path recursive parallel max_workers
    files w :
  get_files_from_directory env directory_path recursive = Ok files ->
  NoDup files ->
  exists records w',
    process_directory cfg env directory_path recursive parallel max_workers w
    = (Ok records, w')
    ∧ successful (file_status (self w'))
      = successful (file_status (self w))
        ++ List.filter (fun q => not_in (loaded_checkpoint cfg w) q
                                 && mode_ok cfg env parallel q) files
    ∧ failed (file_status (self w'))
      = failed (file_status (self w))
        ++ List.filter (fun q => not_in (loaded_checkpoint cfg w) q
                                 && negb (mode_ok cfg env parallel q)) files
    ∧ skipped (file_status (self w'))
      = skipped (file_status (self w))
        ++ List.filter (fun q => negb (not_in (loaded_checkpoint cfg w) q)) files
    ∧ total_files (run_metadata (self w'))
      = length (List.filter (not_in (loaded_checkpoint cfg w)) files)
    ∧ checkpoint_file w'
      = checkpoint_after cfg env parallel max_workers (loaded_checkpoint cfg w)
          (checkpoint_file w) files.
Proof.
  intros Hfiles Hnd. unfold process_directory, checkpoint_after.
  unfold mbind at 1, M_bind at 1. rewrite reset_run_eq.
  unfold mbind at 1, M_bind at 1. unfold try_except, call.
  unfold mbind at 1, M_bind at 1. rewrite Hfiles. cbn [mret M_ret].
  destruct files as [|f0 files0] eqn:Ef.
  { cbn. do 2 eexists. split; [reflexivity|]. cbn. rewrite !app_nil_r.
    repeat split.
    destruct parallel, (ENABLE_CHECKPOINTING cfg), (checkpoint_writable env); try done;
      by rewrite orb_true_r. }
  rewrite <- Ef in *. clear Ef f0 files0.
  unfold mbind at 1, M_bind at 1.
  destruct (load_checkpoint_effect cfg (reset_world cfg recursive parallel max_workers w))
    as (w0 & -> & Hp0 & Hs0 & Hr0 & Hc0).
  change (loaded_checkpoint cfg (reset_world cfg recursive parallel max_workers w))
    with (loaded_checkpoint cfg w) in Hp0.
  cbn in Hs0, Hr0, Hc0.
  unfold mbind at 1, M_bind at 1. unfold mode_ok. destruct parallel.
  - cbv zeta. unfold mbind at 1, M_bind at 1.
    destruct (submit_all_effect cfg env files w0) as (w1 & -> & Hs1 & Hf1 & Hk1 & Hp1 & Hr1 & Hc1).
    unfold mbind at 1, M_bind at 1.
    destruct (collect_all_effect cfg env
                (List.filter (not_in (processed_files (self w0))) files) w1)
      as (w2 & -> & Hs & Hf & Hk & Hp & Hc & Ht).
    unfold join_workers. rewrite pool_checkpoint_eq.
    match goal with
    | |- context [get_combined_dataframe env ?w'] =>
      destruct (get_combined_dataframe_effect env w') as (records & ->)
    end.
    do 2 eexists. split; [reflexivity|]. cbn [self checkpoint_file].
    rewrite Hs, Hf, Hk, Hc, Ht, Hs1, Hf1, Hk1, Hc1, Hr1, Hp0, Hs0, Hr0, Hc0.
    rewrite !filter_filter. cbn. done.
  - destruct (sequential_loop_effect cfg env files Hnd w0)
      as (w' & -> & Hs & Hf & Hk & Hp & Hc & Ht).
    destruct (get_combined_dataframe_effect env w') as (records & ->).
    do 2 eexists. split; [reflexivity|].
    rewrite Hs, Hf, Hk, Hc, Ht, Hp, Hp0, Hs0, Hr0, Hc0. cbn. done.
Qed.

Lemma filter_complement {A} (f : A -> bool) (l : list A) :
  List.filter f l ++ List.filter (fun x => negb (f x)) l ≡ₚ l.
Proof.
  induction l as [|x l IH]; [done|]. cbn. destruct (f x); cbn.
  - by rewrite IH.
  - by rewrite <- Permutation_middle, IH.
Qed.

(** The three lists of a run over [files], put together, are [files] up to
    order. *)
Lemma three_way_split {A} (a ok : A -> bool) (files : list A) :
  List.filter (fun q => a q && ok q) files
  ++ List.filter (fun q => a q && negb (ok q)) files
  ++ List.filter (fun q => negb (a q)) files ≡ₚ files.
Proof.
  rewrite (assoc_L (++)), <- !filter_filter.
  by rewrite (filter_complement ok), filter_complement.
Qed.

Lemma discovered_NoDup env directory_path recursive files :
  get_files_from_directory env directory_path recursive = Ok files ->
  NoDup (glob env directory_path (if recursive then py "**/*" else py "*")) ->
  NoDup files.
Proof.
  unfold get_files_from_directory. intros Hfiles Hnd.
  destruct (is_dir env directory_path); [|done]. cbn in Hfiles.
  injection Hfiles as <-. eapply sublist_NoDup; [done|apply filter_sublist].
Qed.

(** ** Claims about a directory run *)

(** When the root is not a directory the run ends after its resets. *)
Lemma process_directory_not_a_directory cfg env directory_path recursive parallel
    max_workers w e :
  get_files_from_directory env directory_path recursive = Raise e ->
  process_directory cfg env directory_path recursive parallel max_workers w
  = (Ok [], reset_world cfg recursive parallel max_workers w).
Proof.
  intros Hfiles. unfold process_directory.
  unfold mbind at 1, M_bind at 1. rewrite reset_run_eq.
  unfold mbind at 1, M_bind at 1. unfold try_except, call.
  unfold mbind at 1, M_bind at 1. rewrite Hfiles.
  unfold get_files_from_directory in Hfiles.
  destruct (is_dir env directory_path); [done|]. by injection Hfiles as <-.
Qed.

(** C2.  On a new extractor, over a directory whose enumeration yields no
    path twice, the successful, failed and skipped lists at the end of
    [process_directory] partition the discovered files: their lengths add up
    to the number of discovered files, together they hold each discovered
    file once, and no path is in two of them. *)
Theorem status_lists_partition_discovered_files (cfg : Config) (env : Env)
    (directory_path : str) (recursive parallel : bool) (max_workers : option positive)
    (on_disk : option (list str)) :
  NoDup (glob env directory_path (if recursive then py "**/*" else py "*")) ->
  let files := discovered env directory_path recursive in
  let ledger :=
    file_status (self (process_directory cfg env directory_path recursive parallel
                         max_workers (fresh cfg on_disk)).2) in
  (length (successful ledger) + length (failed ledger) + length (skipped ledger)
   = length files)%nat
  ∧ successful ledger ++ failed ledger ++ skipped ledger ≡ₚ files
  ∧ forall p,
      ~ (p ∈ successful ledger ∧ p ∈ failed ledger)
      ∧ ~ (p ∈ successful ledger ∧ p ∈ skipped ledger)
      ∧ ~ (p ∈ failed ledger ∧ p ∈ skipped ledger).
Proof.
  intros Hglob files ledger. subst files. unfold discovered.
  destruct (get_files_from_directory env directory_path recursive) as [files|e] eqn:Hfiles.
  2:{ subst ledger. rewrite (process_directory_not_a_directory _ _ _ _ _ _ _ e Hfiles).
      cbn. repeat split; try done; intros [[]%elem_of_nil _]. }
  pose proof (discovered_NoDup _ _ _ _ Hfiles Hglob) as Hnd.
  destruct (process_directory_effect cfg env directory_path recursive parallel
              max_workers files (fresh cfg on_disk) Hfiles Hnd)
    as (records & w' & Hrun & Hs & Hf & Hk & _).
  subst ledger. rewrite Hrun. cbn [snd] in *. cbn in Hs, Hf, Hk.
  assert (successful (file_status (self w')) ++ failed (file_status (self w'))
          ++ skipped (file_status (self w')) ≡ₚ files) as Hperm.
  { rewrite Hs, Hf, Hk. apply three_way_split. }
  split; [|split; [done|]].
  - rewrite <- (Permutation_length Hperm), !length_app. lia.
  - intros p. rewrite <- Hperm in Hnd.
    apply NoDup_app in Hnd as (_ & H1 & Hnd).
    apply NoDup_app in Hnd as (_ & H2 & _).
    repeat split; intros [Ha Hb].
    + apply (H1 p Ha). apply elem_of_app. by left.
    + apply (H1 p Ha). apply elem_of_app. by right.
    + by apply (H2 p Ha).
Qed.

Lemma status_lists_partition_discovered_files_witness :
  let env := example_env example_files example_reply true in
  let files := discovered env (py "scans") false in
  let ledger :=
    file_status (self (process_directory example_config env (py "scans") false true None
                         (fresh example_config (Some [py "scans/a.png"]))).2) in
  (length (successful ledger) + length (failed ledger) + length (skipped ledger)
   = length files)%nat
  ∧ successful ledger ++ failed ledger ++ skipped ledger ≡ₚ files
  ∧ forall p,
      ~ (p ∈ successful ledger ∧ p ∈ failed ledger)
      ∧ ~ (p ∈ successful ledger ∧ p ∈ skipped ledger)
      ∧ ~ (p ∈ failed ledger ∧ p ∈ skipped ledger).
Proof.
  apply (status_lists_partition_discovered_files example_config
           (example_env example_files example_reply true)
           (py "scans") false true None (Some [py "scans/a.png"])).
  apply (bool_decide_unpack _). vm_compute. exact I.
Defined.

Lemma stage_error_not_ok cfg env p parallel :
  stage_error cfg env p -> mode_ok cfg env parallel p = false.
Proof.
  intros H.
  assert (file_ok cfg env p = false) as Hok.
  { unfold file_ok. destruct H as [e -> | fd -> -> | fd r m -> -> -> | fd r e -> -> -> ->];
      done. }
  unfold mode_ok, worker_ok. rewrite Hok. destruct parallel; [|done].
  by destruct (worker_exit env p).
Qed.

(** C6 (as amended).  In a directory run of a new extractor, in either mode,
    an error of a file while it is read, recognized or validated is caught:
    the run returns normally, the file is in the failed list and not in the
    successful list, every discovered file still gets its place in one of
    the three lists, and every other dispatched file that passes these three
    stages (and, in parallel mode, whose worker stays alive) is in the
    successful list, whether or not its spreadsheet can be written: an error
    of the sink is caught inside [save_to_excel] and fails no file. *)
Theorem stage_errors_fail_the_file_only (cfg : Config) (env : Env)
    (directory_path : str) (recursive parallel : bool) (max_workers : option positive)
    (on_disk : option (list str)) (files : list str) (p : str) :
  get_files_from_directory env directory_path recursive = Ok files ->
  NoDup (glob env directory_path (if recursive then py "**/*" else py "*")) ->
  p ∈ files ->
  p ∉ loaded_checkpoint cfg (fresh cfg on_disk) ->
  stage_error cfg env p ->
  let run := process_directory cfg env directory_path recursive parallel max_workers
               (fresh cfg on_disk) in
  let ledger := file_status (self run.2) in
  (exists records, run.1 = Ok records)
  ∧ p ∈ failed ledger
  ∧ (p ∉ successful ledger)
  ∧ (forall q, q ∈ files -> q ∈ successful ledger ++ failed ledger ++ skipped ledger)
  ∧ (forall q, q ∈ files -> q ∉ loaded_checkpoint cfg (fresh cfg on_disk) ->
       mode_ok cfg env parallel q = true -> q ∈ successful ledger).
Proof.
  intros Hfiles Hglob Hp Hloaded Herr run ledger.
  pose proof (discovered_NoDup _ _ _ _ Hfiles Hglob) as Hnd.
  destruct (process_directory_effect cfg env directory_path recursive parallel
              max_workers files (fresh cfg on_disk) Hfiles Hnd)
    as (records & w' & Hrun & Hs & Hf & Hk & _).
  subst ledger run. rewrite Hrun. cbn [fst snd]. cbn in Hs, Hf, Hk.
  apply (stage_error_not_ok _ _ _ parallel) in Herr.
  assert (forall q, q ∉ loaded_checkpoint cfg (fresh cfg on_disk) ->
            not_in (loaded_checkpoint cfg (fresh cfg on_disk)) q = true) as Hni.
  { intros q Hq. unfold not_in. by rewrite bool_decide_eq_false_2. }
  split; [by eauto|]. split; [|split; [|split]].
  - rewrite Hf. apply elem_of_filter. split; [done|]. by rewrite Hni, Herr.
  - rewrite Hs. intros [_ H]%elem_of_filter.
    apply andb_true_iff in H as [_ H]. congruence.
  - intros q Hq.
    assert (q ∈ List.filter (fun q => not_in (loaded_checkpoint cfg (fresh cfg on_disk)) q
                                      && mode_ok cfg env parallel q) files
                ++ List.filter (fun q => not_in (loaded_checkpoint cfg (fresh cfg on_disk)) q
                                         && negb (mode_ok cfg env parallel q)) files
                ++ List.filter (fun q => negb (not_in (loaded_checkpoint cfg
                                                         (fresh cfg on_disk)) q)) files)
      as H by (by rewrite three_way_split).
    by rewrite Hs, Hf, Hk.
  - intros q Hq Hnq Hok. rewrite Hs. apply elem_of_filter. split; [done|].
    by rewrite Hni, Hok.
Qed.

Lemma stage_errors_fail_the_file_only_witness :
  let run := process_directory example_config
               (example_env example_files example_reply true)
               (py "scans") false true None (fresh example_config None) in
  let ledger := file_status (self run.2) in
  (exists records, run.1 = Ok records)
  ∧ py "scans/b.txt" ∈ failed ledger
  ∧ (py "scans/b.txt" ∉ successful ledger)
  ∧ (forall q, q ∈ example_files ->
       q ∈ successful ledger ++ failed ledger ++ skipped ledger)
  ∧ (forall q, q ∈ example_files ->
       q ∉ loaded_checkpoint example_config (fresh example_config None) ->
       mode_ok example_config (example_env example_files example_reply true) true q = true ->
       q ∈ successful ledger).
Proof.
  apply (stage_errors_fail_the_file_only example_config
           (example_env example_files example_reply true)
           (py "scans") false true None None example_files (py "scans/b.txt")).
  - vm_compute. reflexivity.
  - apply (bool_decide_unpack _). vm_compute. exact I.
  - apply (bool_decide_unpack _). vm_compute. exact I.
  - apply (bool_decide_unpack _). vm_compute. exact I.
  - eapply recognizer_error; vm_compute; reflexivity.
Defined.

(** C6 (as stated) fails for the sink: when no spreadsheet can be written,
    the error is caught inside [save_to_excel], and the files stay in the
    successful list, in both modes; only the refused file is failed. *)
Lemma sink_error_does_not_fail_the_file :
  let env := example_env example_files example_reply false in
  let ledger parallel :=
    file_status (self (process_directory example_config env (py "scans") false
                         parallel None (fresh example_config None)).2) in
  to_excel env [JDict [(py "n", JInt 3)]] (py "c.jpg") = Raise OSError
  ∧ (py "scans/c.jpg" ∉ failed (ledger false))
  ∧ (py "scans/c.jpg" ∉ failed (ledger true))
  ∧ successful (ledger false) = [py "scans/a.png"; py "scans/c.jpg"]
  ∧ successful (ledger true) = [py "scans/a.png"; py "scans/c.jpg"]
  ∧ failed (ledger false) = [py "scans/b.txt"]
  ∧ failed (ledger true) = [py "scans/b.txt"].
Proof.
  cbv zeta. repeat split; try (vm_compute; reflexivity);
    apply (bool_decide_unpack _); vm_compute; exact I.
Qed.

(** ** Checkpoint and resume *)

Lemma worker_checkpoint_update_set env p on_disk :
  checkpoint_writable env = true ->
  list_to_set (default [] (worker_checkpoint_update env p on_disk))
  =@{gset str} list_to_set (default [] on_disk) ∪ {[p]}.
Proof.
  intros Hw. unfold worker_checkpoint_update, str_in. rewrite Hw. cbn.
  case_bool_decide as Hin.
  - apply (elem_of_list_to_set (C := gset str)) in Hin. set_solver.
  - rewrite list_to_set_app_L. cbn. set_solver.
Qed.

Lemma workers_checkpoint_set env files :
  checkpoint_writable env = true ->
  forall on_disk,
    list_to_set (default [] (workers_checkpoint env on_disk files))
    =@{gset str} list_to_set (default [] on_disk) ∪ list_to_set files.
Proof.
  intros Hw. unfold workers_checkpoint.
  induction files as [|p files IH]; intros on_disk; cbn.
  - by rewrite union_empty_r_L.
  - rewrite IH, worker_checkpoint_update_set by done. set_solver.
Qed.

Lemma loaded_fresh cfg on_disk :
  RESUME_FROM_CHECKPOINT cfg = true ->
  loaded_checkpoint cfg (fresh cfg on_disk) = list_to_set (default [] on_disk).
Proof. unfold loaded_checkpoint. intros ->. by destruct on_disk. Qed.

(** With checkpointing on, the checkpoint file after a run of a new
    extractor holds what it held before and the files that succeeded,
    provided the workers of a parallel run do not race. *)
Lemma checkpoint_after_set cfg env parallel max_workers on_disk files :
  ENABLE_CHECKPOINTING cfg = true ->
  checkpoint_writable env = true ->
  (parallel = true ->
   one_at_a_time cfg env max_workers (list_to_set (default [] on_disk)) files) ->
  list_to_set (default [] (checkpoint_after cfg env parallel max_workers
                             (list_to_set (default [] on_disk)) on_disk files))
  =@{gset str}
  list_to_set (default [] on_disk)
  ∪ list_to_set (List.filter (fun q => not_in (list_to_set (default [] on_disk)) q
                                       && mode_ok cfg env parallel q) files).
Proof.
  intros He Hw Hone. unfold checkpoint_after. rewrite He, Hw. cbv zeta.
  destruct parallel.
  - cbv iota.
    assert ((pool_size env max_workers files =? 1)%positive
            || Nat.leb (length (List.filter
                                  (fun q => not_in (list_to_set (default [] on_disk)) q
                                            && mode_ok cfg env true q) files)) 1
            = true) as ->.
    { destruct (Hone eq_refl) as [-> | Hle]; [done|].
      apply orb_true_iff. right. by apply Nat.leb_le. }
    by apply workers_checkpoint_set.
  - cbn [andb]. cbv iota.
    destruct (List.filter _ files) eqn:E.
    + cbn. by rewrite union_empty_r_L.
    + cbn [from_option id]. by rewrite list_to_set_elements_L.
Qed.

(** C5 (as amended).  Two runs of a new extractor over an unchanged
    directory, with checkpointing and resume enabled and a writable
    checkpoint file, the second run starting from the checkpoint file the
    first one left, and the first run sequential or, if parallel, with a
    pool of one worker process, so that no two workers race on the
    checkpoint file: on the second run, in either mode, every discovered
    file that did not fail in the first run lands in the skipped list, and
    the files dispatched are exactly those of the first run's failed list.
    When no file failed in the first run, the second run dispatches none and
    skips every discovered file. *)
Theorem resume_dispatches_only_failed_files (cfg : Config) (env : Env)
    (directory_path : str) (recursive parallel1 parallel2 : bool)
    (max_workers1 max_workers2 : option positive)
    (on_disk : option (list str)) (files : list str) :
  ENABLE_CHECKPOINTING cfg = true ->
  RESUME_FROM_CHECKPOINT cfg = true ->
  checkpoint_writable env = true ->
  get_files_from_directory env directory_path recursive = Ok files ->
  NoDup (glob env directory_path (if recursive then py "**/*" else py "*")) ->
  (parallel1 = true -> pool_size env max_workers1 files = 1%positive) ->
  let run1 := (process_directory cfg env directory_path recursive parallel1
                 max_workers1 (fresh cfg on_disk)).2 in
  let run2 := (process_directory cfg env directory_path recursive parallel2
                 max_workers2 (fresh cfg (checkpoint_file run1))).2 in
  let failed1 := failed (file_status (self run1)) in
  skipped (file_status (self run2))
  = List.filter (fun q => bool_decide (q ∉ failed1)) files
  ∧ successful (file_status (self run2)) ++ failed (file_status (self run2)) ≡ₚ failed1
  ∧ total_files (run_metadata (self run2)) = length failed1
  ∧ (failed1 = [] ->
     skipped (file_status (self run2)) = files
     ∧ total_files (run_metadata (self run2)) = 0%nat).
Proof.
  intros He Hr Hw Hfiles Hglob Hpool run1 run2 failed1.
  pose proof (discovered_NoDup _ _ _ _ Hfiles Hglob) as Hnd.
  destruct (process_directory_effect cfg env directory_path recursive parallel1
              max_workers1 files (fresh cfg on_disk) Hfiles Hnd)
    as (records1 & w1 & Hrun1 & _ & Hf1 & _ & _ & Hc1).
  subst failed1 run2 run1. rewrite Hrun1. cbn [snd].
  destruct (process_directory_effect cfg env directory_path recursive parallel2
              max_workers2 files (fresh cfg (checkpoint_file w1)) Hfiles Hnd)
    as (records2 & w2 & Hrun2 & Hs2 & Hf2 & Hk2 & Ht2 & _).
  rewrite Hrun2. cbn [snd]. cbn in Hf1, Hs2, Hf2, Hk2.
  rewrite loaded_fresh in * by done. cbn in Hc1.
  set (E := list_to_set (default [] on_disk) : gset str) in *.
  set (ok1 := mode_ok cfg env parallel1) in *.
  assert (list_to_set (default [] (checkpoint_file w1))
          =@{gset str} E ∪ list_to_set (List.filter (fun q => not_in E q && ok1 q) files))
    as HE2.
  { rewrite Hc1. apply checkpoint_after_set; try done.
    intros Hpar. left. by apply Hpool. }
  rewrite HE2 in *. clear Hc1 HE2.
  set (E2 := E ∪ list_to_set (List.filter (fun q => not_in E q && ok1 q) files)) in *.
  assert (forall q, q ∈ files ->
            not_in E2 q = bool_decide (q ∈ failed (file_status (self w1)))) as Hdisp.
  { intros q Hq. unfold not_in. rewrite Hf1.
    apply eq_true_iff_eq. rewrite negb_true_iff, bool_decide_eq_false, bool_decide_eq_true.
    subst E2. rewrite elem_of_union, elem_of_list_to_set, !elem_of_filter.
    unfold not_in. destruct (ok1 q), (decide (q ∈ E)) as [Hin|Hin].
    all: rewrite ?(bool_decide_eq_true_2 _ Hin), ?(bool_decide_eq_false_2 _ Hin); cbn.
    all: intuition congruence. }
  assert (List.filter (not_in E2) files = failed (file_status (self w1))) as Hdispatched.
  { rewrite Hf1. apply filter_ext_in. intros q Hq%list_elem_of_In.
    rewrite Hdisp, Hf1 by done.
    apply eq_true_iff_eq. rewrite bool_decide_eq_true, elem_of_filter. tauto. }
  assert (skipped (file_status (self w2))
          = List.filter (fun q => bool_decide (q ∉ failed (file_status (self w1)))) files)
    as Hskipped.
  { rewrite Hk2. apply filter_ext_in. intros q Hq%list_elem_of_In.
    rewrite Hdisp by done. apply eq_true_iff_eq.
    rewrite negb_true_iff, bool_decide_eq_false, bool_decide_eq_true. done. }
  split; [done|]. split; [|split].
  - rewrite Hs2, Hf2, <- Hdispatched, <- !(filter_filter _ (not_in E2)).
    apply filter_complement.
  - by rewrite Ht2, Hdispatched.
  - intros Hnone. rewrite Ht2, Hdispatched, Hskipped, Hnone. split; [|done].
    clear. induction files as [|q files IH]; [done|]. cbn.
    rewrite bool_decide_eq_true_2 by apply not_elem_of_nil. by rewrite IH.
Qed.

Lemma resume_dispatches_only_failed_files_witness :
  let env := example_env example_files example_reply true in
  let run1 := (process_directory example_config env (py "scans") false false None
                 (fresh example_config None)).2 in
  let run2 := (process_directory example_config env (py "scans") false true None
                 (fresh example_config (checkpoint_file run1))).2 in
  skipped (file_status (self run2))
  = List.filter (fun q => bool_decide (q ∉ failed (file_status (self run1)))) example_files.
Proof.
  destruct (resume_dispatches_only_failed_files example_config
              (example_env example_files example_reply true)
              (py "scans") false false true None None None example_files)
    as [H _].
  - reflexivity.
  - reflexivity.
  - reflexivity.
  - vm_compute. reflexivity.
  - apply (bool_decide_unpack _). vm_compute. exact I.
  - discriminate.
  - exact H.
Defined.

(** C5 (as stated) fails: the checkpoint records successes only.  The file
    the recognizer refused in the first run is dispatched again in the
    second, and fails again; only the two others are skipped. *)
Lemma failed_file_is_dispatched_again :
  let env := example_env example_files example_reply true in
  let run1 := (process_directory example_config env (py "scans") false false None
                 (fresh example_config None)).2 in
  let run2 := (process_directory example_config env (py "scans") false false None
                 (fresh example_config (checkpoint_file run1))).2 in
  ENABLE_CHECKPOINTING example_config = true
  ∧ RESUME_FROM_CHECKPOINT example_config = true
  ∧ get_files_from_directory env (py "scans") false = Ok example_files
  ∧ skipped (file_status (self run2)) = [py "scans/a.png"; py "scans/c.jpg"]
  ∧ failed (file_status (self run2)) = [py "scans/b.txt"]
  ∧ total_files (run_metadata (self run2)) = 1%nat
  ∧ skipped (file_status (self run2)) ≠ example_files.
Proof. cbv zeta. repeat split; try (vm_compute; reflexivity). vm_compute. discriminate. Qed.

(** ** What a run resets and what it keeps *)

(** The sequential loop only appends to the three lists and only adds to
    the processed-files set, whatever the files. *)
Lemma sequential_loop_keeps cfg env files :
  forall w, exists w', sequential_loop cfg env files w = (Ok tt, w')
    ∧ successful (file_status (self w)) `prefix_of` successful (file_status (self w'))
    ∧ failed (file_status (self w)) `prefix_of` failed (file_status (self w'))
    ∧ skipped (file_status (self w)) `prefix_of` skipped (file_status (self w'))
    ∧ processed_files (self w')
      = processed_files (self w) ∪ list_to_set (List.filter (file_ok cfg env) files).
Proof.
  induction files as [|q rest IH]; intros w.
  - exists w. cbn. by rewrite union_empty_r_L.
  - cbn [sequential_loop List.filter]. unfold_monad.
    destruct (bool_decide (q ∈ processed_files (self w))) eqn:Hin.
    + apply bool_decide_eq_true in Hin.
      destruct (IH {| self := set_file_status (append_skipped q (file_status (self w)))
                                (self w);
                      checkpoint_file := checkpoint_file w |})
        as (w' & -> & Hs & Hf & Hk & Hp).
      exists w'. destruct w as [[tc ul rm pf fs ad] ck]. cbn in *.
      repeat split; try done.
      * etrans; [|done]. by apply prefix_app_r.
      * rewrite Hp. destruct (file_ok cfg env q); [|done]. cbn. set_solver.
    + destruct (process_file_effect cfg env q w) as (res & w1 & -> & _ & Hs1 & Hp1 & _).
      destruct (IH w1) as (w' & -> & Hs & Hf & Hk & Hp).
      exists w'. rewrite Hs1 in *. rewrite Hp, Hp1. cbn.
      destruct (file_ok cfg env q); cbn in *; repeat split; try done;
        try ((etrans; [|done]); by apply prefix_app_r); set_solver.
Qed.

(** A directory run only appends to the three lists, whatever the
    directory and whatever the extractor went through before.  Its
    processed-files set is untouched when no supported file is found;
    otherwise it is the set the run works with once the checkpoint is
    loaded, to which the sequential mode adds the files that succeed. *)
Lemma process_directory_keeps cfg env directory_path recursive parallel max_workers w :
  exists r w',
    process_directory cfg env directory_path recursive parallel max_workers w = (r, w')
    ∧ successful (file_status (self w)) `prefix_of` successful (file_status (self w'))
    ∧ failed (file_status (self w)) `prefix_of` failed (file_status (self w'))
    ∧ skipped (file_status (self w)) `prefix_of` skipped (file_status (self w'))
    ∧ processed_files (self w')
      = (let files := discovered env directory_path recursive in
         if bool_decide (files = []) then processed_files (self w)
         else if parallel then loaded_checkpoint cfg w
         else loaded_checkpoint cfg w ∪ list_to_set (List.filter (file_ok cfg env) files)).
Proof.
  unfold process_directory, discovered.
  unfold mbind at 1, M_bind at 1. rewrite reset_run_eq.
  unfold mbind at 1, M_bind at 1. unfold try_except, call.
  unfold mbind at 1, M_bind at 1.
  destruct (get_files_from_directory env directory_path recursive) as [files|e].
  2:{ unfold_monad. destruct (is_instance e NotADirectoryError); by do 2 eexists. }
  cbn [mret M_ret]. destruct files as [|f0 files0] eqn:Ef; [by do 2 eexists|].
  rewrite <- Ef. cbv zeta. rewrite bool_decide_eq_false_2 by (by rewrite Ef).
  clear Ef f0 files0.
  unfold mbind at 1, M_bind at 1.
  destruct (load_checkpoint_effect cfg (reset_world cfg recursive parallel max_workers w))
    as (w0 & -> & Hp0 & Hs0 & _).
  change (loaded_checkpoint cfg (reset_world cfg recursive parallel max_workers w))
    with (loaded_checkpoint cfg w) in Hp0.
  cbn in Hs0.
  unfold mbind at 1, M_bind at 1. destruct parallel.
  - unfold mbind at 1, M_bind at 1.
    destruct (submit_all_effect cfg env files w0) as (w1 & -> & Hs1 & Hf1 & Hk1 & Hp1 & _).
    unfold mbind at 1, M_bind at 1.
    destruct (collect_all_effect cfg env
                (List.filter (not_in (processed_files (self w0))) files) w1)
      as (w2 & -> & Hs & Hf & Hk & Hp & _).
    unfold join_workers.
    match goal with
    | |- context [get_combined_dataframe env ?w'] =>
      destruct (get_combined_dataframe_effect env w') as (records & ->)
    end.
    do 2 eexists. split; [reflexivity|]. cbn [self].
    rewrite Hs, Hf, Hk, Hs1, Hf1, Hk1, Hs0, Hp, Hp1, Hp0.
    repeat split; by apply prefix_app_r.
  - destruct (sequential_loop_keeps cfg env files w0) as (w' & -> & Hs & Hf & Hk & Hp).
    destruct (get_combined_dataframe_effect env w') as (records & ->).
    do 2 eexists. split; [reflexivity|]. by rewrite Hs0, Hp0 in *.
Qed.

(** C10 (as amended).  [process_directory] starts by setting the total cost
    to zero, the usage list to empty and the run metadata to new counters,
    so that a run does not depend on the earlier values of these three.  It
    does not reset the status ledger: the successful, failed and skipped
    lists at the end of the run start with the entries they held before it.
    Its resets leave the processed-files set alone, but the run as a whole
    keeps that set only when resume is off or there is no checkpoint file:
    when the directory holds a supported file, the set after the run is the
    set loaded at its start (the paths of the checkpoint file, if resume is
    on and the file is there, and the earlier set otherwise), together with
    the files that succeed in a sequential run; a parallel run adds
    nothing. *)
Theorem process_directory_resets_run_state_only (cfg : Config) (env : Env)
    (directory_path : str) (recursive parallel : bool) (max_workers : option positive)
    (w : World) (old_cost : Q) (old_usage : list UsageMetadata)
    (old_metadata : RunMetadata) :
  let run := process_directory cfg env directory_path recursive parallel max_workers in
  let w0 := (reset_run cfg recursive parallel max_workers w).2 in
  let files := discovered env directory_path recursive in
  (total_cost (self w0) = 0%Q
   ∧ usage_metadata_list (self w0) = []
   ∧ total_files (run_metadata (self w0)) = 0%nat
   ∧ successful_files (run_metadata (self w0)) = 0%nat
   ∧ failed_files (run_metadata (self w0)) = 0%nat)
  ∧ (file_status (self w0) = file_status (self w)
     ∧ processed_files (self w0) = processed_files (self w))
  ∧ run {| self := set_total_cost old_cost
                     (set_usage_metadata_list old_usage
                        (set_run_metadata old_metadata (self w)));
           checkpoint_file := checkpoint_file w |}
    = run w
  ∧ successful (file_status (self w)) `prefix_of` successful (file_status (self (run w).2))
  ∧ failed (file_status (self w)) `prefix_of` failed (file_status (self (run w).2))
  ∧ skipped (file_status (self w)) `prefix_of` skipped (file_status (self (run w).2))
  ∧ processed_files (self (run w).2)
    = (if bool_decide (files = []) then processed_files (self w)
       else if parallel then loaded_checkpoint cfg w
       else loaded_checkpoint cfg w ∪ list_to_set (List.filter (file_ok cfg env) files))
  ∧ (RESUME_FROM_CHECKPOINT cfg = false ∨ checkpoint_file w = None ->
     processed_files (self w) ⊆ processed_files (self (run w).2))
  ∧ (forall paths, RESUME_FROM_CHECKPOINT cfg = true -> checkpoint_file w = Some paths ->
     files ≠ [] -> parallel = true ->
     processed_files (self (run w).2) = list_to_set paths).
Proof.
  intros run w0 files. split; [done|]. split; [done|]. split.
  - subst run. unfold process_directory.
    unfold mbind at 1 3, M_bind at 1 3. by rewrite !reset_run_eq.
  - destruct (process_directory_keeps cfg env directory_path recursive parallel
                max_workers w) as (r & w' & Hrun & Hs & Hf & Hk & Hp).
    subst run. rewrite Hrun. cbn [snd]. cbv zeta in Hp. fold files in Hp.
    split_and!; try done.
    + intros Hkept. rewrite Hp.
      assert (loaded_checkpoint cfg w = processed_files (self w)) as ->.
      { unfold loaded_checkpoint. destruct Hkept as [-> | ->]; [done|].
        by destruct (RESUME_FROM_CHECKPOINT cfg). }
      case_bool_decide; [done|]. destruct parallel; [done|]. set_solver.
    + intros paths Hr Hc Hne ->. rewrite Hp, bool_decide_eq_false_2 by done.
      unfold loaded_checkpoint. by rewrite Hr, Hc.
Qed.

(** C10 (as stated) fails for the processed-files set.  With resume on,
    checkpointing off and a checkpoint file left by an older session, an
    extractor runs twice over the small directory.  The first, sequential
    run adds its two successes to the set; the second run loads the file
    again and so replaces the set: the two files are dispatched once more
    instead of being skipped, and after the second, parallel run they are
    in the set no longer. *)
Lemma resume_replaces_the_processed_files :
  let cfg := resume_only_config in
  let env := example_env example_files example_reply true in
  let w1 := (process_directory cfg env (py "scans") false false None
               (fresh cfg (Some [py "scans/old.png"]))).2 in
  let w2 := (process_directory cfg env (py "scans") false true None w1).2 in
  py "scans/a.png" ∈ processed_files (self w1)
  ∧ checkpoint_file w1 = Some [py "scans/old.png"]
  ∧ (py "scans/a.png" ∉ processed_files (self w2))
  ∧ skipped (file_status (self w2)) = []
  ∧ successful (file_status (self w2))
    = [py "scans/a.png"; py "scans/c.jpg"; py "scans/a.png"; py "scans/c.jpg"]
  ∧ ~ (forall (cfg : Config) (env : Env) (directory_path : str)
              (recursive parallel : bool) (max_workers : option positive) (w : World),
         processed_files (self w)
         ⊆ processed_files
             (self (process_directory cfg env directory_path recursive parallel
                      max_workers w).2)).
Proof.
  cbv zeta.
  assert (py "scans/a.png"
            ∈ processed_files
                (self (process_directory resume_only_config
                         (example_env example_files example_reply true)
                         (py "scans") false false None
                         (fresh resume_only_config (Some [py "scans/old.png"]))).2))
    as Hin by (apply (bool_decide_unpack _); vm_compute; exact I).
  assert (py "scans/a.png"
            ∉ processed_files
                (self (process_directory resume_only_config
                         (example_env example_files example_reply true)
                         (py "scans") false true None
                         (process_directory resume_only_config
                            (example_env example_files example_reply true)
                            (py "scans") false false None
                            (fresh resume_only_config (Some [py "scans/old.png"]))).2).2))
    as Hout by (apply (bool_decide_unpack _); vm_compute; exact I).
  split; [exact Hin|]. split; [vm_compute; reflexivity|]. split; [exact Hout|].
  split; [vm_compute; reflexivity|]. split; [vm_compute; reflexivity|].
  intros H. apply Hout. eapply H. exact Hin.
Qed.

(** Two runs of one extractor over the small directory: the lists of the
    second run still hold the entries of the first. *)
Example reused_extractor_keeps_old_entries :
  let env := example_env example_files example_reply true in
  let run := process_directory example_config env (py "scans") false false None in
  let ledger := file_status (self (run (run (fresh example_config None)).2).2) in
  successful ledger = [py "scans/a.png"; py "scans/c.jpg"]
  ∧ failed ledger = [py "scans/b.txt"; py "scans/b.txt"]
  ∧ skipped ledger = [py "scans/a.png"; py "scans/c.jpg"].
Proof. cbv zeta. repeat split; vm_compute; reflexivity. Qed.

(** ** An empty response *)

(** C9.  The validator returns the empty list for the empty string, under
    any limits of the interpreter.  A file whose response is the empty
    string without an error is therefore a success with zero records:
    [process_file] returns the empty list, counts the file as successful and
    lists it so, and the worker of the parallel mode returns an empty result
    with status success. *)
Theorem empty_response_is_a_success (cfg : Config) (env : Env) (p : str)
    (file_data : FileData) (r : LLMResponse) (w : World) (on_disk : option (list str)) :
  read_file env p = Ok file_data ->
  recognize cfg env file_data = Some r ->
  error r = None ->
  text r = [] ->
  let after := process_file cfg env p w in
  let worker := (_process_file_wrapper cfg env p on_disk).1 in
  (forall lim, validate_json_output lim [] = Ok [])
  ∧ after.1 = Ok (Some [])
  ∧ successful (file_status (self after.2)) = successful (file_status (self w)) ++ [p]
  ∧ failed (file_status (self after.2)) = failed (file_status (self w))
  ∧ successful_files (run_metadata (self after.2))
    = S (successful_files (run_metadata (self w)))
  ∧ worker.1.1.1 = Some []
  ∧ worker.1.2 = success.
Proof.
  intros Hread Hrec Herr Htext after worker.
  assert (forall lim, validate_json_output lim [] = Ok []) as Hv by reflexivity.
  assert (forall n, (n + 1 = S n)%nat) as Hn by lia.
  split; [done|].
  assert (after.1 = Ok (Some [])
          ∧ successful (file_status (self after.2)) = successful (file_status (self w)) ++ [p]
          ∧ failed (file_status (self after.2)) = failed (file_status (self w))
          ∧ successful_files (run_metadata (self after.2))
            = S (successful_files (run_metadata (self w)))) as Hseq.
  { subst after. destruct w as [[tc ul rm pf fs ad] ck].
    unfold process_file, process_file_handlers, _calculate_and_log_cost,
      save_to_excel, _save_checkpoint, write_checkpoint.
    unfold_monad. rewrite Hread. cbn. rewrite Hrec. cbn. rewrite Herr, Htext, Hv.
    destruct (CALCULATE_COST cfg), (usage_metadata r), (ENABLE_CHECKPOINTING cfg),
      (checkpoint_writable env); cbn; by rewrite Hn. }
  destruct Hseq as (? & ? & ? & ?). repeat split; try done.
  - subst worker. unfold _process_file_wrapper.
    rewrite Hread, Hrec, Herr, Htext, Hv. done.
  - subst worker. unfold _process_file_wrapper.
    rewrite Hread, Hrec, Herr, Htext, Hv. done.
Qed.

Lemma empty_response_is_a_success_witness :
  let env := example_env [py "scans/blank.png"] (fun _ => []) true in
  let w := fresh example_config None in
  let after := process_file example_config env (py "scans/blank.png") w in
  let worker := (_process_file_wrapper example_config env (py "scans/blank.png") None).1 in
  (forall lim, validate_json_output lim [] = Ok [])
  ∧ after.1 = Ok (Some [])
  ∧ successful (file_status (self after.2))
    = successful (file_status (self w)) ++ [py "scans/blank.png"]
  ∧ failed (file_status (self after.2)) = failed (file_status (self w))
  ∧ successful_files (run_metadata (self after.2))
    = S (successful_files (run_metadata (self w)))
  ∧ worker.1.1.1 = Some []
  ∧ worker.1.2 = success.
Proof.
  intros env w.
  eapply (empty_response_is_a_success example_config env (py "scans/blank.png")).
  - vm_compute. reflexivity.
  - vm_compute. reflexivity.
  - reflexivity.
  - reflexivity.
Defined.

(** ** Cost aggregation in the two modes *)

(** For a call that failed with usage metadata, the worker of the parallel
    mode hands the usage metadata back with a cost of zero. *)
Lemma worker_prices_failed_call_at_zero cfg env p file_data r message on_disk :
  read_file env p = Ok file_data ->
  recognize cfg env file_data = Some r ->
  error r = Some message ->
  (_process_file_wrapper cfg env p on_disk).1 = (None, 0%Q, failed_status, usage_metadata r).
Proof. unfold _process_file_wrapper. by intros -> -> ->. Qed.

(** C1.  On the small directory the two modes disagree on the total cost.
    The refused file comes back with usage metadata (one million prompt
    tokens); both modes list it as failed and record its usage metadata, the
    sequential mode adds its price to the total, the parallel mode adds
    nothing for it. *)
Theorem parallel_mode_drops_cost_of_failed_call :
  let env := example_env example_files example_reply true in
  let run parallel :=
    self (process_directory example_config env (py "scans") false parallel None
            (fresh example_config None)).2 in
  failed (file_status (run false)) = [py "scans/b.txt"]
  ∧ failed (file_status (run true)) = [py "scans/b.txt"]
  ∧ length (usage_metadata_list (run false)) = 3%nat
  ∧ usage_metadata_list (run true) = usage_metadata_list (run false)
  ∧ (total_cost (run false) == 45 # 100)%Q
  ∧ (total_cost (run true) == 30 # 100)%Q.
Proof. cbv zeta. repeat split; vm_compute; reflexivity. Qed.

(** ** The small directory, as a whole *)

(** The two images succeed, with two records and with one record inside code
    fences; the refused text file fails; the combined data holds three
    records; the checkpoint file lists the two successes. *)
Example small_directory_run :
  let env := example_env example_files example_reply true in
  let run := process_directory example_config env (py "scans") false false None
               (fresh example_config None) in
  run.1 = Ok [JDict [(py "n", JInt 1)]; JDict [(py "n", JInt 2)]; JDict [(py "n", JInt 3)]]
  ∧ successful (file_status (self run.2)) = [py "scans/a.png"; py "scans/c.jpg"]
  ∧ failed (file_status (self run.2)) = [py "scans/b.txt"]
  ∧ skipped (file_status (self run.2)) = []
  ∧ total_files (run_metadata (self run.2)) = 3%nat
  ∧ list_to_set (default [] (checkpoint_file run.2))
    =@{gset str} {[py "scans/a.png"; py "scans/c.jpg"]}.
Proof.
  cbv zeta. repeat split; vm_compute; reflexivity.
Qed.

(** * Further properties *)

(** ** The validator, whatever the text *)

Lemma slice_of_refl (s : str) : slice_of s s.
Proof. exists [], []. by rewrite app_nil_r. Qed.

Lemma slice_of_trans (a b c : str) : slice_of a b -> slice_of b c -> slice_of a c.
Proof.
  intros (p & q & ->) (p' & q' & ->). exists (p' ++ p), (q ++ q').
  by rewrite <- !app_assoc.
Qed.

Lemma slice_of_drop (n : nat) (s : str) : slice_of (drop n s) s.
Proof. exists (take n s), []. by rewrite app_nil_r, take_drop. Qed.

Lemma slice_of_take (n : nat) (s : str) : slice_of (take n s) s.
Proof. exists [], (drop n s). by rewrite take_drop. Qed.

Lemma lstrip_drop (s : str) : exists n, lstrip s = drop n s.
Proof.
  induction s as [|c s [n IH]]; [by exists O|]. cbn [lstrip].
  destruct (isspace c); [|by exists O]. exists (S n). by rewrite IH.
Qed.

Lemma slice_of_reverse (t s : str) : slice_of t s -> slice_of (reverse t) (reverse s).
Proof.
  intros (a & b & ->). exists (reverse b), (reverse a).
  by rewrite !reverse_app, <- app_assoc.
Qed.

Lemma slice_of_strip (s : str) : slice_of (strip s) s.
Proof.
  unfold strip, rstrip.
  apply slice_of_trans with (lstrip s).
  - destruct (lstrip_drop (reverse (lstrip s))) as [n ->].
    rewrite <- (reverse_involutive (lstrip s)) at 2.
    apply slice_of_reverse, slice_of_drop.
  - destruct (lstrip_drop s) as [n ->]. apply slice_of_drop.
Qed.

Lemma from_first_bracket_slice (s t : str) :
  from_first_bracket s = Ok t -> slice_of t s.
Proof.
  unfold from_first_bracket. destruct (startswith _ _); cbn [negb].
  - intros [= <-]. apply slice_of_refl.
  - destruct (find _ _); [|done]. intros [= <-]. apply slice_of_drop.
Qed.

Lemma to_last_bracket_slice (s t : str) :
  to_last_bracket s = Ok t -> slice_of t s.
Proof.
  unfold to_last_bracket. destruct (endswith _ _); cbn [negb].
  - intros [= <-]. apply slice_of_refl.
  - destruct (rfind _ _); [|done]. intros [= <-]. apply slice_of_take.
Qed.

Lemma to_last_bracket_ends (s t : str) :
  to_last_bracket s = Ok t -> endswith [Ch.rbracket] t = true.
Proof.
  unfold to_last_bracket. destruct (endswith _ s) eqn:E; cbn [negb].
  - by intros [= <-].
  - unfold rfind. destruct (find _ (reverse s)) as [i|] eqn:Hi; [|done].
    cbn [fmap option_fmap option_map]. intros [= <-].
    apply find_Some in Hi as [r Hr].
    assert (i < length s)%nat as Hlen.
    { destruct (decide (i < length s)%nat) as [|Hge]; [done|].
      rewrite drop_ge in Hr by (rewrite length_reverse; lia). done. }
    apply endswith_spec.
    exists (take (length s - 1 - i) s).
    replace (length s - 1 - i + 1)%nat with (S (length s - 1 - i)) by lia.
    assert (s !! (length s - 1 - i)%nat = Some Ch.rbracket) as Hl.
    { apply (f_equal (fun l => l !! O)) in Hr. rewrite lookup_drop in Hr. cbn in Hr.
      rewrite Nat.add_0_r in Hr. rewrite reverse_lookup in Hr by done.
      rewrite <- Hr. f_equal. lia. }
    by rewrite (take_S_r _ _ _ Hl).
Qed.

Lemma scanstring_failed s acc e : scanstring s acc ≠ Failed e.
Proof.
  remember (length s) as n eqn:Hn. assert (length s <= n)%nat as Hle by lia. clear Hn.
  revert s acc Hle. induction n as [|n IH]; intros s acc Hn H.
  - destruct s; [done|]. simpl in Hn. lia.
  - destruct s as [|c s]; [done|]. cbn [scanstring] in H. cbn [length] in Hn.
    split_scan H;
      first [ discriminate H | apply IH in H; [done|]; cbn [length] in *; lia ].
Qed.

Lemma match_number_failed lim s e :
  match_number lim s = Failed e -> scan_failure lim e.
Proof.
  unfold match_number, scan_failure.
  destruct (match s with
            | [] => (false, s)
            | c :: r0 => if c =? Ch.minus then (true, r0) else (false, s)
            end) as [neg s1].
  destruct (scan_integer s1) as [[int_digits r1]|]; [|done].
  destruct (scan_fraction r1) as [frac r2].
  destruct (scan_exponent r2) as [expo r3].
  destruct frac, expo; try done.
  destruct (exceeds_int_max_str_digits lim int_digits) eqn:E; [|done].
  intros [= <-]. left. split; [done|].
  unfold exceeds_int_max_str_digits in E.
  apply andb_true_iff in E as [E _]. apply andb_true_iff in E as [_ E].
  apply Nat.ltb_lt in E. lia.
Qed.

(** The scanner fails only for an integer literal over a limit that is set
    and for nesting deeper than the interpreter allows. *)
Lemma scanner_failed (lim : Limits) (fuel : nat) :
  (forall depth s e, scan_once lim fuel depth s = Failed e -> scan_failure lim e)
  ∧ (forall depth s acc e, array_items lim fuel depth s acc = Failed e -> scan_failure lim e)
  ∧ (forall depth s acc e, object_items lim fuel depth s acc = Failed e ->
       scan_failure lim e).
Proof.
  induction fuel as [|fuel (IHscan & IHarray & IHobject)]; [done|].
  split; [|split].
  - intros depth [|c s] e; [done|]. cbn [scan_once].
    destruct (c =? Ch.quote).
    { destruct (scanstring s []) as [v r| |e'|] eqn:E; try done.
      by destruct (scanstring_failed s [] e'). }
    destruct (c =? Ch.lbrace).
    { destruct depth as [|depth]; [intros [= <-]; by right|].
      destruct (skip_ws s) as [|c' r']; [done|].
      destruct (c' =? Ch.rbrace); [done|].
      destruct (object_items lim fuel depth (c' :: r') []) eqn:E; try done.
      intros [= <-]. by eapply IHobject. }
    destruct (c =? Ch.lbracket).
    { destruct depth as [|depth]; [intros [= <-]; by right|].
      destruct (skip_ws s) as [|c' r']; [done|].
      destruct (c' =? Ch.rbracket); [done|].
      destruct (array_items lim fuel depth (c' :: r') []) eqn:E; try done.
      intros [= <-]. by eapply IHarray. }
    repeat match goal with
           | |- context [after_word ?w (c :: s)] => destruct (after_word w (c :: s)); [done|]
           end.
    apply match_number_failed.
  - intros depth s acc e. cbn [array_items].
    destruct (scan_once lim fuel depth s) as [v r| |e'|] eqn:E; try done.
    + destruct (skip_ws r) as [|c r']; [done|].
      destruct (c =? Ch.comma); [apply IHarray|]. by destruct (c =? Ch.rbracket).
    + intros [= <-]. by eapply IHscan.
  - intros depth [|q s] acc e; [done|]. cbn [object_items].
    destruct (q =? Ch.quote); [|done].
    pose proof (scanstring_failed s []) as Hsf.
    destruct (scanstring s []) as [key r1| |e'|]; try done; [|by destruct (Hsf e')].
    destruct (skip_ws r1) as [|c r2]; [done|].
    destruct (c =? Ch.colon); [|done].
    destruct (scan_once lim fuel depth (skip_ws r2)) as [v r3| |e'|] eqn:E; try done.
    + destruct (skip_ws r3) as [|c' r4]; [done|].
      destruct (c' =? Ch.comma); [apply IHobject|]. by destruct (c' =? Ch.rbrace).
    + intros [= <-]. by eapply IHscan.
Qed.

Lemma json_loads_raises (lim : Limits) (s : str) (e : exn) :
  json_loads lim s = Raise e -> e = JSONDecodeError ∨ scan_failure lim e.
Proof.
  unfold json_loads. destruct (startswith _ _); [intros [= <-]; by left|].
  destruct (scan_once _ _ _ _) as [v rest| |e'|] eqn:E; try (intros [= <-]; by left).
  - destruct (skip_ws rest); [done|]. intros [= <-]. by left.
  - intros [= <-]. right. exact (proj1 (scanner_failed lim _) _ _ _ E).
Qed.

(** The exceptions of the validator: the decoding error, and what the
    limits of the interpreter make the decoder raise. *)
Lemma validate_raises (lim : Limits) (s : str) (e : exn) :
  validate_json_output lim s = Raise e -> e = JSONDecodeError ∨ scan_failure lim e.
Proof.
  unfold validate_json_output. case_bool_decide; [done|]. cbv zeta.
  destruct (from_first_bracket _) as [t1|e1] eqn:H1.
  2:{ cbn. intros [= <-]. unfold from_first_bracket in H1.
      destruct (negb _); [|done]. destruct (find _ _); [done|]. injection H1 as <-.
      by left. }
  pose proof (from_first_bracket_starts _ _ H1) as Hs1. cbn.
  destruct (to_last_bracket t1) as [t2|e2] eqn:H2.
  2:{ cbn. intros [= <-]. unfold to_last_bracket in H2.
      destruct (negb _); [|done]. destruct (rfind _ _); [done|]. injection H2 as <-.
      by left. }
  pose proof (to_last_bracket_starts _ _ Hs1 H2) as Hs2. cbn.
  destruct (json_loads lim t2) as [v|e3] eqn:H3.
  - destruct (json_loads_bracket _ _ _ Hs2 H3) as [l ->]. done.
  - cbn. intros [= <-]. by eapply json_loads_raises.
Qed.

(** X1.  Whatever the text and the limits of the interpreter, the validator
    raises nothing but [JSONDecodeError], the [ValueError] of an integer
    literal longer than a limit that is set, and the [RecursionError] of
    nesting deeper than the interpreter allows, and never raises on the
    empty text.  Its [TypeError] for a decoded value that is neither a list
    nor a dictionary cannot occur, because the text handed to [json.loads]
    always starts with an opening bracket. *)
Theorem validator_raises_only_decoder_errors (lim : Limits) (s : str) (e : exn) :
  validate_json_output lim s = Raise e ->
  (e = JSONDecodeError
   ∨ (e = ValueError ∧ int_max_str_digits lim ≠ 0%nat)
   ∨ e = RecursionError)
  ∧ e ≠ TypeError
  ∧ s ≠ [].
Proof.
  intros H.
  assert (e = JSONDecodeError
          ∨ (e = ValueError ∧ int_max_str_digits lim ≠ 0%nat)
          ∨ e = RecursionError) as He.
  { destruct (validate_raises _ _ _ H) as [-> | [[-> ?] | ->]]; auto. }
  split; [done|]. split.
  - by destruct He as [-> | [[-> _] | ->]].
  - intros ->. done.
Qed.

Lemma validator_raises_only_decoder_errors_witness :
  (RecursionError = JSONDecodeError
   ∨ (RecursionError = ValueError ∧ int_max_str_digits shallow_limits ≠ 0%nat)
   ∨ RecursionError = RecursionError)
  ∧ RecursionError ≠ TypeError
  ∧ py "[[[1]]]" ≠ [].
Proof.
  apply (validator_raises_only_decoder_errors shallow_limits (py "[[[1]]]") RecursionError).
  vm_compute. reflexivity.
Defined.

(** X2.  The records the validator returns for a text that is not empty are
    the decoding of one contiguous part of that text, a part that starts
    with an opening and ends with a closing bracket: nothing is returned
    that [json.loads] did not read from the text itself. *)
Theorem validated_records_are_a_decoded_slice (lim : Limits) (s : str) (l : list json) :
  s ≠ [] ->
  validate_json_output lim s = Ok l ->
  exists t, slice_of t s
    ∧ startswith [Ch.lbracket] t = true
    ∧ endswith [Ch.rbracket] t = true
    ∧ json_loads lim t = Ok (JList l).
Proof.
  intros Hs. unfold validate_json_output. rewrite bool_decide_eq_false_2 by done.
  cbv zeta.
  set (s1 := if startswith fence_json s then _ else _).
  assert (slice_of s1 s) as Hs1.
  { subst s1. destruct (startswith fence_json s).
    - eapply slice_of_trans; [apply slice_of_strip | apply slice_of_drop].
    - destruct (startswith fence s); [|apply slice_of_refl].
      eapply slice_of_trans; [apply slice_of_strip | apply slice_of_drop]. }
  clearbody s1.
  set (s2 := if endswith fence s1 then _ else _).
  assert (slice_of s2 s) as Hs2.
  { subst s2. destruct (endswith fence s1); [|done].
    eapply slice_of_trans; [|exact Hs1].
    eapply slice_of_trans; [apply slice_of_strip | apply slice_of_take]. }
  clearbody s2. intros H.
  destruct (from_first_bracket s2) as [t1|] eqn:H1; [|done]. cbn in H.
  destruct (to_last_bracket t1) as [t2|] eqn:H2; [|done]. cbn in H.
  destruct (json_loads lim t2) as [v|] eqn:H3; [|done]. cbn in H.
  pose proof (to_last_bracket_starts _ _ (from_first_bracket_starts _ _ H1) H2) as Hb.
  destruct (json_loads_bracket _ _ _ Hb H3) as [l' ->]. injection H as <-.
  exists t2. repeat split; try done.
  - eapply slice_of_trans; [by eapply to_last_bracket_slice|].
    eapply slice_of_trans; [by eapply from_first_bracket_slice|done].
  - by eapply to_last_bracket_ends.
Qed.

Lemma validated_records_are_a_decoded_slice_witness :
  exists t, slice_of t (py "Result: [1, 2] (two)")
    ∧ startswith [Ch.lbracket] t = true
    ∧ endswith [Ch.rbracket] t = true
    ∧ json_loads default_limits t = Ok (JList [JInt 1; JInt 2]).
Proof.
  apply (validated_records_are_a_decoded_slice default_limits (py "Result: [1, 2] (two)")
           [JInt 1; JInt 2]).
  - done.
  - vm_compute. reflexivity.
Defined.

(** X3.  For a text whose first opening bracket comes before its last
    closing bracket, the outcome of the validator, records or exception, is
    the outcome of [json.loads] on the part from the one bracket to the
    other: the records, if that part decodes, and otherwise the very
    exception [json.loads] raises for it, which is [JSONDecodeError] unless
    a limit of the interpreter is hit.  The text before and after, code
    fences included, has no influence. *)
Theorem validator_outcome_depends_on_core (lim : Limits) (m s : str) :
  embedded Ch.lbracket Ch.rbracket m s ->
  let core := Ch.lbracket :: m ++ [Ch.rbracket] in
  (forall l, json_loads lim core = Ok (JList l) -> validate_json_output lim s = Ok l)
  ∧ (forall e, json_loads lim core = Raise e ->
       validate_json_output lim s = Raise e
       ∧ (e = JSONDecodeError
          ∨ (e = ValueError ∧ int_max_str_digits lim ≠ 0%nat)
          ∨ e = RecursionError))
  ∧ ((exists l, json_loads lim core = Ok (JList l)) ∨ (exists e, json_loads lim core = Raise e)).
Proof.
  intros H core. rewrite (validate_embedded _ _ _ H). fold core. split_and!.
  - by intros l ->.
  - intros e He. rewrite He. split; [done|].
    destruct (json_loads_raises _ _ _ He) as [-> | [[-> ?] | ->]]; auto.
  - destruct (json_loads lim core) as [v|e] eqn:Hl; [left | right; by eexists].
    destruct (json_loads_bracket lim core v) as [l ->]; [done..|]. by eexists.
Qed.

Lemma validator_outcome_depends_on_core_witness :
  let lim := default_limits in
  let s := py "Rows: [1, oops] end" in
  let core := Ch.lbracket :: py "1, oops" ++ [Ch.rbracket] in
  (forall l, json_loads lim core = Ok (JList l) -> validate_json_output lim s = Ok l)
  ∧ (forall e, json_loads lim core = Raise e ->
       validate_json_output lim s = Raise e
       ∧ (e = JSONDecodeError
          ∨ (e = ValueError ∧ int_max_str_digits lim ≠ 0%nat)
          ∨ e = RecursionError))
  ∧ ((exists l, json_loads lim core = Ok (JList l)) ∨ (exists e, json_loads lim core = Raise e)).
Proof.
  intros lim s core.
  apply (validator_outcome_depends_on_core lim (py "1, oops") s).
  exists (py "Rows: "), (py " end"). split; [reflexivity|].
  split; apply (bool_decide_unpack _); vm_compute; exact I.
Defined.

(** The limits at work: an integer literal of 4301 digits and 991 arrays
    inside one another are refused under the limits an interpreter starts
    with, with exceptions that are not decoding errors; one digit or one
    level less, and the text decodes. *)
Example decoder_limits :
  let digits n := Ch.lbracket :: replicate n 49 ++ [Ch.rbracket] in
  let nested n := replicate n Ch.lbracket ++ replicate n Ch.rbracket in
  validate_json_output default_limits (digits 4301%nat) = Raise ValueError
  ∧ (exists l, validate_json_output default_limits (digits 4300%nat) = Ok l)
  ∧ validate_json_output default_limits (nested 991%nat) = Raise RecursionError
  ∧ (exists l, validate_json_output default_limits (nested 990%nat) = Ok l).
Proof.
  cbv zeta. split_and!.
  - vm_compute. reflexivity.
  - eexists. vm_compute. reflexivity.
  - vm_compute. reflexivity.
  - eexists. vm_compute. reflexivity.
Qed.

(** ** Reading a file *)

Lemma str_in_spec (x : str) (l : list str) : str_in x l = true <-> x ∈ l.
Proof. unfold str_in. by rewrite bool_decide_eq_true. Qed.

Lemma str_eqb_spec (a b : str) : str_eqb a b = true <-> a = b.
Proof. unfold str_eqb. by rewrite bool_decide_eq_true. Qed.

(** What [read_file] returns, by the extension of the file. *)
Lemma read_file_typed (env : Env) (file_path : str) (file_data : FileData) :
  read_file env file_path = Ok file_data ->
  exists_ env file_path = Ok true
  ∧ fd_filename file_data = name file_path
  ∧ ((fd_type file_data = py "image"
      ∧ lower (suffix file_path) ∈ supported_image_extensions
      ∧ fd_mime_type file_data
        = match guess_type env file_path with
          | Some m => if startswith (py "image/") m then m else py "image/jpeg"
          | None => py "image/jpeg"
          end
      ∧ read_bytes env file_path = Ok (fd_content file_data))
     ∨ (fd_type file_data = py "text"
        ∧ lower (suffix file_path) = py ".txt"
        ∧ fd_mime_type file_data = py "text/plain"
        ∧ (read_text env file_path (py "utf-8") = Ok (fd_content file_data)
           ∨ (read_text env file_path (py "utf-8") = Raise UnicodeDecodeError
              ∧ read_text env file_path (py "cp1251") = Ok (fd_content file_data))))).
Proof.
  unfold read_file. destruct (exists_ env file_path) as [[|]|]; cbn [mbind result_bind negb];
    [|done..].
  destruct (str_in _ supported_image_extensions) eqn:Himg.
  - apply str_in_spec in Himg. cbv zeta.
    destruct (read_bytes env file_path) as [image_data|]; [|done].
    intros [= <-]. cbn [fd_type fd_content fd_filename fd_mime_type].
    split; [done|]. split; [done|]. by left.
  - destruct (str_eqb _ _) eqn:Htxt; [|done]. apply str_eqb_spec in Htxt.
    destruct (read_text env file_path (py "utf-8")) as [t|e] eqn:H1.
    + intros [= <-]. cbn. split; [done|]. split; [done|]. right.
      repeat split; try done. by left.
    + destruct e; try done.
      destruct (read_text env file_path (py "cp1251")) as [t|] eqn:H2; [|done].
      intros [= <-]. cbn. split; [done|]. split; [done|]. right.
      repeat split; try done. by right.
Qed.

(** X4.  What [read_file] returns is typed by the extension of an existing
    file.  For an image extension it is an image with the bytes of the file,
    and its MIME type is the guessed one if that starts with image/ and
    image/jpeg if none is guessed or the guess is no image type, so that it
    always starts with image/.  For the extension .txt it is a text with
    MIME type text/plain and the content read as UTF-8 or, when that fails
    to decode, as Windows-1251.  The file name is the last component of the
    path. *)
Theorem read_file_returns_typed_content (env : Env) (file_path : str) (file_data : FileData) :
  read_file env file_path = Ok file_data ->
  exists_ env file_path = Ok true
  ∧ fd_filename file_data = name file_path
  ∧ ((fd_type file_data = py "image"
      ∧ lower (suffix file_path) ∈ supported_image_extensions
      ∧ (forall m, guess_type env file_path = Some m ->
           startswith (py "image/") m = true -> fd_mime_type file_data = m)
      ∧ (forall m, guess_type env file_path = Some m ->
           startswith (py "image/") m = false -> fd_mime_type file_data = py "image/jpeg")
      ∧ (guess_type env file_path = None -> fd_mime_type file_data = py "image/jpeg")
      ∧ startswith (py "image/") (fd_mime_type file_data) = true
      ∧ read_bytes env file_path = Ok (fd_content file_data))
     ∨ (fd_type file_data = py "text"
        ∧ lower (suffix file_path) = py ".txt"
        ∧ fd_mime_type file_data = py "text/plain"
        ∧ (read_text env file_path (py "utf-8") = Ok (fd_content file_data)
           ∨ (read_text env file_path (py "utf-8") = Raise UnicodeDecodeError
              ∧ read_text env file_path (py "cp1251") = Ok (fd_content file_data))))).
Proof.
  intros H. destruct (read_file_typed _ _ _ H) as (He & Hn & Ht).
  split; [done|]. split; [done|].
  destruct Ht as [(Hty & Hext & Hmime & Hb) | Htext]; [left | by right].
  rewrite Hmime. split_and!; try done.
  - by intros m -> ->.
  - by intros m -> ->.
  - by intros ->.
  - destruct (guess_type env file_path) as [m|]; [|by vm_compute].
    destruct (startswith (py "image/") m) eqn:Hm; [done | by vm_compute].
Qed.

Lemma read_file_returns_typed_content_witness :
  let env := single_image_env in
  let file_path := py "scans/a.png" in
  let file_data :=
    {| fd_type := py "image"; fd_content := py "scans/a.png";
       fd_filename := py "a.png"; fd_mime_type := py "image/png" |} in
  exists_ env file_path = Ok true
  ∧ fd_filename file_data = name file_path
  ∧ ((fd_type file_data = py "image"
      ∧ lower (suffix file_path) ∈ supported_image_extensions
      ∧ (forall m, guess_type env file_path = Some m ->
           startswith (py "image/") m = true -> fd_mime_type file_data = m)
      ∧ (forall m, guess_type env file_path = Some m ->
           startswith (py "image/") m = false -> fd_mime_type file_data = py "image/jpeg")
      ∧ (guess_type env file_path = None -> fd_mime_type file_data = py "image/jpeg")
      ∧ startswith (py "image/") (fd_mime_type file_data) = true
      ∧ read_bytes env file_path = Ok (fd_content file_data))
     ∨ (fd_type file_data = py "text"
        ∧ lower (suffix file_path) = py ".txt"
        ∧ fd_mime_type file_data = py "text/plain"
        ∧ (read_text env file_path (py "utf-8") = Ok (fd_content file_data)
           ∨ (read_text env file_path (py "utf-8") = Raise UnicodeDecodeError
              ∧ read_text env file_path (py "cp1251") = Ok (fd_content file_data))))).
Proof.
  intros env file_path file_data.
  apply (read_file_returns_typed_content env file_path file_data).
  vm_compute. reflexivity.
Defined.

Lemma read_file_type (env : Env) (file_path : str) (file_data : FileData) :
  read_file env file_path = Ok file_data ->
  fd_type file_data = py "image" ∨ fd_type file_data = py "text".
Proof.
  intros H. destruct (read_file_typed _ _ _ H) as (_ & _ & [(? & _) | (? & _)]); auto.
Qed.

Lemma read_file_filename (env : Env) (file_path : str) (file_data : FileData) :
  read_file env file_path = Ok file_data -> fd_filename file_data = name file_path.
Proof. intros H. by destruct (read_file_typed _ _ _ H) as (_ & ? & _). Qed.

(** X5.  Every file that [read_file] returns has a recognizer: its type is
    image or text, so the branch of [process_file] and of the worker for an
    unsupported file type is never taken. *)
Theorem every_read_file_has_a_recognizer (cfg : Config) (env : Env) (file_path : str)
    (file_data : FileData) :
  read_file env file_path = Ok file_data ->
  exists llm_response, recognize cfg env file_data = Some llm_response.
Proof.
  intros H. unfold recognize.
  destruct (read_file_type _ _ _ H) as [-> | ->].
  - eexists. reflexivity.
  - eexists. reflexivity.
Qed.

Lemma every_read_file_has_a_recognizer_witness :
  let env := example_env example_files example_reply true in
  exists llm_response,
    recognize example_config env
      {| fd_type := py "text"; fd_content := py "scans/b.txt";
         fd_filename := py "b.txt"; fd_mime_type := py "text/plain" |}
    = Some llm_response.
Proof.
  intros env.
  apply (every_read_file_has_a_recognizer example_config env (py "scans/b.txt")).
  vm_compute. reflexivity.
Defined.

Lemma supported_extensions_split :
  supported_extensions = supported_image_extensions ++ [py ".txt"].
Proof. reflexivity. Qed.

(** X6.  Discovery and reading agree on the supported extensions: a file
    that [get_files_from_directory] lists has an image extension or the
    extension .txt, so [read_file] never refuses it for its type; if it
    still exists, it is returned exactly when its content can be read in
    the way of its type: the bytes of an image, the text of a .txt file as
    UTF-8 or, if that fails to decode, as Windows-1251. *)
Theorem discovered_files_are_readable (env : Env) (directory_path : str)
    (recursive : bool) (files : list str) (f : str) :
  get_files_from_directory env directory_path recursive = Ok files ->
  f ∈ files ->
  exists_ env f = Ok true ->
  (lower (suffix f) ∈ supported_image_extensions
   ∧ ((exists file_data, read_file env f = Ok file_data)
      <-> exists image_data, read_bytes env f = Ok image_data))
  ∨ (lower (suffix f) = py ".txt"
     ∧ ((exists file_data, read_file env f = Ok file_data)
        <-> (exists text_content, read_text env f (py "utf-8") = Ok text_content)
            ∨ (read_text env f (py "utf-8") = Raise UnicodeDecodeError
               ∧ exists text_content, read_text env f (py "cp1251") = Ok text_content))).
Proof.
  unfold get_files_from_directory. destruct (is_dir env directory_path); [|done].
  cbn [negb]. intros [= <-] Hf He.
  apply elem_of_filter in Hf as [_ Hf]. apply andb_true_iff in Hf as [_ Hf].
  apply str_in_spec in Hf. rewrite supported_extensions_split in Hf.
  apply elem_of_app in Hf as [Himg | Htxt%list_elem_of_singleton].
  - left. split; [done|]. unfold read_file. rewrite He. cbn [mbind result_bind negb].
    apply str_in_spec in Himg. rewrite Himg. cbv zeta.
    destruct (read_bytes env f) as [image_data|e]; cbn.
    + split; intros _; by eexists.
    + split; intros [? ?]; done.
  - right. split; [done|]. unfold read_file. rewrite He. cbn [mbind result_bind negb].
    rewrite Htxt.
    change (str_in (py ".txt") supported_image_extensions) with false.
    change (str_eqb (py ".txt") (py ".txt")) with true. cbv iota.
    destruct (read_text env f (py "utf-8")) as [t|e].
    + split; [intros _; left | intros _]; by eexists.
    + destruct e;
        try (split; [by intros [? ?] | intros [[? ?] | [? _]]; done]).
      destruct (read_text env f (py "cp1251")) as [t|e].
      * split; [intros _; right; split; [done|] | intros _]; by eexists.
      * split; [by intros [? ?] | intros [[? ?] | [_ [? ?]]]; done].
Qed.

Lemma discovered_files_are_readable_witness :
  let env := example_env example_files example_reply true in
  let f := py "scans/c.jpg" in
  (lower (suffix f) ∈ supported_image_extensions
   ∧ ((exists file_data, read_file env f = Ok file_data)
      <-> exists image_data, read_bytes env f = Ok image_data))
  ∨ (lower (suffix f) = py ".txt"
     ∧ ((exists file_data, read_file env f = Ok file_data)
        <-> (exists text_content, read_text env f (py "utf-8") = Ok text_content)
            ∨ (read_text env f (py "utf-8") = Raise UnicodeDecodeError
               ∧ exists text_content, read_text env f (py "cp1251") = Ok text_content))).
Proof.
  intros env f.
  apply (discovered_files_are_readable env (py "scans") false example_files f).
  - vm_compute. reflexivity.
  - apply (bool_decide_unpack _). vm_compute. exact I.
  - reflexivity.
Defined.

(** ** The answers of the client *)

Lemma generate_content_error_text cfg env c log_thinking :
  let r := _generate_content cfg env c log_thinking in
  error r ≠ None -> text r = [].
Proof.
  unfold _generate_content, generate_content_body.
  destruct (generate_content env c) as [response|]; cbn; [|done].
  destruct (block_reason response); cbn; [done|].
  destruct (has_content_parts response); cbn.
  - by destruct (response_text response).
  - destruct (response_text response) as [t|]; [|done].
    case_bool_decide as Ht; cbn; [by rewrite Ht | done].
Qed.

(** X7.  An answer of the client that carries an error carries no text:
    whether the image could not be opened, the API call raised, the content
    was blocked or the response was empty, the text of the answer is the
    empty string. *)
Theorem error_responses_carry_no_text (cfg : Config) (env : Env)
    (image_data mime_type text_data : str) (log_thinking : bool) :
  (error (process_image cfg env image_data mime_type log_thinking) ≠ None ->
   text (process_image cfg env image_data mime_type log_thinking) = [])
  ∧ (error (process_text cfg env text_data log_thinking) ≠ None ->
     text (process_text cfg env text_data log_thinking) = []).
Proof.
  split.
  - unfold process_image. destruct (image_open env image_data); [|done].
    apply generate_content_error_text.
  - apply generate_content_error_text.
Qed.

Lemma response_usage_invariants cfg env log_thinking n response t u :
  response_usage cfg env log_thinking n response t = Some u ->
  thinking_enabled u = log_thinking
  ∧ thinking_budget u = (if log_thinking then THINKING_BUDGET cfg else 0)%Z
  ∧ (0 <= default 0 (thinking_tokens_used u))%Z
  ∧ (log_thinking = false ->
     default 0%Z (thinking_tokens_used u) = 0%Z
     ∧ thinking_budget_exceeded u ≠ Some true)
  ∧ (thinking_budget_exceeded u = Some true <->
     log_thinking = true ∧ is_estimated u = None
     ∧ (default 0 (thinking_tokens_used u) > THINKING_BUDGET cfg)%Z)
  ∧ (is_estimated u = Some true ->
     total_token_count u = (prompt_token_count u + candidates_token_count u)%Z
     ∧ thinking_tokens_used u = None).
Proof.
  unfold response_usage. destruct (api_usage_metadata response) as [a|].
  - intros [= <-]. cbn. destruct log_thinking; cbn.
    + split_and!; try done; try lia. split.
      * intros [= Hb]. apply bool_decide_eq_true in Hb. by split_and!.
      * intros (_ & _ & Hb). f_equal. by apply bool_decide_eq_true.
    + split_and!; try done. split; [done | by intros (? & _)].
  - destruct (count_text_tokens env t); [|done]. intros [= <-]. cbn.
    split_and!; try done; try (by destruct log_thinking).
    split; [done | by intros (_ & ? & _)].
Qed.

(** X8.  The usage record of an answer of the client: thinking is enabled
    exactly when thinking is logged, and the budget recorded is then the
    configured one and zero otherwise; the thinking tokens used are never
    negative, and zero when thinking is not logged, whatever the API
    reports; the budget is flagged as exceeded exactly when thinking is
    logged, the counts come from the API and the tokens used are more than
    the budget; an estimated record has a total that is the sum of prompt
    and output tokens and no thinking tokens. *)
Theorem client_usage_invariants (cfg : Config) (env : Env) (c : content)
    (log_thinking : bool) (u : UsageMetadata) :
  usage_metadata (_generate_content cfg env c log_thinking) = Some u ->
  thinking_enabled u = log_thinking
  ∧ thinking_budget u = (if log_thinking then THINKING_BUDGET cfg else 0)%Z
  ∧ (0 <= default 0 (thinking_tokens_used u))%Z
  ∧ (log_thinking = false ->
     default 0%Z (thinking_tokens_used u) = 0%Z
     ∧ thinking_budget_exceeded u ≠ Some true)
  ∧ (thinking_budget_exceeded u = Some true <->
     log_thinking = true ∧ is_estimated u = None
     ∧ (default 0 (thinking_tokens_used u) > THINKING_BUDGET cfg)%Z)
  ∧ (is_estimated u = Some true ->
     total_token_count u = (prompt_token_count u + candidates_token_count u)%Z
     ∧ thinking_tokens_used u = None).
Proof.
  unfold _generate_content, generate_content_body.
  destruct (generate_content env c) as [response|]; cbn; [|done].
  destruct (block_reason response); cbn.
  { apply response_usage_invariants. }
  destruct (has_content_parts response); cbn.
  - destruct (response_text response); cbn; [|done]. apply response_usage_invariants.
  - destruct (response_text response) as [t|]; cbn; [|done].
    case_bool_decide; cbn; apply response_usage_invariants.
Qed.

Lemma client_usage_invariants_witness :
  let cfg := example_config in
  let u :=
    {| prompt_token_count := 1000000; candidates_token_count := 0;
       total_token_count := 1000000; thinking_enabled := true;
       thinking_budget := 8192; thinking_tokens_used := Some 0%Z;
       thinking_budget_exceeded := Some false; is_estimated := None |} in
  thinking_enabled u = true
  ∧ thinking_budget u = THINKING_BUDGET cfg
  ∧ (0 <= default 0 (thinking_tokens_used u))%Z
  ∧ (true = false ->
     default 0%Z (thinking_tokens_used u) = 0%Z
     ∧ thinking_budget_exceeded u ≠ Some true)
  ∧ (thinking_budget_exceeded u = Some true <->
     true = true ∧ is_estimated u = None
     ∧ (default 0 (thinking_tokens_used u) > THINKING_BUDGET cfg)%Z)
  ∧ (is_estimated u = Some true ->
     total_token_count u = (prompt_token_count u + candidates_token_count u)%Z
     ∧ thinking_tokens_used u = None).
Proof.
  intros cfg u.
  apply (client_usage_invariants cfg (example_env example_files example_reply true)
           (ImageContent (py "scans/a.png")) true u).
  vm_compute. reflexivity.
Defined.

(** ** The accounts of a run: cost, usage, counters, collected data *)

Lemma accounted_same (w w' : World) :
  total_cost (self w') = total_cost (self w) ->
  usage_metadata_list (self w') = usage_metadata_list (self w) ->
  run_metadata (self w') = run_metadata (self w) ->
  all_data (self w') = all_data (self w) ->
  accounted w w' 0 [] 0 0 [].
Proof.
  intros Hc Hu Hm Hd. split; rewrite ?Hc, ?Hu, ?Hm, ?Hd, ?app_nil_r, ?Nat.add_0_r; try done.
  ring.
Qed.

Lemma count_of_cons (f : str -> bool) (q : str) (l : list str) :
  count_of f (q :: l) = ((if f q then 1 else 0) + count_of f l)%nat.
Proof. unfold count_of. cbn. by destruct (f q). Qed.

(** What [process_file] adds to the accounts, and what it returns: every
    answer that comes with a usage record is priced, also an answer with an
    error and one that does not validate; an answer whose validation ends
    in the last [except] clause is priced twice. *)
Lemma process_file_accounts cfg env p w :
  accounted w (process_file cfg env p w).2
    (sequential_charge cfg env p) (sequential_usage cfg env p)
    (if file_ok cfg env p then 1 else 0) (if file_ok cfg env p then 0 else 1)
    (saved cfg env p)
  ∧ (process_file cfg env p w).1
    = Ok (if file_ok cfg env p then Some (records_of cfg env p) else None).
Proof.
  destruct w as [[tc ul rm pf fs ad] ck].
  unfold saved, sequential_charge, sequential_usage, priced_again, records_of, call_usage,
    answer, written, file_ok, process_file, process_file_handlers,
    _calculate_and_log_cost, save_to_excel, _save_checkpoint, write_checkpoint.
  unfold_monad. cbn.
  destruct (read_file env p) as [fd|e] eqn:Hfd; cbn.
  2:{ destruct e, (CALCULATE_COST cfg); cbn; finish_accounts. }
  rewrite <- (read_file_filename _ _ _ Hfd).
  destruct (recognize cfg env fd) as [r|]; cbn.
  2:{ destruct (CALCULATE_COST cfg); finish_accounts. }
  destruct (error r); cbn.
  { destruct (CALCULATE_COST cfg), (usage_metadata r); cbn; finish_accounts. }
  destruct (validate_json_output (limits env) (text r)) as [records|e] eqn:Hv.
  2:{ destruct e, (CALCULATE_COST cfg), (usage_metadata r); cbn; finish_accounts. }
  destruct (CALCULATE_COST cfg), (usage_metadata r),
    (bool_decide (records = [])), (make_dataframe env records),
    (to_excel env records (fd_filename fd)),
    (ENABLE_CHECKPOINTING cfg), (checkpoint_writable env); cbn; finish_accounts.
Qed.

Lemma sequential_loop_accounts cfg env files :
  NoDup files ->
  forall w,
    accounted w (sequential_loop cfg env files w).2
      (Qsum (sequential_charge cfg env
               <$> List.filter (not_in (processed_files (self w))) files))
      (concat (sequential_usage cfg env
                 <$> List.filter (not_in (processed_files (self w))) files))
      (count_of (file_ok cfg env) (List.filter (not_in (processed_files (self w))) files))
      (count_of (fun q => negb (file_ok cfg env q))
         (List.filter (not_in (processed_files (self w))) files))
      (concat (saved cfg env <$> List.filter (not_in (processed_files (self w))) files)).
Proof.
  induction 1 as [|q rest Hq Hnd IH]; intros w.
  - by apply accounted_same.
  - cbn [sequential_loop List.filter]. unfold_monad.
    change (not_in (processed_files (self w)) q)
      with (negb (bool_decide (q ∈ processed_files (self w)))).
    destruct (bool_decide (q ∈ processed_files (self w))) eqn:Hin; cbn [negb].
    + specialize (IH {| self := set_file_status (append_skipped q (file_status (self w)))
                                  (self w);
                        checkpoint_file := checkpoint_file w |}).
      destruct IH as [Hc Hu Hs Hf Hd].
      destruct w as [[tc ul rm pf fs ad] ck]. by split.
    + destruct (process_file_accounts cfg env q w) as [[Hc Hu Hs Hf Hd] _].
      destruct (process_file_effect cfg env q w) as (res & w1 & Heq & _ & _ & Hp1 & _).
      rewrite Heq in *. cbn [snd] in *.
      destruct (IH w1) as [Hc' Hu' Hs' Hf' Hd'].
      rewrite Hp1, filter_dispatch_ext in * by done.
      rewrite !count_of_cons. cbn [fmap list_fmap Qsum foldr concat].
      split.
      * rewrite Hc', Hc. unfold Qsum. ring.
      * by rewrite Hu', Hu, <- app_assoc.
      * rewrite Hs', Hs. lia.
      * rewrite Hf', Hf. destruct (file_ok cfg env q); cbn; lia.
      * by rewrite Hd', Hd, <- app_assoc.
Qed.

(** The tuple a worker returns. *)
Lemma wrapper_tuple cfg env p on_disk :
  (_process_file_wrapper cfg env p on_disk).1
  = (if file_ok cfg env p then Some (records_of cfg env p) else None,
     worker_cost cfg env p,
     if file_ok cfg env p then success else failed_status,
     call_usage cfg env p).
Proof.
  unfold _process_file_wrapper, file_ok, records_of, worker_cost, call_usage, answer.
  destruct (read_file env p) as [fd|]; [|done].
  destruct (recognize cfg env fd) as [r|]; [|done].
  destruct (error r); [by destruct (usage_metadata r)|].
  destruct (validate_json_output (limits env) (text r)); by destruct (usage_metadata r).
Qed.

Lemma collect_accounts cfg env p w :
  accounted w (collect env p (future_of cfg env p) w).2
    (parallel_charge cfg env p) (parallel_usage cfg env p)
    (if worker_ok cfg env p then 1 else 0) (if worker_ok cfg env p then 0 else 1)
    (if worker_ok cfg env p then saved cfg env p else []).
Proof.
  destruct w as [[tc ul rm pf fs ad] ck].
  unfold future_of, parallel_charge, parallel_usage, worker_ok.
  destruct (worker_exit env p).
  2:{ unfold collect. unfold_monad. cbn. split; cbn; rewrite ?app_nil_r; try done. ring. }
  rewrite wrapper_tuple. unfold saved, written, worker_cost.
  unfold collect, collect_result, save_to_excel. unfold_monad. cbn.
  destruct (file_ok cfg env p) eqn:Hok; cbn.
  - unfold file_ok, records_of, call_usage, answer in *.
    destruct (read_file env p) as [fd|]; [|done].
    destruct (recognize cfg env fd) as [r|]; [|done].
    destruct (error r); [done|].
    destruct (validate_json_output (limits env) (text r)) as [records|]; [|done].
    destruct records as [|r0 records]; cbn;
      repeat match goal with
             | |- context [make_dataframe env ?d] => destruct (make_dataframe env d); cbn
             | |- context [to_excel env ?d ?f] => destruct (to_excel env d f); cbn
             end;
      destruct (usage_metadata r) as [u|]; cbn;
      try destruct (Qgtb (worker_file_cost cfg u) 0);
      try change (Qgtb 0 0) with false; cbn;
      split; cbn; rewrite ?app_nil_r; try done; try ring.
  - unfold call_usage. destruct (answer cfg env p) as [r|]; cbn.
    + destruct (error r), (usage_metadata r) as [u|]; cbn;
        try destruct (Qgtb (worker_file_cost cfg u) 0);
        try change (Qgtb 0 0) with false; cbn;
        split; cbn; rewrite ?app_nil_r; try done; try ring.
    + change (Qgtb 0 0) with false. cbn.
      split; cbn; rewrite ?app_nil_r; try done; try ring.
Qed.

Lemma submit_all_keeps cfg env files :
  forall w,
    total_cost (self (submit_all cfg env files w).2) = total_cost (self w)
    ∧ usage_metadata_list (self (submit_all cfg env files w).2)
      = usage_metadata_list (self w)
    ∧ all_data (self (submit_all cfg env files w).2) = all_data (self w).
Proof.
  induction files as [|q rest IH]; intros w; [done|].
  cbn [submit_all]. unfold_monad.
  destruct (bool_decide (q ∈ processed_files (self w))).
  - specialize (IH {| self := set_file_status (append_skipped q (file_status (self w)))
                                (self w);
                      checkpoint_file := checkpoint_file w |}).
    by destruct w as [[tc ul rm pf fs ad] ck].
  - rewrite submit_effect. specialize (IH w).
    by destruct (submit_all cfg env rest w) as [[futures|] w'].
Qed.

Lemma collect_all_accounts cfg env files :
  forall w,
    accounted w (collect_all env ((fun q => (q, future_of cfg env q)) <$> files) w).2
      (Qsum (parallel_charge cfg env <$> files))
      (concat (parallel_usage cfg env <$> files))
      (count_of (worker_ok cfg env) files)
      (count_of (fun q => negb (worker_ok cfg env q)) files)
      (concat ((fun q => if worker_ok cfg env q then saved cfg env q else []) <$> files)).
Proof.
  induction files as [|q rest IH]; intros w.
  - by apply accounted_same.
  - cbn [collect_all fmap list_fmap]. unfold mbind, M_bind.
    destruct (collect_accounts cfg env q w) as [Hc Hu Hs Hf Hd].
    destruct (collect_effect env q (future_of cfg env q) w) as (w1 & Heq & _).
    rewrite Heq in *. cbn [snd] in *.
    destruct (IH w1) as [Hc' Hu' Hs' Hf' Hd'].
    rewrite !count_of_cons. cbn [Qsum foldr concat].
    split.
    + rewrite Hc', Hc. unfold Qsum. ring.
    + by rewrite Hu', Hu, <- app_assoc.
    + rewrite Hs', Hs. lia.
    + rewrite Hf', Hf. destruct (worker_ok cfg env q); cbn; lia.
    + by rewrite Hd', Hd, <- app_assoc.
Qed.

Lemma get_combined_dataframe_eq env w :
  get_combined_dataframe env w = (Ok (combined env (all_data (self w))), w).
Proof.
  unfold get_combined_dataframe, combined. unfold_monad.
  case_bool_decide as He; [|by destruct (make_dataframe env _)].
  rewrite He. by destruct (make_dataframe env []).
Qed.

Lemma load_checkpoint_keeps cfg w :
  total_cost (self (_load_checkpoint cfg w).2) = total_cost (self w)
  ∧ usage_metadata_list (self (_load_checkpoint cfg w).2) = usage_metadata_list (self w)
  ∧ all_data (self (_load_checkpoint cfg w).2) = all_data (self w).
Proof.
  unfold _load_checkpoint. destruct (RESUME_FROM_CHECKPOINT cfg); [|done].
  by destruct (checkpoint_file w).
Qed.

Lemma saved_not_ok cfg env p : file_ok cfg env p = false -> saved cfg env p = [].
Proof. unfold saved. by intros ->. Qed.

(** The accounts at the end of a directory run over distinct files, in
    terms of the files dispatched. *)
Lemma process_directory_accounts cfg env directory_path recursive parallel max_workers
    files w :
  get_files_from_directory env directory_path recursive = Ok files ->
  NoDup files ->
  let dispatched := List.filter (not_in (loaded_checkpoint cfg w)) files in
  exists records w',
    process_directory cfg env directory_path recursive parallel max_workers w
    = (Ok records, w')
    ∧ (total_cost (self w') == Qsum (mode_charge cfg env parallel <$> dispatched))%Q
    ∧ usage_metadata_list (self w') = concat (mode_usage cfg env parallel <$> dispatched)
    ∧ successful_files (run_metadata (self w'))
      = count_of (mode_ok cfg env parallel) dispatched
    ∧ failed_files (run_metadata (self w'))
      = count_of (fun q => negb (mode_ok cfg env parallel q)) dispatched
    ∧ all_data (self w')
      = all_data (self w) ++ concat (mode_saved cfg env parallel <$> dispatched)
    ∧ records = (if bool_decide (files = []) then []
                 else combined env (all_data (self w'))).
Proof.
  intros Hfiles Hnd dispatched. subst dispatched. unfold process_directory.
  unfold mbind at 1, M_bind at 1. rewrite reset_run_eq.
  unfold mbind at 1, M_bind at 1. unfold try_except, call.
  unfold mbind at 1, M_bind at 1. rewrite Hfiles. cbn [mret M_ret].
  destruct files as [|f0 files0] eqn:Ef.
  { cbn. do 2 eexists. split; [reflexivity|]. cbn. rewrite app_nil_r. done. }
  rewrite bool_decide_eq_false_2 by done.
  rewrite <- Ef in *. clear Ef f0 files0.
  unfold mbind at 1, M_bind at 1.
  pose proof (load_checkpoint_keeps cfg (reset_world cfg recursive parallel max_workers w))
    as (Hc0 & Hu0 & Hd0).
  destruct (load_checkpoint_effect cfg (reset_world cfg recursive parallel max_workers w))
    as (w0 & Heq0 & Hp0 & _ & Hr0 & _).
  rewrite Heq0 in *. cbn [snd] in *.
  change (loaded_checkpoint cfg (reset_world cfg recursive parallel max_workers w))
    with (loaded_checkpoint cfg w) in Hp0.
  cbn in Hc0, Hu0, Hd0, Hr0.
  unfold mbind at 1, M_bind at 1. unfold mode_charge, mode_usage, mode_saved, mode_ok.
  destruct parallel.
  - cbv zeta. unfold mbind at 1, M_bind at 1.
    pose proof (submit_all_keeps cfg env files w0) as (Hc1 & Hu1 & Hd1).
    destruct (submit_all_effect cfg env files w0) as (w1 & Heq1 & _ & _ & _ & _ & Hr1 & _).
    rewrite Heq1 in *. cbn [snd] in *.
    unfold mbind at 1, M_bind at 1.
    destruct (collect_all_accounts cfg env
                (List.filter (not_in (processed_files (self w0))) files) w1)
      as [Hc Hu Hs Hf Hd].
    destruct (collect_all_effect cfg env
                (List.filter (not_in (processed_files (self w0))) files) w1)
      as (w' & Heq & _).
    rewrite Heq in *. cbn [snd] in *.
    unfold join_workers. rewrite get_combined_dataframe_eq.
    do 2 eexists. split; [reflexivity|]. cbn [self].
    rewrite Hp0 in *.
    rewrite Hc, Hu, Hs, Hf, Hd, Hc1, Hu1, Hd1, Hr1, Hc0, Hu0, Hd0, Hr0. cbn.
    split_and!; try done. apply Qplus_0_l.
  - destruct (sequential_loop_accounts cfg env files Hnd w0) as [Hc Hu Hs Hf Hd].
    destruct (sequential_loop_effect cfg env files Hnd w0) as (w' & Heq & _).
    rewrite Heq in *. cbn [snd] in *.
    rewrite get_combined_dataframe_eq.
    do 2 eexists. split; [reflexivity|].
    rewrite Hp0 in *.
    rewrite Hc, Hu, Hs, Hf, Hd, Hc0, Hu0, Hd0, Hr0. cbn.
    split_and!; try done; [apply Qplus_0_l|].
    do 2 f_equal. apply list_fmap_ext. intros i q _.
    destruct (file_ok cfg env q) eqn:Hok; [done|]. by apply saved_not_ok.
Qed.

Lemma Qsum_zero {A} (f : A -> Q) (l : list A) :
  (forall x, f x = 0%Q) -> (Qsum (f <$> l) == 0)%Q.
Proof.
  intros Hf. induction l as [|x l IH]; cbn; [done|]. rewrite Hf, IH. ring.
Qed.

Lemma concat_nil {A B} (f : A -> list B) (l : list A) :
  (forall x, f x = []) -> concat (f <$> l) = [].
Proof. intros Hf. induction l as [|x l IH]; cbn; [done|]. by rewrite Hf, IH. Qed.

(** X9.  The sequential mode prices every answer, and one kind of answer
    twice.  At the end of a sequential directory run the total cost is the
    sum, over the files dispatched (discovered and not in the loaded
    checkpoint), of the price of the usage record that came with the answer
    of the recognizer for the file, an answer with an error or one that
    fails validation included, and the usage list holds these records in
    the order of the files.  An answer without error whose validation
    raises an exception that is neither a [ValueError] nor a [TypeError]
    (the [RecursionError] of the decoder) ends in the last [except] clause
    of [process_file], which prices it again: its price is added twice and
    its record listed twice.  With cost calculation switched off the total
    is zero and the usage list is empty. *)
Theorem sequential_run_prices_every_answer (cfg : Config) (env : Env)
    (directory_path : str) (recursive : bool) (max_workers : option positive)
    (files : list str) (w : World) :
  get_files_from_directory env directory_path recursive = Ok files ->
  NoDup (glob env directory_path (if recursive then py "**/*" else py "*")) ->
  let dispatched := List.filter (not_in (loaded_checkpoint cfg w)) files in
  let w' := (process_directory cfg env directory_path recursive false max_workers w).2 in
  (total_cost (self w') == Qsum (sequential_charge cfg env <$> dispatched))%Q
  ∧ usage_metadata_list (self w') = concat (sequential_usage cfg env <$> dispatched)
  ∧ (CALCULATE_COST cfg = false ->
     (total_cost (self w') == 0)%Q ∧ usage_metadata_list (self w') = [])
  ∧ (forall p u, CALCULATE_COST cfg = true -> call_usage cfg env p = Some u ->
       if priced_again cfg env p
       then (sequential_charge cfg env p == call_price cfg u + call_price cfg u)%Q
            ∧ sequential_usage cfg env p = [u; u]
       else (sequential_charge cfg env p == call_price cfg u)%Q
            ∧ sequential_usage cfg env p = [u]).
Proof.
  intros Hfiles Hglob dispatched w'. subst dispatched w'.
  pose proof (discovered_NoDup _ _ _ _ Hfiles Hglob) as Hnd.
  destruct (process_directory_accounts cfg env directory_path recursive false max_workers
              files w Hfiles Hnd) as (records & w' & -> & Hc & Hu & _).
  cbn [snd]. split; [done|]. split; [done|]. split.
  - intros Hoff. rewrite Hc, Hu. split.
    + apply Qsum_zero. intros q. unfold mode_charge, sequential_charge. by rewrite Hoff.
    + apply concat_nil. intros q. unfold mode_usage, sequential_usage. by rewrite Hoff.
  - intros p u Hon Hcall. unfold sequential_charge, sequential_usage.
    rewrite Hon, Hcall. by destruct (priced_again cfg env p).
Qed.

Lemma sequential_run_prices_every_answer_witness :
  let cfg := example_config in
  let env := example_env example_files example_reply true in
  let w := fresh cfg None in
  let dispatched := List.filter (not_in (loaded_checkpoint cfg w)) example_files in
  let w' := (process_directory cfg env (py "scans") false false None w).2 in
  (total_cost (self w') == Qsum (sequential_charge cfg env <$> dispatched))%Q
  ∧ usage_metadata_list (self w') = concat (sequential_usage cfg env <$> dispatched)
  ∧ (CALCULATE_COST cfg = false ->
     (total_cost (self w') == 0)%Q ∧ usage_metadata_list (self w') = [])
  ∧ (forall p u, CALCULATE_COST cfg = true -> call_usage cfg env p = Some u ->
       if priced_again cfg env p
       then (sequential_charge cfg env p == call_price cfg u + call_price cfg u)%Q
            ∧ sequential_usage cfg env p = [u; u]
       else (sequential_charge cfg env p == call_price cfg u)%Q
            ∧ sequential_usage cfg env p = [u]).
Proof.
  intros cfg env w.
  apply (sequential_run_prices_every_answer cfg env (py "scans") false None
           example_files w).
  - vm_compute. reflexivity.
  - apply (bool_decide_unpack _). vm_compute. exact I.
Defined.

(** X10.  The parallel mode prices the answers without error only, and
    does so whatever the cost switch says.  At the end of a parallel
    directory run the total cost is the sum, over the files dispatched, of
    the cost the worker of the file reports when that cost is more than
    zero: the price of the usage record of an answer without error, and
    nothing for an answer with an error, for a file that could not be read
    and for a worker that died.  The usage list holds the usage records of
    all answers, those with an error included, of the workers that stayed
    alive. *)
Theorem parallel_run_prices_valid_answers_only (cfg : Config) (env : Env)
    (directory_path : str) (recursive : bool) (max_workers : option positive)
    (files : list str) (w : World) :
  get_files_from_directory env directory_path recursive = Ok files ->
  NoDup (glob env directory_path (if recursive then py "**/*" else py "*")) ->
  let dispatched := List.filter (not_in (loaded_checkpoint cfg w)) files in
  let w' := (process_directory cfg env directory_path recursive true max_workers w).2 in
  (total_cost (self w') == Qsum (parallel_charge cfg env <$> dispatched))%Q
  ∧ usage_metadata_list (self w') = concat (parallel_usage cfg env <$> dispatched).
Proof.
  intros Hfiles Hglob dispatched w'. subst dispatched w'.
  pose proof (discovered_NoDup _ _ _ _ Hfiles Hglob) as Hnd.
  destruct (process_directory_accounts cfg env directory_path recursive true max_workers
              files w Hfiles Hnd) as (records & w' & -> & Hc & Hu & _).
  done.
Qed.

Lemma parallel_run_prices_valid_answers_only_witness :
  let cfg := example_config in
  let env := example_env example_files example_reply true in
  let w := fresh cfg None in
  let dispatched := List.filter (not_in (loaded_checkpoint cfg w)) example_files in
  let w' := (process_directory cfg env (py "scans") false true None w).2 in
  (total_cost (self w') == Qsum (parallel_charge cfg env <$> dispatched))%Q
  ∧ usage_metadata_list (self w') = concat (parallel_usage cfg env <$> dispatched).
Proof.
  intros cfg env w.
  apply (parallel_run_prices_valid_answers_only cfg env (py "scans") false None
           example_files w).
  - vm_compute. reflexivity.
  - apply (bool_decide_unpack _). vm_compute. exact I.
Defined.

(** X11.  The counters of the run metadata agree with the ledger.  After a
    directory run of a new extractor, in either mode, the counter of
    successful files is the length of the successful list and the counter
    of failed files the length of the failed list; the counter of total
    files is their sum, so it counts the files dispatched and not the files
    skipped, and together with the skipped files it gives the number of
    files discovered. *)
Theorem run_counters_match_the_ledger (cfg : Config) (env : Env)
    (directory_path : str) (recursive parallel : bool) (max_workers : option positive)
    (on_disk : option (list str)) (files : list str) :
  get_files_from_directory env directory_path recursive = Ok files ->
  NoDup (glob env directory_path (if recursive then py "**/*" else py "*")) ->
  let w' := (process_directory cfg env directory_path recursive parallel max_workers
               (fresh cfg on_disk)).2 in
  let counters := run_metadata (self w') in
  let ledger := file_status (self w') in
  successful_files counters = length (successful ledger)
  ∧ failed_files counters = length (failed ledger)
  ∧ total_files counters = (successful_files counters + failed_files counters)%nat
  ∧ (total_files counters + length (skipped ledger) = length files)%nat.
Proof.
  intros Hfiles Hglob w' counters ledger. subst counters ledger w'.
  pose proof (discovered_NoDup _ _ _ _ Hfiles Hglob) as Hnd.
  destruct (process_directory_accounts cfg env directory_path recursive parallel
              max_workers files (fresh cfg on_disk) Hfiles Hnd)
    as (records & w' & Hrun & _ & _ & Hs & Hf & _).
  destruct (process_directory_effect cfg env directory_path recursive parallel
              max_workers files (fresh cfg on_disk) Hfiles Hnd)
    as (records' & w'' & Hrun' & Hsl & Hfl & Hkl & Ht & _).
  rewrite Hrun in Hrun'. injection Hrun' as <- <-. rewrite Hrun. cbn [snd].
  rewrite Hs, Hf, Ht, Hsl, Hfl, Hkl. cbn [fresh self new_extractor file_status
    successful failed skipped app]. unfold count_of. rewrite !filter_filter.
  set (a := not_in (loaded_checkpoint cfg (fresh cfg on_disk))).
  set (ok := mode_ok cfg env parallel).
  pose proof (three_way_split a ok files) as H3.
  apply Permutation_length in H3. rewrite !length_app in H3.
  pose proof (filter_complement ok (List.filter a files)) as H2.
  apply Permutation_length in H2. rewrite length_app, !filter_filter in H2.
  split_and!; try done; lia.
Qed.

Lemma run_counters_match_the_ledger_witness :
  let w' := (process_directory example_config
               (example_env example_files example_reply true) (py "scans") false true
               None (fresh example_config (Some [py "scans/a.png"]))).2 in
  let counters := run_metadata (self w') in
  let ledger := file_status (self w') in
  successful_files counters = length (successful ledger)
  ∧ failed_files counters = length (failed ledger)
  ∧ total_files counters = (successful_files counters + failed_files counters)%nat
  ∧ (total_files counters + length (skipped ledger) = length example_files)%nat.
Proof.
  apply (run_counters_match_the_ledger example_config
           (example_env example_files example_reply true) (py "scans") false true None
           (Some [py "scans/a.png"]) example_files).
  - vm_compute. reflexivity.
  - apply (bool_decide_unpack _). vm_compute. exact I.
Defined.

(** X12.  The collected data of a run of a new extractor is the
    concatenation, in the order of the files dispatched, of the records of
    the successful files whose spreadsheet was written, and the run returns
    these records if a data frame can be built from them and none
    otherwise.  A successful file whose spreadsheet is not written, for
    want of records or because building or saving the data frame fails,
    adds nothing to the collected data and still counts as successful. *)
Theorem combined_data_holds_the_written_records (cfg : Config) (env : Env)
    (directory_path : str) (recursive parallel : bool) (max_workers : option positive)
    (on_disk : option (list str)) (files : list str) :
  get_files_from_directory env directory_path recursive = Ok files ->
  NoDup (glob env directory_path (if recursive then py "**/*" else py "*")) ->
  let run := process_directory cfg env directory_path recursive parallel max_workers
               (fresh cfg on_disk) in
  let dispatched :=
    List.filter (not_in (loaded_checkpoint cfg (fresh cfg on_disk))) files in
  all_data (self run.2) = concat (mode_saved cfg env parallel <$> dispatched)
  ∧ run.1 = Ok (combined env (all_data (self run.2)))
  ∧ forall p, p ∈ dispatched ->
      mode_ok cfg env parallel p = true ->
      written env (records_of cfg env p) (name p) = false ->
      mode_saved cfg env parallel p = [] ∧ p ∈ successful (file_status (self run.2)).
Proof.
  intros Hfiles Hglob run dispatched. subst run dispatched.
  pose proof (discovered_NoDup _ _ _ _ Hfiles Hglob) as Hnd.
  destruct (process_directory_accounts cfg env directory_path recursive parallel
              max_workers files (fresh cfg on_disk) Hfiles Hnd)
    as (records & w' & Hrun & _ & _ & _ & _ & Hd & Hr).
  destruct (process_directory_effect cfg env directory_path recursive parallel
              max_workers files (fresh cfg on_disk) Hfiles Hnd)
    as (records' & w'' & Hrun' & Hsl & _).
  rewrite Hrun in Hrun'. injection Hrun' as <- <-. rewrite Hrun. cbn [fst snd].
  cbn [fresh self new_extractor all_data app] in Hd. split; [done|]. split.
  - rewrite Hr. case_bool_decide as He; [|done].
    rewrite Hd, He. unfold combined. cbn. by destruct (make_dataframe env []).
  - intros p Hp Hok Hw. split.
    + unfold mode_saved, saved. rewrite Hok, Hw. by rewrite andb_false_r.
    + rewrite Hsl. apply elem_of_app. right.
      apply elem_of_filter in Hp as [Hp Ha]. apply elem_of_filter. split; [done|].
      by rewrite Ha, Hok.
Qed.

Lemma combined_data_holds_the_written_records_witness :
  let cfg := example_config in
  let env := example_env example_files example_reply false in
  let run := process_directory cfg env (py "scans") false false None (fresh cfg None) in
  let dispatched :=
    List.filter (not_in (loaded_checkpoint cfg (fresh cfg None))) example_files in
  all_data (self run.2) = concat (mode_saved cfg env false <$> dispatched)
  ∧ run.1 = Ok (combined env (all_data (self run.2)))
  ∧ forall p, p ∈ dispatched ->
      mode_ok cfg env false p = true ->
      written env (records_of cfg env p) (name p) = false ->
      mode_saved cfg env false p = [] ∧ p ∈ successful (file_status (self run.2)).
Proof.
  intros cfg env.
  apply (combined_data_holds_the_written_records cfg env (py "scans") false false None
           None example_files).
  - vm_compute. reflexivity.
  - apply (bool_decide_unpack _). vm_compute. exact I.
Defined.

Lemma mode_ok_alive cfg env parallel p :
  (forall q, worker_exit env q = Ok tt) ->
  mode_ok cfg env parallel p = file_ok cfg env p.
Proof. intros Ha. unfold mode_ok, worker_ok. rewrite Ha. by destruct parallel. Qed.

Lemma filter_ext_eq {A} (f g : A -> bool) (l : list A) :
  (forall x, f x = g x) -> List.filter f l = List.filter g l.
Proof.
  intros H. induction l as [|x l IH]; [done|]. cbn. by rewrite H, IH.
Qed.

(** X13.  When no worker dies, the two modes agree on everything but the
    cost and the checkpoint file: from the same starting point a sequential
    and a parallel run over a directory return the same records and end
    with the same successful, failed and skipped lists, the same three
    counters and the same collected data, whatever the sizes of the pools.
    With cost calculation switched on they also end with the same usage
    list, provided no answer is priced again by the last [except] clause of
    [process_file]; an answer that is, is listed twice by the sequential
    run and once by the parallel run. *)
Theorem modes_agree_without_worker_deaths (cfg : Config) (env : Env)
    (directory_path : str) (recursive : bool) (workers1 workers2 : option positive)
    (files : list str) (w : World) :
  get_files_from_directory env directory_path recursive = Ok files ->
  NoDup (glob env directory_path (if recursive then py "**/*" else py "*")) ->
  (forall p, worker_exit env p = Ok tt) ->
  let sequential := process_directory cfg env directory_path recursive false workers1 w in
  let parallel := process_directory cfg env directory_path recursive true workers2 w in
  let dispatched := List.filter (not_in (loaded_checkpoint cfg w)) files in
  sequential.1 = parallel.1
  ∧ successful (file_status (self sequential.2)) = successful (file_status (self parallel.2))
  ∧ failed (file_status (self sequential.2)) = failed (file_status (self parallel.2))
  ∧ skipped (file_status (self sequential.2)) = skipped (file_status (self parallel.2))
  ∧ total_files (run_metadata (self sequential.2))
    = total_files (run_metadata (self parallel.2))
  ∧ successful_files (run_metadata (self sequential.2))
    = successful_files (run_metadata (self parallel.2))
  ∧ failed_files (run_metadata (self sequential.2))
    = failed_files (run_metadata (self parallel.2))
  ∧ all_data (self sequential.2) = all_data (self parallel.2)
  ∧ (CALCULATE_COST cfg = true ->
     usage_metadata_list (self sequential.2)
     = concat ((fun p => option_list (call_usage cfg env p)
                         ++ (if priced_again cfg env p
                             then option_list (call_usage cfg env p) else []))
               <$> dispatched)
     ∧ usage_metadata_list (self parallel.2)
       = concat ((fun p => option_list (call_usage cfg env p)) <$> dispatched)
     ∧ ((forall p, p ∈ dispatched -> priced_again cfg env p = false) ->
        usage_metadata_list (self sequential.2) = usage_metadata_list (self parallel.2))).
Proof.
  intros Hfiles Hglob Halive sequential parallel dispatched.
  subst sequential parallel dispatched.
  pose proof (discovered_NoDup _ _ _ _ Hfiles Hglob) as Hnd.
  destruct (process_directory_accounts cfg env directory_path recursive false workers1
              files w Hfiles Hnd) as (r1 & w1 & Hrun1 & _ & Hu1 & Hs1 & Hf1 & Hd1 & Hr1).
  destruct (process_directory_effect cfg env directory_path recursive false workers1
              files w Hfiles Hnd) as (r1' & w1' & Hrun1' & Hsl1 & Hfl1 & Hkl1 & Ht1 & _).
  rewrite Hrun1 in Hrun1'. injection Hrun1' as <- <-.
  destruct (process_directory_accounts cfg env directory_path recursive true workers2
              files w Hfiles Hnd) as (r2 & w2 & Hrun2 & _ & Hu2 & Hs2 & Hf2 & Hd2 & Hr2).
  destruct (process_directory_effect cfg env directory_path recursive true workers2
              files w Hfiles Hnd) as (r2' & w2' & Hrun2' & Hsl2 & Hfl2 & Hkl2 & Ht2 & _).
  rewrite Hrun2 in Hrun2'. injection Hrun2' as <- <-.
  rewrite Hrun1, Hrun2. cbn [fst snd].
  assert (all_data (self w1) = all_data (self w2)) as Hd.
  { rewrite Hd1, Hd2. do 2 f_equal. apply list_fmap_ext. intros i q _.
    unfold mode_saved. by rewrite !mode_ok_alive. }
  split_and!.
  - by rewrite Hr1, Hr2, Hd.
  - rewrite Hsl1, Hsl2. f_equal. apply filter_ext_eq. intros q.
    by rewrite !mode_ok_alive.
  - rewrite Hfl1, Hfl2. f_equal. apply filter_ext_eq. intros q.
    by rewrite !mode_ok_alive.
  - by rewrite Hkl1, Hkl2.
  - by rewrite Ht1, Ht2.
  - rewrite Hs1, Hs2. unfold count_of. f_equal. apply filter_ext_eq. intros q.
    by rewrite !mode_ok_alive.
  - rewrite Hf1, Hf2. unfold count_of. f_equal. apply filter_ext_eq. intros q.
    by rewrite !mode_ok_alive.
  - done.
  - intros Hon.
    assert (usage_metadata_list (self w1)
            = concat ((fun p => option_list (call_usage cfg env p)
                                ++ (if priced_again cfg env p
                                    then option_list (call_usage cfg env p) else []))
                      <$> List.filter (not_in (loaded_checkpoint cfg w)) files)) as Hseq.
    { rewrite Hu1. f_equal. apply list_fmap_ext. intros i q _.
      unfold mode_usage, sequential_usage. by rewrite Hon. }
    assert (usage_metadata_list (self w2)
            = concat ((fun p => option_list (call_usage cfg env p))
                      <$> List.filter (not_in (loaded_checkpoint cfg w)) files)) as Hpar.
    { rewrite Hu2. f_equal. apply list_fmap_ext. intros i q _.
      unfold mode_usage, parallel_usage. by rewrite Halive. }
    split; [done|]. split; [done|]. intros Honce. rewrite Hseq, Hpar. f_equal.
    apply list_fmap_ext. intros i q Hq. apply list_elem_of_lookup_2 in Hq.
    by rewrite (Honce q Hq), app_nil_r.
Qed.

Lemma modes_agree_without_worker_deaths_witness :
  let cfg := example_config in
  let env := example_env example_files example_reply true in
  let w := fresh cfg None in
  let sequential := process_directory cfg env (py "scans") false false None w in
  let parallel := process_directory cfg env (py "scans") false true (Some 4%positive) w in
  let dispatched := List.filter (not_in (loaded_checkpoint cfg w)) example_files in
  sequential.1 = parallel.1
  ∧ successful (file_status (self sequential.2)) = successful (file_status (self parallel.2))
  ∧ failed (file_status (self sequential.2)) = failed (file_status (self parallel.2))
  ∧ skipped (file_status (self sequential.2)) = skipped (file_status (self parallel.2))
  ∧ total_files (run_metadata (self sequential.2))
    = total_files (run_metadata (self parallel.2))
  ∧ successful_files (run_metadata (self sequential.2))
    = successful_files (run_metadata (self parallel.2))
  ∧ failed_files (run_metadata (self sequential.2))
    = failed_files (run_metadata (self parallel.2))
  ∧ all_data (self sequential.2) = all_data (self parallel.2)
  ∧ (CALCULATE_COST cfg = true ->
     usage_metadata_list (self sequential.2)
     = concat ((fun p => option_list (call_usage cfg env p)
                         ++ (if priced_again cfg env p
                             then option_list (call_usage cfg env p) else []))
               <$> dispatched)
     ∧ usage_metadata_list (self parallel.2)
       = concat ((fun p => option_list (call_usage cfg env p)) <$> dispatched)
     ∧ ((forall p, p ∈ dispatched -> priced_again cfg env p = false) ->
        usage_metadata_list (self sequential.2) = usage_metadata_list (self parallel.2))).
Proof.
  intros cfg env w.
  apply (modes_agree_without_worker_deaths cfg env (py "scans") false None
           (Some 4%positive) example_files w).
  - vm_compute. reflexivity.
  - apply (bool_decide_unpack _). vm_compute. exact I.
  - reflexivity.
Defined.

(** An answer nested deeper than the interpreter allows: its validation
    raises [RecursionError], which only the last [except] clause of
    [process_file] catches.  The sequential run prices the call twice and
    lists its usage record twice; the parallel run prices and lists it
    once.  The file fails in both. *)
Example deep_answer_is_priced_twice :
  let deep := replicate 991%nat Ch.lbracket ++ replicate 991%nat Ch.rbracket in
  let env := example_env [py "scans/a.png"] (fun _ => deep) true in
  let run parallel :=
    self (process_directory example_config env (py "scans") false parallel None
            (fresh example_config None)).2 in
  validate_json_output (limits env) deep = Raise RecursionError
  ∧ failed (file_status (run false)) = [py "scans/a.png"]
  ∧ failed (file_status (run true)) = [py "scans/a.png"]
  ∧ (total_cost (run false) == 30 # 100)%Q
  ∧ (total_cost (run true) == 15 # 100)%Q
  ∧ length (usage_metadata_list (run false)) = 2%nat
  ∧ length (usage_metadata_list (run true)) = 1%nat.
Proof. cbv zeta. repeat split; vm_compute; reflexivity. Qed.

(** ** The checkpoint file *)

(** X14.  A checkpoint that is saved is loaded back: with checkpointing
    and resume enabled and a writable checkpoint file, saving never raises
    and leaves the extractor as it is, and a new extractor that loads the
    file written starts with the processed-files set of the extractor that
    saved it. *)
Theorem saved_checkpoint_is_loaded_back (cfg : Config) (env : Env) (w : World) :
  ENABLE_CHECKPOINTING cfg = true ->
  RESUME_FROM_CHECKPOINT cfg = true ->
  checkpoint_writable env = true ->
  let stored := _save_checkpoint cfg env w in
  let restarted := _load_checkpoint cfg (fresh cfg (checkpoint_file stored.2)) in
  stored.1 = Ok tt
  ∧ self stored.2 = self w
  ∧ restarted.1 = Ok tt
  ∧ processed_files (self restarted.2) = processed_files (self w).
Proof.
  intros He Hr Hw. unfold _save_checkpoint, _load_checkpoint, write_checkpoint.
  rewrite He, Hr. unfold_monad. rewrite Hw. cbn.
  split_and!; try done. apply list_to_set_elements_L.
Qed.

Lemma saved_checkpoint_is_loaded_back_witness :
  let cfg := example_config in
  let env := example_env example_files example_reply true in
  let w := {| self := set_processed_files {[py "scans/a.png"; py "scans/c.jpg"]}
                        (new_extractor cfg);
              checkpoint_file := None |} in
  let stored := _save_checkpoint cfg env w in
  let restarted := _load_checkpoint cfg (fresh cfg (checkpoint_file stored.2)) in
  stored.1 = Ok tt
  ∧ self stored.2 = self w
  ∧ restarted.1 = Ok tt
  ∧ processed_files (self restarted.2) = processed_files (self w).
Proof.
  intros cfg env w.
  apply (saved_checkpoint_is_loaded_back cfg env w); reflexivity.
Defined.

Lemma worker_checkpoint_update_prefix env p on_disk :
  default [] on_disk `prefix_of` default [] (worker_checkpoint_update env p on_disk).
Proof.
  unfold worker_checkpoint_update. destruct (checkpoint_writable env); [|done]. cbn.
  destruct (str_in _ _); [done|]. by apply prefix_app_r.
Qed.

(** X15.  The checkpoint update of a worker adds its path once: with a
    writable checkpoint file the list written starts with the list that was
    on disk (the empty list for a missing file) and holds the path of the
    worker; if the list on disk held no path twice, neither does the list
    written; and updating a second time for the same path changes
    nothing. *)
Theorem worker_checkpoint_update_adds_once (env : Env) (file_path : str)
    (on_disk : option (list str)) :
  checkpoint_writable env = true ->
  let updated := worker_checkpoint_update env file_path on_disk in
  default [] on_disk `prefix_of` default [] updated
  ∧ file_path ∈ default [] updated
  ∧ (NoDup (default [] on_disk) -> NoDup (default [] updated))
  ∧ worker_checkpoint_update env file_path updated = updated.
Proof.
  intros Hw updated. subst updated. split; [apply worker_checkpoint_update_prefix|].
  unfold worker_checkpoint_update, str_in. rewrite Hw. cbn.
  case_bool_decide as Hin; cbn.
  - rewrite bool_decide_eq_true_2 by done. done.
  - rewrite bool_decide_eq_true_2 by (apply elem_of_app; right; left).
    split_and!; try done.
    + apply elem_of_app. right. left.
    + intros Hnd. apply NoDup_app. split_and!; try done.
      * intros x Hx ->%list_elem_of_singleton. done.
      * apply NoDup_singleton.
Qed.

Lemma worker_checkpoint_update_adds_once_witness :
  let env := example_env example_files example_reply true in
  let on_disk := Some [py "scans/a.png"] in
  let updated := worker_checkpoint_update env (py "scans/c.jpg") on_disk in
  default [] on_disk `prefix_of` default [] updated
  ∧ py "scans/c.jpg" ∈ default [] updated
  ∧ (NoDup (default [] on_disk) -> NoDup (default [] updated))
  ∧ worker_checkpoint_update env (py "scans/c.jpg") updated = updated.
Proof.
  intros env on_disk.
  apply (worker_checkpoint_update_adds_once env (py "scans/c.jpg") on_disk).
  reflexivity.
Defined.




(** Racing workers: on a machine with four processors the pool for the
    small directory has three processes, and the two workers that succeed
    race on the checkpoint file.  In the surroundings of the example the
    update of the first is lost: the file ends without the first image,
    although its worker succeeded, and a second run with resume dispatches
    that image again.  A pool of one process loses nothing. *)
Example racing_workers_lose_an_update :
  let cfg := example_config in
  let env := example_env example_files example_reply true in
  let run max_workers :=
    (process_directory cfg env (py "scans") false true max_workers (fresh cfg None)).2 in
  let again :=
    (process_directory cfg env (py "scans") false true None
       (fresh cfg (checkpoint_file (run None)))).2 in
  successful (file_status (self (run None))) = [py "scans/a.png"; py "scans/c.jpg"]
  ∧ checkpoint_file (run None) = Some [py "scans/c.jpg"]
  ∧ checkpoint_file (run (Some 1%positive)) = Some [py "scans/a.png"; py "scans/c.jpg"]
  ∧ skipped (file_status (self again)) = [py "scans/c.jpg"]
  ∧ successful (file_status (self again)) = [py "scans/a.png"].
Proof. cbv zeta. repeat split; vm_compute; reflexivity. Qed.

(** X17.  A sequential run without resume rewrites the checkpoint file:
    when a new extractor runs sequentially with checkpointing enabled,
    resume disabled and a writable file, and at least one discovered file
    succeeds, the checkpoint file after the run holds exactly the files
    that succeeded in this run; what the file held before is lost. *)
Theorem sequential_run_without_resume_rewrites_checkpoint (cfg : Config) (env : Env)
    (directory_path : str) (recursive : bool) (max_workers : option positive)
    (on_disk : option (list str)) (files : list str) (p q : str) :
  ENABLE_CHECKPOINTING cfg = true ->
  RESUME_FROM_CHECKPOINT cfg = false ->
  checkpoint_writable env = true ->
  get_files_from_directory env directory_path recursive = Ok files ->
  NoDup (glob env directory_path (if recursive then py "**/*" else py "*")) ->
  p ∈ files ->
  file_ok cfg env p = true ->
  let w' := (process_directory cfg env directory_path recursive false max_workers
               (fresh cfg on_disk)).2 in
  q ∈ default [] (checkpoint_file w') <-> q ∈ successful (file_status (self w')).
Proof.
  intros He Hr Hw Hfiles Hglob Hp Hok w'. subst w'.
  pose proof (discovered_NoDup _ _ _ _ Hfiles Hglob) as Hnd.
  destruct (process_directory_effect cfg env directory_path recursive false max_workers
              files (fresh cfg on_disk) Hfiles Hnd)
    as (records & w' & -> & Hs & _ & _ & _ & Hc).
  cbn [snd]. rewrite Hc, Hs. unfold checkpoint_after.
  assert (loaded_checkpoint cfg (fresh cfg on_disk) = ∅) as ->.
  { unfold loaded_checkpoint. by rewrite Hr. }
  rewrite He, Hw. cbn [andb fresh self new_extractor file_status successful app].
  assert (p ∈ List.filter (fun q => not_in ∅ q && mode_ok cfg env false q) files) as Hin.
  { apply elem_of_filter. split; [done|]. unfold mode_ok. by rewrite Hok. }
  destruct (List.filter (fun q => not_in ∅ q && mode_ok cfg env false q) files)
    as [|s0 succeeded] eqn:E.
  - by apply elem_of_nil in Hin.
  - cbn [default from_option id]. rewrite elem_of_elements. set_solver.
Qed.

Lemma sequential_run_without_resume_rewrites_checkpoint_witness :
  let cfg := fresh_start_config in
  let env := example_env example_files example_reply true in
  let w' := (process_directory cfg env (py "scans") false false None
               (fresh cfg (Some [py "scans/old.png"]))).2 in
  py "scans/old.png" ∈ default [] (checkpoint_file w')
  <-> py "scans/old.png" ∈ successful (file_status (self w')).
Proof.
  intros cfg env.
  apply (sequential_run_without_resume_rewrites_checkpoint cfg env (py "scans") false
           None (Some [py "scans/old.png"]) example_files (py "scans/a.png")
           (py "scans/old.png")).
  - reflexivity.
  - reflexivity.
  - reflexivity.
  - vm_compute. reflexivity.
  - apply (bool_decide_unpack _). vm_compute. exact I.
  - apply (bool_decide_unpack _). vm_compute. exact I.
  - vm_compute. reflexivity.
Defined.

Lemma filter_none {A} (f : A -> bool) (l : list A) :
  (forall x, x ∈ l -> f x = false) -> List.filter f l = [].
Proof.
  induction l as [|x l IH]; intros H; [done|]. cbn.
  rewrite (H x) by left. apply IH. intros y Hy. apply H. by right.
Qed.

(** X18.  A run in which no dispatched file succeeds leaves the checkpoint
    file as it was, in either mode. *)
Theorem run_without_success_leaves_checkpoint (cfg : Config) (env : Env)
    (directory_path : str) (recursive parallel : bool) (max_workers : option positive)
    (files : list str) (w : World) :
  get_files_from_directory env directory_path recursive = Ok files ->
  NoDup (glob env directory_path (if recursive then py "**/*" else py "*")) ->
  (forall p, p ∈ files -> p ∉ loaded_checkpoint cfg w -> mode_ok cfg env parallel p = false) ->
  checkpoint_file
    (process_directory cfg env directory_path recursive parallel max_workers w).2
  = checkpoint_file w.
Proof.
  intros Hfiles Hglob Hfail.
  pose proof (discovered_NoDup _ _ _ _ Hfiles Hglob) as Hnd.
  destruct (process_directory_effect cfg env directory_path recursive parallel max_workers
              files w Hfiles Hnd) as (records & w' & -> & _ & _ & _ & _ & Hc).
  cbn [snd]. rewrite Hc. unfold checkpoint_after.
  assert (List.filter (fun q => not_in (loaded_checkpoint cfg w) q
                                && mode_ok cfg env parallel q) files = []) as ->.
  { apply filter_none. intros q Hq. unfold not_in. case_bool_decide as Hin; [done|].
    cbn. by apply Hfail. }
  cbv zeta. cbn [length]. rewrite orb_true_r.
  by destruct parallel, (ENABLE_CHECKPOINTING cfg), (checkpoint_writable env).
Qed.

Lemma run_without_success_leaves_checkpoint_witness :
  let cfg := example_config in
  let env := example_env example_files (fun _ => py "no records") true in
  let w := fresh cfg (Some [py "scans/old.png"]) in
  checkpoint_file (process_directory cfg env (py "scans") false true None w).2
  = checkpoint_file w.
Proof.
  intros cfg env w.
  apply (run_without_success_leaves_checkpoint cfg env (py "scans") false true None
           example_files w).
  - vm_compute. reflexivity.
  - apply (bool_decide_unpack _). vm_compute. exact I.
  - intros p Hp _. unfold example_files in Hp.
    rewrite !elem_of_cons in Hp.
    destruct Hp as [-> | [-> | [-> | Hp]]]; [vm_compute; reflexivity..|].
    by apply elem_of_nil in Hp.
Defined.

(** ** The usage report *)

Lemma add_usage_eq cfg (u : UsageMetadata) (ti to tt : Z) (tc : Q) :
  add_usage (get_model_pricing cfg) (ti, to, tt, tc) u
  = ((ti + prompt_token_count u)%Z, (to + candidates_token_count u)%Z,
     (tt + counted_thinking u)%Z, (tc + call_price cfg u)%Q).
Proof.
  unfold add_usage, counted_thinking, call_price. cbv zeta.
  destruct (_ && _); [done|]. by rewrite Z.add_0_r.
Qed.

Lemma usage_totals_fold cfg (l : list UsageMetadata) (ti to tt : Z) (tc : Q) :
  exists tc',
    foldl (add_usage (get_model_pricing cfg)) (ti, to, tt, tc) l
    = ((ti + Zsum (prompt_token_count <$> l))%Z,
       (to + Zsum (candidates_token_count <$> l))%Z,
       (tt + Zsum (counted_thinking <$> l))%Z, tc')
    ∧ (tc' == tc + Qsum (call_price cfg <$> l))%Q.
Proof.
  revert ti to tt tc. induction l as [|u l IH]; intros ti to tt tc.
  - exists tc. cbn. rewrite !Z.add_0_r. split; [done|]. ring.
  - cbn [foldl]. rewrite add_usage_eq.
    destruct (IH (ti + prompt_token_count u)%Z (to + candidates_token_count u)%Z
                (tt + counted_thinking u)%Z (tc + call_price cfg u)%Q)
      as (tc' & -> & Hc).
    exists tc'. split.
    + cbn [fmap list_fmap Zsum foldr]. by rewrite !Z.add_assoc.
    + rewrite Hc. cbn [fmap list_fmap Qsum foldr]. unfold Qsum. ring.
Qed.

(** The totals of the report in closed form. *)
Lemma collect_usage_data_totals cfg rate l :
  total_input_tokens (collect_usage_data cfg rate l) = Zsum (prompt_token_count <$> l)
  ∧ total_output_tokens (collect_usage_data cfg rate l)
    = Zsum (candidates_token_count <$> l)
  ∧ total_thinking_tokens (collect_usage_data cfg rate l) = Zsum (counted_thinking <$> l)
  ∧ total_tokens (collect_usage_data cfg rate l)
    = (Zsum (prompt_token_count <$> l) + Zsum (candidates_token_count <$> l)
       + Zsum (counted_thinking <$> l))%Z
  ∧ (total_cost_usd (collect_usage_data cfg rate l) == Qsum (call_price cfg <$> l))%Q.
Proof.
  unfold collect_usage_data.
  change (default (default_pricing (MODEL_PRICING cfg))
            (pricing_lookup (MODEL_PRICING cfg) (GOOGLE_MODEL cfg)))
    with (get_model_pricing cfg).
  cbv zeta.
  destruct (usage_totals_fold cfg l 0 0 0 0) as (tc' & -> & Hc). cbn.
  split_and!; try done. rewrite Hc. ring.
Qed.

Lemma Zsum_app (l1 l2 : list Z) : Zsum (l1 ++ l2) = (Zsum l1 + Zsum l2)%Z.
Proof. unfold Zsum. induction l1 as [|x l1 IH]; cbn; [done|]. rewrite IH. lia. Qed.

Lemma Qsum_app (l1 l2 : list Q) : (Qsum (l1 ++ l2) == Qsum l1 + Qsum l2)%Q.
Proof.
  unfold Qsum. induction l1 as [|x l1 IH]; cbn; [ring|]. rewrite IH. ring.
Qed.

Lemma counted_thinking_nonneg (l : list UsageMetadata) :
  (0 <= Zsum (counted_thinking <$> l))%Z.
Proof.
  unfold Zsum. induction l as [|u l IH]; [done|]. cbn [fmap list_fmap foldr].
  assert (0 <= counted_thinking u)%Z; [|lia].
  unfold counted_thinking. destruct (_ && _) eqn:E; [|done].
  apply andb_true_iff in E as [_ E%bool_decide_eq_true]. lia.
Qed.

(** X19.  The token counts of the usage report are additive: the report of
    two usage lists put together has, for input, output, thinking and all
    tokens, the sum of the totals of the reports of the two lists; the
    thinking tokens it counts are never negative, since a record adds to
    them only what it used with thinking enabled and more than zero.  (The
    counts are integers; nothing of the kind is claimed of the cost, which
    the code adds up in floating point.) *)
Theorem usage_report_tokens_are_additive (cfg : Config) (USD_TO_INR_RATE : Q)
    (l1 l2 : list UsageMetadata) :
  let whole := collect_usage_data cfg USD_TO_INR_RATE (l1 ++ l2) in
  let first := collect_usage_data cfg USD_TO_INR_RATE l1 in
  let second := collect_usage_data cfg USD_TO_INR_RATE l2 in
  total_input_tokens whole = (total_input_tokens first + total_input_tokens second)%Z
  ∧ total_output_tokens whole = (total_output_tokens first + total_output_tokens second)%Z
  ∧ total_thinking_tokens whole
    = (total_thinking_tokens first + total_thinking_tokens second)%Z
  ∧ total_tokens whole = (total_tokens first + total_tokens second)%Z
  ∧ total_tokens whole
    = (total_input_tokens whole + total_output_tokens whole
       + total_thinking_tokens whole)%Z
  ∧ (0 <= total_thinking_tokens whole)%Z.
Proof.
  intros whole first second. subst whole first second.
  destruct (collect_usage_data_totals cfg USD_TO_INR_RATE (l1 ++ l2))
    as (-> & -> & -> & -> & _).
  destruct (collect_usage_data_totals cfg USD_TO_INR_RATE l1) as (-> & -> & -> & -> & _).
  destruct (collect_usage_data_totals cfg USD_TO_INR_RATE l2) as (-> & -> & -> & -> & _).
  pose proof (counted_thinking_nonneg (l1 ++ l2)) as Hnn.
  rewrite !fmap_app, !Zsum_app in *.
  split_and!; try done; lia.
Qed.

Lemma sequential_usage_cost cfg env (l : list str) :
  CALCULATE_COST cfg = true ->
  (Qsum (call_price cfg <$> concat (sequential_usage cfg env <$> l))
   == Qsum (sequential_charge cfg env <$> l))%Q.
Proof.
  intros Hon. induction l as [|q l IH]; [done|].
  cbn [fmap list_fmap concat]. rewrite fmap_app, Qsum_app, IH.
  unfold sequential_usage, sequential_charge. rewrite Hon.
  destruct (call_usage cfg env q) as [u|]; unfold Qsum.
  - change (option_list (Some u)) with [u].
    destruct (priced_again cfg env q); cbn [app fmap list_fmap foldr]; ring.
  - change (option_list (@None UsageMetadata)) with (@nil UsageMetadata).
    destruct (priced_again cfg env q); cbn [app fmap list_fmap foldr]; ring.
Qed.

(** X20.  After a sequential directory run with cost calculation switched
    on, the cost the usage report computes from the usage list of the
    extractor is the total cost the extractor accumulated during the
    run. *)
Theorem report_cost_matches_sequential_total (cfg : Config) (env : Env)
    (USD_TO_INR_RATE : Q) (directory_path : str) (recursive : bool)
    (max_workers : option positive) (files : list str) (w : World) :
  CALCULATE_COST cfg = true ->
  get_files_from_directory env directory_path recursive = Ok files ->
  NoDup (glob env directory_path (if recursive then py "**/*" else py "*")) ->
  let w' := (process_directory cfg env directory_path recursive false max_workers w).2 in
  (total_cost_usd (collect_usage_data cfg USD_TO_INR_RATE (usage_metadata_list (self w')))
   == total_cost (self w'))%Q.
Proof.
  intros Hon Hfiles Hglob w'. subst w'.
  pose proof (discovered_NoDup _ _ _ _ Hfiles Hglob) as Hnd.
  destruct (process_directory_accounts cfg env directory_path recursive false max_workers
              files w Hfiles Hnd) as (records & w' & -> & Hc & Hu & _).
  cbn [snd].
  destruct (collect_usage_data_totals cfg USD_TO_INR_RATE (usage_metadata_list (self w')))
    as (_ & _ & _ & _ & ->).
  rewrite Hc, Hu. by apply sequential_usage_cost.
Qed.

Lemma report_cost_matches_sequential_total_witness :
  let cfg := example_config in
  let env := example_env example_files example_reply true in
  let w' := (process_directory cfg env (py "scans") false false None (fresh cfg None)).2 in
  (total_cost_usd (collect_usage_data cfg (835 # 10) (usage_metadata_list (self w')))
   == total_cost (self w'))%Q.
Proof.
  intros cfg env.
  apply (report_cost_matches_sequential_total cfg env (835 # 10) (py "scans") false None
           example_files (fresh cfg None)).
  - reflexivity.
  - vm_compute. reflexivity.
  - apply (bool_decide_unpack _). vm_compute. exact I.
Defined.

(** ** The application *)

Lemma new_extractor_eq cfg s output_dir extractor :
  new_military_records_extractor cfg s output_dir = Ok extractor ->
  extractor = new_extractor cfg.
Proof.
  unfold new_military_records_extractor.
  destruct (new_llm_client s); [|done]. cbn.
  destruct (make_output_dir s output_dir); [|done]. cbn.
  destruct (make_report_dir s output_dir); [|done]. cbn. by intros [= <-].
Qed.



Lemma single_file_run_effect cfg env s args w :
  starts cfg s (App.output args) = true ->
  exists_ env (App.input args) = Ok true ->
  is_file env (App.input args) = true ->
  exists w',
    App.main cfg env s (Ok args) w = (Ok 0%Z, w')
    ∧ total_files (run_metadata (self w')) = 2%nat
    ∧ successful_files (run_metadata (self w'))
      = (if file_ok cfg env (App.input args) then 1 else 0)%nat
    ∧ failed_files (run_metadata (self w'))
      = (if file_ok cfg env (App.input args) then 0 else 1)%nat
    ∧ checkpoint_file w'
      = (if file_ok cfg env (App.input args) && ENABLE_CHECKPOINTING cfg
            && checkpoint_writable env
         then Some [App.input args] else checkpoint_file w).
Proof.
  unfold starts. intros Hs He Hf. unfold App.main.
  unfold mbind at 1, M_bind at 1, call at 1. cbv zeta.
  destruct (new_military_records_extractor cfg s (App.output args)) as [extractor|] eqn:Hx;
    [|done].
  apply new_extractor_eq in Hx as ->.
  unfold mbind at 1, M_bind at 1. unfold update_self at 1.
  unfold mbind at 1, M_bind at 1, call at 1.
  rewrite He, Hf. cbn [negb].
  unfold mbind at 1, M_bind at 1. unfold update_self at 1.
  unfold mbind at 1, M_bind at 1.
  match goal with
  | |- context [process_file cfg env ?p ?w0] =>
    destruct (process_file_accounts cfg env p w0) as [[_ _ Hsucc Hfail _] _];
    destruct (process_file_effect cfg env p w0) as (res & w1 & Heq & _ & _ & _ & Hc & Ht)
  end.
  rewrite Heq in *. cbn [snd] in *.
  unfold mbind at 1, M_bind at 1.
  destruct (get_combined_dataframe_effect env w1) as (records & ->).
  exists w1. split; [done|].
  cbn in Hsucc, Hfail, Ht, Hc. rewrite Hsucc, Hfail, Ht, Hc.
  split_and!; try done.
  destruct (_ && _ && _); [|done]. f_equal. rewrite union_empty_r_L.
  apply elements_singleton.
Qed.

(** X22.  A single-file run counts its file twice: [main] sets the counter
    of total files to 1 before it calls [process_file], which adds 1, so
    the run metadata of a run over one file ends with 2 total files, of
    which one is successful or failed. *)
Theorem single_file_run_counts_the_file_twice (cfg : Config) (env : Env) (s : Startup)
    (args : App.Args) (w : World) :
  starts cfg s (App.output args) = true ->
  exists_ env (App.input args) = Ok true ->
  is_file env (App.input args) = true ->
  let w' := (App.main cfg env s (Ok args) w).2 in
  let counters := run_metadata (self w') in
  total_files counters = 2%nat
  ∧ (successful_files counters + failed_files counters = 1)%nat
  ∧ (successful_files counters = 1%nat <-> file_ok cfg env (App.input args) = true).
Proof.
  intros Hs He Hf w' counters. subst counters w'.
  destruct (single_file_run_effect cfg env s args w Hs He Hf)
    as (w' & Hrun & Ht & Hsucc & Hfail & _).
  rewrite Hrun. cbn [snd]. rewrite Ht, Hsucc, Hfail.
  by destruct (file_ok cfg env _).
Qed.

Lemma single_file_run_counts_the_file_twice_witness :
  let cfg := example_config in
  let args := example_args (py "scans/a.png") false false in
  let w' := (App.main cfg single_image_env example_startup (Ok args)
               (fresh cfg (Some [py "scans/old.png"]))).2 in
  let counters := run_metadata (self w') in
  total_files counters = 2%nat
  ∧ (successful_files counters + failed_files counters = 1)%nat
  ∧ (successful_files counters = 1%nat <-> file_ok cfg single_image_env (App.input args) = true).
Proof.
  intros cfg args.
  apply (single_file_run_counts_the_file_twice cfg single_image_env example_startup args
           (fresh cfg (Some [py "scans/old.png"]))); reflexivity.
Defined.

(** X23.  A single-file run replaces the checkpoint: the extractor of
    [main] starts with an empty processed-files set and loads no
    checkpoint, so when the file succeeds, with checkpointing enabled and a
    writable file, the checkpoint file holds that one path afterwards,
    whatever it held before and whether or not resume is set. *)
Theorem single_file_run_replaces_the_checkpoint (cfg : Config) (env : Env) (s : Startup)
    (args : App.Args) (w : World) :
  starts cfg s (App.output args) = true ->
  exists_ env (App.input args) = Ok true ->
  is_file env (App.input args) = true ->
  file_ok cfg env (App.input args) = true ->
  ENABLE_CHECKPOINTING cfg = true ->
  checkpoint_writable env = true ->
  checkpoint_file (App.main cfg env s (Ok args) w).2 = Some [App.input args].
Proof.
  intros Hs He Hf Hok Hon Hw.
  destruct (single_file_run_effect cfg env s args w Hs He Hf)
    as (w' & Hrun & _ & _ & _ & Hc).
  rewrite Hrun. cbn [snd]. by rewrite Hc, Hok, Hon, Hw.
Qed.

Lemma single_file_run_replaces_the_checkpoint_witness :
  checkpoint_file
    (App.main example_config single_image_env example_startup
       (Ok (example_args (py "scans/a.png") true true))
       (fresh example_config (Some [py "scans/old.png"]))).2
  = Some [py "scans/a.png"].
Proof.
  apply (single_file_run_replaces_the_checkpoint example_config single_image_env
           example_startup (example_args (py "scans/a.png") true true)
           (fresh example_config (Some [py "scans/old.png"])));
    vm_compute; reflexivity.
Defined.

(** X24.  The flags that [main] only logs change nothing: two command
    lines that agree on input, output, recursion, parallelism and the
    number of workers give the same run, whatever they say about thinking
    logs, cost calculation, checkpointing, the checkpoint file and resume.
    These five settings are read from the configuration only. *)
Theorem main_ignores_the_logged_flags (cfg : Config) (env : Env) (s : Startup)
    (args args' : App.Args) :
  App.input args = App.input args' ->
  App.output args = App.output args' ->
  App.recursive args = App.recursive args' ->
  App.parallel args = App.parallel args' ->
  App.workers args = App.workers args' ->
  App.main cfg env s (Ok args) = App.main cfg env s (Ok args').
Proof.
  destruct args, args'. cbn. intros -> -> -> -> ->. reflexivity.
Qed.

Lemma main_ignores_the_logged_flags_witness :
  App.main fresh_start_config single_image_env example_startup
    (Ok (example_args (py "scans/a.png") false false))
  = App.main fresh_start_config single_image_env example_startup
      (Ok (example_args (py "scans/a.png") true true)).
Proof.
  apply (main_ignores_the_logged_flags fresh_start_config single_image_env
           example_startup (example_args (py "scans/a.png") false false)
           (example_args (py "scans/a.png") true true)); reflexivity.
Defined.
